(** * SmartForm Pro: the camera capture controller and the form controller

    A shallow embedding of [camera.js] (class [CameraApp]) and [app.js]
    (class [SmartFormApp]), and the properties of the specification that
    were checked against it.

    Layout: the JavaScript run-time notions the two classes rely on
    (strings as UTF-16 code units, white space, [trim], truthiness, the
    regular expressions of [validateField], parsed JSON), then the page
    state and the methods of the two classes under their source names, then
    the event dispatcher of the page, and finally the lemmas. *)

From Stdlib Require Import ZArith NArith String Ascii DecimalString.
From stdpp Require Import gmap list.

Set Warnings "-register-all".
Local Open Scope N_scope.

(** ** JavaScript strings *)

(** A JavaScript string is a sequence of UTF-16 code units. *)
Abbreviation jsstring := (list N).

(** The code units of an ASCII literal of the source. *)
Definition lit (s : string) : jsstring :=
  map N_of_ascii (list_ascii_of_string s).

Arguments lit s : simpl never.

(** [String(n)] for an integral number. *)
Definition string_of_Z (z : Z) : jsstring :=
  lit (NilZero.string_of_int (Z.to_int z)).
Arguments string_of_Z z : simpl never.

(** The class [\s] of a regular expression, which is also what [trim]
    strips: WhiteSpace and LineTerminator of ECMAScript. *)
Definition is_space (c : N) : bool :=
  (9 <=? c) && (c <=? 13)
  || (c =? 32) || (c =? 160) || (c =? 5760)
  || (8192 <=? c) && (c <=? 8202)
  || (c =? 8232) || (c =? 8233) || (c =? 8239) || (c =? 8287)
  || (c =? 12288) || (c =? 65279).

(** The class [\d]: the ten ASCII digits. *)
Definition is_digit (c : N) : bool := (48 <=? c) && (c <=? 57).

Fixpoint trimStart (s : jsstring) : jsstring :=
  match s with
  | c :: s' => if is_space c then trimStart s' else s
  | [] => []
  end.

Definition trimEnd (s : jsstring) : jsstring := rev (trimStart (rev s)).

(** [String.prototype.trim] *)
Definition trim (s : jsstring) : jsstring := trimEnd (trimStart s).

(** Truthiness of a string: [if (s)], [!s]. *)
Definition truthy_string (s : jsstring) : bool :=
  match s with [] => false | _ => true end.

(** ** Regular expressions *)

(** The fragment of regular expressions that [validateField] uses, over
    code units; a character class is its membership test. *)
Inductive regex : Type :=
| Void
| Eps
| Class (p : N -> bool)
| Cat (r1 r2 : regex)
| Alt (r1 r2 : regex)
| Star (r : regex).

(** A single character, and the postfix [+]. *)
Definition Chr (a : ascii) : regex := Class (N.eqb (N_of_ascii a)).
Definition Plus (r : regex) : regex := Cat r (Star r).

Fixpoint nullable (r : regex) : bool :=
  match r with
  | Void => false
  | Eps => true
  | Class _ => false
  | Cat r1 r2 => nullable r1 && nullable r2
  | Alt r1 r2 => nullable r1 || nullable r2
  | Star _ => true
  end.

Fixpoint deriv (c : N) (r : regex) : regex :=
  match r with
  | Void => Void
  | Eps => Void
  | Class p => if p c then Eps else Void
  | Cat r1 r2 =>
      if nullable r1 then Alt (Cat (deriv c r1) r2) (deriv c r2)
      else Cat (deriv c r1) r2
  | Alt r1 r2 => Alt (deriv c r1) (deriv c r2)
  | Star r1 => Cat (deriv c r1) (Star r1)
  end.

(** Does the whole of [s] match [r]? *)
Fixpoint matches (r : regex) (s : jsstring) : bool :=
  match s with
  | [] => nullable r
  | c :: s' => matches (deriv c r) s'
  end.

(** [/^r$/.test(s)]: without the [m] flag the two anchors pin the match to
    the whole string, so the search of [test] succeeds exactly when all of
    [s] is in the language of [r]. *)
Definition test_anchored (r : regex) (s : jsstring) : bool := matches r s.

(** The words of a regular expression. *)
Inductive lang : regex -> jsstring -> Prop :=
| lang_eps : lang Eps []
| lang_class p c : p c = true -> lang (Class p) [c]
| lang_cat r1 r2 s1 s2 : lang r1 s1 -> lang r2 s2 -> lang (Cat r1 r2) (s1 ++ s2)
| lang_alt_l r1 r2 s : lang r1 s -> lang (Alt r1 r2) s
| lang_alt_r r1 r2 s : lang r2 s -> lang (Alt r1 r2) s
| lang_star_nil r : lang (Star r) []
| lang_star_app r s1 s2 :
    lang r s1 -> lang (Star r) s2 -> lang (Star r) (s1 ++ s2).

(** [[^\s@]] *)
Definition not_space_at (c : N) : bool :=
  negb (is_space c) && negb (c =? N_of_ascii "@"%char).

(** [/^[^\s@]+@[^\s@]+\.[^\s@]+$/] *)
Definition emailRegex : regex :=
  Cat (Plus (Class not_space_at))
    (Cat (Chr "@"%char)
       (Cat (Plus (Class not_space_at))
          (Cat (Chr "."%char) (Plus (Class not_space_at))))).

(** [[\d\s\-\+\(\)]] *)
Definition phone_char (c : N) : bool :=
  is_digit c || is_space c
  || (c =? N_of_ascii "-"%char) || (c =? N_of_ascii "+"%char)
  || (c =? N_of_ascii "("%char) || (c =? N_of_ascii ")"%char).

(** [/^[\d\s\-\+\(\)]+$/] *)
Definition phoneRegex : regex := Plus (Class phone_char).

(** [s.replace(/\D/g, '')]: every non-digit is deleted. *)
Definition replace_nondigits (s : jsstring) : jsstring :=
  List.filter is_digit s.

(** ** JavaScript values *)

(** What a JavaScript operation completes with: a value, or a thrown
    error, of which only [message] is ever read. *)
Inductive completion (A : Type) : Type :=
| Normal (a : A)
| Throw (message : jsstring).
Arguments Normal {A} a.
Arguments Throw {A} message.

(** The values that reach the two classes: what [JSON.parse] yields, and
    [undefined]. Objects are finite maps from property names to values;
    no value is a function. Numbers are the integral ones ([Date.now()],
    an integral field of a response); a response with a fractional number
    is outside the model. *)
Inductive jsval : Type :=
| JUndefined
| JNull
| JBool (b : bool)
| JNum (z : Z)
| JStr (s : jsstring)
| JArr (l : list jsval)
| JObj (o : gmap jsstring jsval).

(** ToBoolean *)
Definition truthy (v : jsval) : bool :=
  match v with
  | JUndefined | JNull => false
  | JBool b => b
  | JNum z => negb (z =? 0)%Z
  | JStr s => truthy_string s
  | JArr _ | JObj _ => true
  end.

(** Does ToPrimitive find a primitive for the value? An object of
    [JSON.parse] inherits [toString] and [valueOf] from [Object.prototype],
    and the inherited [valueOf] returns the object itself: the conversion
    goes through [toString]. An own property [toString] hides the inherited
    method and is never callable, so the conversion ends in a [TypeError].
    An array is joined, which converts every element that is neither
    [null] nor [undefined]. *)
Fixpoint convertible (v : jsval) : bool :=
  match v with
  | JObj o => bool_decide (o !! lit "toString" = None)
  | JArr l => forallb convertible l
  | _ => true
  end.

(** The text of a value that has one, given the digits of the numbers. An
    array prints its elements separated by commas, [null] and [undefined]
    elements as nothing. *)
Fixpoint text_of (digits : Z -> jsstring) (v : jsval) : jsstring :=
  match v with
  | JUndefined => lit "undefined"
  | JNull => lit "null"
  | JBool true => lit "true"
  | JBool false => lit "false"
  | JNum z => digits z
  | JStr s => s
  | JArr l =>
      (fix join (l : list jsval) : jsstring :=
         let elem x :=
           match x with JUndefined | JNull => [] | _ => text_of digits x end in
         match l with
         | [] => []
         | [x] => elem x
         | x :: l' => elem x ++ lit "," ++ join l'
         end) l
  | JObj _ => lit "[object Object]"
  end.

(** ** The host: clock, network, engine *)

(** The argument of [fetch]. The body is [JSON.stringify(data)]; it is kept
    as the value that was serialised. *)
Inductive json_text : Type := JSON_stringify (v : jsval).

Record request : Type := {
  url : jsstring;
  method : jsstring;
  headers : list (jsstring * jsstring);
  body : json_text
}.

(** A response of the endpoint: its status, and what [response.json()]
    completes with (it rejects when the body is not JSON). *)
Record response : Type := {
  status : Z;
  json : completion jsval
}.

(** [response.ok]: the status is in the range 200 to 299. *)
Definition ok (r : response) : bool :=
  ((200 <=? status r) && (status r <=? 299))%Z.

(** [fetch] resolves with a response or rejects (no network, CORS, ...). *)
Inductive fetch_outcome : Type :=
| Rejected (message : jsstring)
| Resolved (r : response).

(** The three places where [app.js] converts a value of the response. *)
Inductive conversion : Type :=
| Error_argument          (* new Error(response.message || 'Submission failed') *)
| Template_submissionId   (* `${data.submissionId}` *)
| Date_argument.          (* new Date(data.timestamp) *)

(** The [TypeError]s that the engine can raise in [app.js]. *)
Inductive type_error : Type :=
| Reading (v : jsval) (k : jsstring)         (* v.k on null or undefined *)
| Converting (c : conversion) (v : jsval).   (* v has no primitive value *)

(** What the host answers during one submission: the two readings of the
    clock, the outcome of the request, the digits the engine prints for a
    number beyond 2^53 (rounded to the shortest digits that identify it,
    in exponent form from 1e21), and the text it puts in a [TypeError]. *)
Record host : Type := {
  toISOString_now : jsstring;          (* new Date().toISOString() *)
  Date_now : Z;                        (* Date.now() *)
  network : request -> fetch_outcome;  (* fetch(...) *)
  Number_toString : Z -> jsstring;
  TypeError_message : type_error -> jsstring
}.

(** [null] and [undefined] have no properties. *)
Definition nullish (v : jsval) : bool :=
  match v with
  | JUndefined | JNull => true
  | _ => false
  end.

(** The property [k] of a value that has properties: the property of an
    object, [undefined] on anything else (none of the names read here is a
    property of a number, a string, a boolean or an array). *)
Definition field_of (v : jsval) (k : jsstring) : jsval :=
  match v with
  | JObj o => default JUndefined (o !! k)
  | _ => JUndefined
  end.

(** [v.k]: a [TypeError] on [null] and [undefined]. *)
Definition get (h : host) (v : jsval) (k : jsstring) : completion jsval :=
  if nullish v then Throw (TypeError_message h (Reading v k))
  else Normal (field_of v k).

(** The digits of an integral number: up to 2^53 every integer is a number
    of its own and prints in decimal. *)
Definition Number_text (h : host) (z : Z) : jsstring :=
  if (Z.abs z <=? 2 ^ 53)%Z then string_of_Z z else Number_toString h z.

(** ToString at the place [c]: the text of the value, or the [TypeError]
    of a value that has no primitive. *)
Definition to_string (h : host) (c : conversion) (v : jsval)
  : completion jsstring :=
  if convertible v then Normal (text_of (Number_text h) v)
  else Throw (TypeError_message h (Converting c v)).

(** ToPrimitive at the place [c], of which only the failure matters. *)
Definition to_primitive (h : host) (c : conversion) (v : jsval)
  : completion unit :=
  if convertible v then Normal tt
  else Throw (TypeError_message h (Converting c v)).

(** ** What the page does that can be observed *)

Inductive effect : Type :=
| PreventDefault                                   (* e.preventDefault() *)
| ErrorNotification (message : jsstring)           (* showError: a notification is added to the body *)
| Loading (show : bool)                            (* showLoading(show) *)
| Fetch (req : request)                            (* fetch(API_ENDPOINT, ...) *)
| SubmissionDetails (submissionId timestamp : jsval) (* showSuccess: the details written into the modal *)
| ConsoleError (what : jsstring) (message : jsstring)
| ConsoleLog (what : jsstring)
| GetUserMedia                                     (* navigator.mediaDevices.getUserMedia(constraints) *)
| TrackStop (stream track : nat)                   (* track.stop() *)
| ImageCaptured (imageData : option jsstring).     (* window.smartFormApp.onImageCaptured(imageData) *)

(** ** The form controller, [SmartFormApp] *)

(** A control of the form, as the class reads and writes it. *)
Record field : Type := {
  name : jsstring;
  type : jsstring;
  required : bool;          (* field.hasAttribute('required') *)
  defaultValue : jsstring;  (* what form.reset() restores *)
  value : jsstring;
  error : bool              (* field.classList.contains('error') *)
}.

Record SmartFormApp : Type := {
  form : list field;                       (* the controls of this.form *)
  errorElements : gmap jsstring jsstring;  (* textContent of the error elements, by id *)
  submitBtn_disabled : bool;               (* this.submitBtn.disabled *)
  loadingOverlay_hidden : bool;
  successModal_hidden : bool;
  capturedImageData : option jsstring      (* null, or the data URL *)
}.

(** ** Methods as state transformers

    A method runs on the state [St] of its object (or of the page), may
    leave observable effects, and completes normally or throws. An
    [async] method is run to completion in one piece, given the answers of
    the host: [handleFormSubmit] reads the form before its [await] and only
    shows the outcome after it, and [startCamera] only stores the stream
    after its [await]. *)
Definition act (St A : Type) : Type := St -> St * list effect * completion A.

Section Act.
Context {St : Type}.

Definition ret {A} (a : A) : act St A := fun s => (s, [], Normal a).

Definition throw {A} (message : jsstring) : act St A :=
  fun s => (s, [], Throw message).

Definition bind {A B} (m : act St A) (k : A -> act St B) : act St B :=
  fun s =>
    let '(s1, e1, r) := m s in
    match r with
    | Normal a => let '(s2, e2, r2) := k a s1 in (s2, e1 ++ e2, r2)
    | Throw message => (s1, e1, Throw message)
    end.

Definition emit (e : effect) : act St unit := fun s => (s, [e], Normal tt).

Definition gets {A} (f : St -> A) : act St A := fun s => (s, [], Normal (f s)).

Definition modify (f : St -> St) : act St unit := fun s => (f s, [], Normal tt).

(** A completion computed without touching the state. *)
Definition complete {A} (c : completion A) : act St A := fun s => (s, [], c).

(** [try { m } catch (error) { handler(error.message) }] *)
Definition try_catch {A} (m : act St A) (handler : jsstring -> act St A)
  : act St A :=
  fun s =>
    let '(s1, e1, r) := m s in
    match r with
    | Normal a => (s1, e1, Normal a)
    | Throw message =>
        let '(s2, e2, r2) := handler message s1 in (s2, e1 ++ e2, r2)
    end.

(** [try { m } finally { fin }] *)
Definition try_finally {A} (m : act St A) (fin : act St unit) : act St A :=
  fun s =>
    let '(s1, e1, r) := m s in
    let '(s2, e2, r2) := fin s1 in
    match r2 with
    | Normal _ => (s2, e1 ++ e2, r)
    | Throw message => (s2, e1 ++ e2, Throw message)
    end.
End Act.

Declare Scope act_scope.
Delimit Scope act_scope with act.
Notation "'let*' x ':=' m 'in' k" := (bind m (fun x => k))
  (at level 10, x name, m at level 100, k at level 200) : act_scope.
Notation "m '>>' k" := (bind m (fun _ => k))
  (at level 100, k at level 200, right associativity) : act_scope.
Local Open Scope act_scope.

(** The state, the effects and the completion of a run. *)
Definition state_of {St A} (x : St * list effect * completion A) : St := fst (fst x).
Definition effects_of {St A} (x : St * list effect * completion A) : list effect :=
  snd (fst x).
Definition completion_of {St A} (x : St * list effect * completion A)
  : completion A := snd x.

(** *** Setters *)

Definition set_value (v : jsstring) (f : field) : field :=
  {| name := name f; type := type f; required := required f;
     defaultValue := defaultValue f; value := v; error := error f |}.

Definition set_error (b : bool) (f : field) : field :=
  {| name := name f; type := type f; required := required f;
     defaultValue := defaultValue f; value := value f; error := b |}.

Definition set_form (l : list field) (this : SmartFormApp) : SmartFormApp :=
  {| form := l; errorElements := errorElements this;
     submitBtn_disabled := submitBtn_disabled this;
     loadingOverlay_hidden := loadingOverlay_hidden this;
     successModal_hidden := successModal_hidden this;
     capturedImageData := capturedImageData this |}.

Definition set_errorElements (m : gmap jsstring jsstring) (this : SmartFormApp)
  : SmartFormApp :=
  {| form := form this; errorElements := m;
     submitBtn_disabled := submitBtn_disabled this;
     loadingOverlay_hidden := loadingOverlay_hidden this;
     successModal_hidden := successModal_hidden this;
     capturedImageData := capturedImageData this |}.

Definition set_submitBtn_disabled (b : bool) (this : SmartFormApp) : SmartFormApp :=
  {| form := form this; errorElements := errorElements this;
     submitBtn_disabled := b;
     loadingOverlay_hidden := loadingOverlay_hidden this;
     successModal_hidden := successModal_hidden this;
     capturedImageData := capturedImageData this |}.

Definition set_loadingOverlay_hidden (b : bool) (this : SmartFormApp) : SmartFormApp :=
  {| form := form this; errorElements := errorElements this;
     submitBtn_disabled := submitBtn_disabled this;
     loadingOverlay_hidden := b;
     successModal_hidden := successModal_hidden this;
     capturedImageData := capturedImageData this |}.

Definition set_successModal_hidden (b : bool) (this : SmartFormApp) : SmartFormApp :=
  {| form := form this; errorElements := errorElements this;
     submitBtn_disabled := submitBtn_disabled this;
     loadingOverlay_hidden := loadingOverlay_hidden this;
     successModal_hidden := b;
     capturedImageData := capturedImageData this |}.

Definition set_capturedImageData (d : option jsstring) (this : SmartFormApp)
  : SmartFormApp :=
  {| form := form this; errorElements := errorElements this;
     submitBtn_disabled := submitBtn_disabled this;
     loadingOverlay_hidden := loadingOverlay_hidden this;
     successModal_hidden := successModal_hidden this;
     capturedImageData := d |}.

(** *** [validateField] *)

(** The id of the error element of a control: [`${field.name}Error`]. *)
Definition errorElement_id (f : field) : jsstring := name f ++ lit "Error".

(** [element.textContent = text] for the error element with that id, when
    the document has one ([if (errorElement) ...]). *)
Definition set_textContent (id text : jsstring) : act SmartFormApp unit :=
  modify (fun this =>
    match errorElements this !! id with
    | Some _ => set_errorElements (<[id := text]> (errorElements this)) this
    | None => this
    end).

(** [field.classList.remove('error')] and [field.classList.add('error')]
    for the control at position [i] of the form. *)
Definition classList_error (i : nat) (b : bool) : act SmartFormApp unit :=
  modify (fun this => set_form (alter (set_error b) i (form this)) this).

(** The three checks of [validateField] in their order: the values of the
    locals [isValid] and [errorMessage] when the checks are done. *)
Definition validateField_checks (f : field) : bool * jsstring :=
  let isValid := true in
  let errorMessage : jsstring := [] in
  (* Check if field is empty *)
  let '(isValid, errorMessage) :=
    if required f && negb (truthy_string (trim (value f)))
    then (false, lit "This field is required")
    else (isValid, errorMessage) in
  (* Email validation *)
  let '(isValid, errorMessage) :=
    if bool_decide (type f = lit "email") && truthy_string (value f)
    then
      if negb (test_anchored emailRegex (value f))
      then (false, lit "Please enter a valid email address")
      else (isValid, errorMessage)
    else (isValid, errorMessage) in
  (* Phone validation *)
  let '(isValid, errorMessage) :=
    if bool_decide (type f = lit "tel") && truthy_string (value f)
    then
      if negb (test_anchored phoneRegex (value f))
         || (length (replace_nondigits (value f)) <? 10)%nat
      then (false, lit "Please enter a valid phone number")
      else (isValid, errorMessage)
    else (isValid, errorMessage) in
  (isValid, errorMessage).

(** [validateField(field)], the control being the one at position [i] of
    the form. (No listener passes a control that the form does not have;
    the method then does nothing.) *)
Definition validateField (i : nat) : act SmartFormApp bool :=
  let* field := gets (fun this => form this !! i) in
  match field with
  | None => ret true
  | Some field =>
      let errorElement := errorElement_id field in
      (* Remove previous error state *)
      classList_error i false >>
      set_textContent errorElement [] >>
      let '(isValid, errorMessage) := validateField_checks field in
      (* Display error if invalid *)
      (if negb isValid
       then classList_error i true >> set_textContent errorElement errorMessage
       else ret tt) >>
      ret isValid
  end.

(** *** [checkFormValidity] *)

(** [this.form.querySelectorAll('[required]')] *)
Definition requiredFields (this : SmartFormApp) : list field :=
  List.filter required (form this).

(** Truthiness of [this.capturedImageData]. *)
Definition truthy_image (d : option jsstring) : bool :=
  match d with
  | None => false
  | Some s => truthy_string s
  end.

Definition checkFormValidity : act SmartFormApp bool :=
  let* this := gets id in
  let allValid := true in
  let allValid :=
    fold_left
      (fun allValid field =>
         if negb (truthy_string (trim (value field))) || error field
         then false else allValid)
      (requiredFields this) allValid in
  (* Check if image is captured *)
  let allValid :=
    if negb (truthy_image (capturedImageData this)) then false else allValid in
  modify (set_submitBtn_disabled (negb allValid)) >>
  ret allValid.

(** Method to be called by camera module when image is captured *)
Definition onImageCaptured (imageData : option jsstring) : act SmartFormApp unit :=
  modify (set_capturedImageData imageData) >>
  let* _ := checkFormValidity in
  ret tt.

(** *** Showing outcomes *)

Definition showLoading (show : bool) : act SmartFormApp unit :=
  emit (Loading show) >>
  modify (set_loadingOverlay_hidden (negb show)).

(** [showError(message)]: a notification is added to the page (and removes
    itself five seconds later, or when it is closed). *)
Definition showError (message : jsstring) : act SmartFormApp unit :=
  emit (ErrorNotification message).

(** [showSuccess(data)]: the template reads [data.submissionId] and puts
    its text in the markup, then reads [data.timestamp] and makes a date of
    it (the date is printed by [toLocaleString], in the words of the
    locale); then the modal is shown. Either conversion can throw. *)
Definition showSuccess (h : host) (data : jsval) : act SmartFormApp unit :=
  let* submissionId := complete (get h data (lit "submissionId")) in
  let* _ := complete (to_string h Template_submissionId submissionId) in
  let* timestamp := complete (get h data (lit "timestamp")) in
  let* _ := complete (to_primitive h Date_argument timestamp) in
  emit (SubmissionDetails submissionId timestamp) >>
  modify (set_successModal_hidden false).

Definition closeModal : act SmartFormApp unit :=
  modify (set_successModal_hidden true).

(** *** [getFormData] and [submitData] *)

(** The two halves of a surrogate pair. *)
Definition is_lead (c : N) : bool := (55296 <=? c) && (c <=? 56319).
Definition is_trail (c : N) : bool := (56320 <=? c) && (c <=? 57343).

(** The scalar value string of a string, which is what [FormData] keeps of
    a name and of a value: a surrogate that is not half of a pair becomes
    U+FFFD. *)
Fixpoint USVString (s : jsstring) : jsstring :=
  match s with
  | [] => []
  | c :: s' =>
      if is_lead c then
        match s' with
        | d :: s'' =>
            if is_trail d then c :: d :: USVString s''
            else 65533 :: USVString s'
        | [] => [65533]
        end
      else if is_trail c then 65533 :: USVString s'
      else c :: USVString s'
  end.

(** [new FormData(this.form).entries()]: the name and the value of every
    control that has a name, in the order of the form, both as scalar
    value strings. (The controls of the model are enabled controls with a
    text value; a disabled control, an unchecked box or a file, which
    [FormData] treats differently, is not modelled.) *)
Definition FormData_entries (l : list field) : list (jsstring * jsstring) :=
  map (fun f => (USVString (name f), USVString (value f)))
      (List.filter (fun f => truthy_string (name f)) l).

(** [this.capturedImageData] as a value. *)
Definition image_value (d : option jsstring) : jsval :=
  match d with
  | None => JNull
  | Some s => JStr s
  end.

(** [data[key] = value] on an object that inherits from [Object.prototype],
    [value] being a string. Under every key but one the object gets a
    property of its own. The key [__proto__] is the accessor of
    [Object.prototype]: its setter ignores a string, and the object gets
    no property. *)
Definition assign (data : gmap jsstring jsval) (key value : jsstring)
  : gmap jsstring jsval :=
  if bool_decide (key = lit "__proto__") then data
  else <[key := JStr value]> data.

Definition getFormData (h : host) : act SmartFormApp (gmap jsstring jsval) :=
  let* this := gets id in
  let formData := FormData_entries (form this) in
  let data : gmap jsstring jsval := ∅ in
  (* Convert FormData to object *)
  let data :=
    fold_left (fun data '(key, value) => assign data key value)
              formData data in
  (* Add timestamp *)
  let data := <[lit "timestamp" := JStr (toISOString_now h)]> data in
  (* Add image data *)
  let data := <[lit "imageData" := image_value (capturedImageData this)]> data in
  ret data.

Definition API_ENDPOINT : jsstring :=
  lit "https://script.google.com/macros/s/AKfycbxTZP93ECiJz3Fl7QdIi1U1ckw5z3N67B0g5EIAiMZgGqlS8suM7qIyO-Jd04xBCf-X/exec".

(** The request that [submitData(data)] hands to [fetch]. *)
Definition submit_request (data : gmap jsstring jsval) : request :=
  {| url := API_ENDPOINT;
     method := lit "POST";
     headers := [(lit "Content-Type", lit "application/json")];
     body := JSON_stringify (JObj data) |}.

(** The object that the [catch] of [submitData] returns. *)
Definition simulated_response (h : host) (data : gmap jsstring jsval) : jsval :=
  JObj (<[lit "success" := JBool true]>
       (<[lit "data" :=
            JObj (<[lit "submissionId" := JStr (lit "SUB_" ++ string_of_Z (Date_now h))]>
                 (<[lit "timestamp" := default JUndefined (data !! lit "timestamp")]>
                 (<[lit "message" := JStr (lit "Data submitted successfully")]> ∅)))]>
        ∅)).

Definition submitData (h : host) (data : gmap jsstring jsval)
  : act SmartFormApp jsval :=
  try_catch
    (let req := submit_request data in
     emit (Fetch req) >>
     let* response :=
       complete (match network h req with
                 | Resolved r => Normal r
                 | Rejected message => Throw message
                 end) in
     if negb (ok response)
     then throw (lit "HTTP error! status: " ++ string_of_Z (status response))
     else complete (json response))
    (fun error =>
       (* For development, simulate a successful response *)
       emit (ConsoleLog (lit "Simulating successful submission...")) >>
       ret (simulated_response h data)).

(** *** [handleFormSubmit] *)

(** [a || b] on strings. *)
Definition or_string (a b : jsstring) : jsstring :=
  if truthy_string a then a else b.

(** What [handleFormSubmit] does with the response of [submitData]: the
    [if (response.success) ... else throw ...] of its [try] block. *)
Definition report_response (h : host) (response : jsval) : act SmartFormApp unit :=
  let* success := complete (get h response (lit "success")) in
  if truthy success
  then
    let* data := complete (get h response (lit "data")) in
    showSuccess h data
  else
    let* message := complete (get h response (lit "message")) in
    let* text :=
      complete (to_string h Error_argument
                  (if truthy message then message
                   else JStr (lit "Submission failed"))) in
    throw text.

(** The [catch] block of [handleFormSubmit]. *)
Definition report_error (error_message : jsstring) : act SmartFormApp unit :=
  emit (ConsoleError (lit "Submission error:") error_message) >>
  showError (or_string error_message (lit "An error occurred during submission")).

(** The [try] statement of [handleFormSubmit], with its [catch] and its
    [finally]. *)
Definition handleFormSubmit_try (h : host) : act SmartFormApp unit :=
  try_finally
    (try_catch
       (showLoading true >>
        let* formData := getFormData h in
        let* response := submitData h formData in
        report_response h response)
       report_error)
    (showLoading false).

Definition handleFormSubmit (h : host) : act SmartFormApp unit :=
  emit PreventDefault >>
  let* valid := checkFormValidity in
  if negb valid
  then showError (lit "Please complete all required fields and capture a photo")
  else handleFormSubmit_try h.

(** ** The capture controller, [CameraApp] *)

(** A stream of the camera and its tracks ([stream.getTracks()]). *)
Record MediaStream : Type := {
  stream_id : nat;
  tracks : list nat
}.

(** Which of the three buttons are hidden. *)
Record controls : Type := {
  startCameraBtn_hidden : bool;
  capturePhotoBtn_hidden : bool;
  retakePhotoBtn_hidden : bool
}.

Record CameraApp : Type := {
  stream : option MediaStream;            (* this.stream *)
  isCaptured : bool;                      (* this.isCaptured *)
  video_srcObject : option MediaStream;
  video_onloadedmetadata : bool;          (* the handler of startCamera is installed *)
  video_hidden : bool;
  capturedImage_src : option jsstring;
  capturedImage_hidden : bool;
  buttons : controls;
  startCameraBtn_disabled : bool;
  cameraStatus : jsstring * jsstring      (* textContent, and the type it was set with *)
}.

(** The three states of the capture flow, read off the two instance
    variables: no stream is held in [Idle]; a stream is held in [Active]
    and in [Captured], and [isCaptured] tells them apart. *)
Inductive CaptureState : Type := Idle | Active | Captured.

Definition captureState (this : CameraApp) : option CaptureState :=
  match stream this, isCaptured this with
  | None, false => Some Idle
  | Some _, false => Some Active
  | Some _, true => Some Captured
  | None, true => None
  end.

Definition set_stream (s : option MediaStream) (this : CameraApp) : CameraApp :=
  {| stream := s; isCaptured := isCaptured this;
     video_srcObject := video_srcObject this;
     video_onloadedmetadata := video_onloadedmetadata this;
     video_hidden := video_hidden this;
     capturedImage_src := capturedImage_src this;
     capturedImage_hidden := capturedImage_hidden this;
     buttons := buttons this;
     startCameraBtn_disabled := startCameraBtn_disabled this;
     cameraStatus := cameraStatus this |}.

Definition set_isCaptured (b : bool) (this : CameraApp) : CameraApp :=
  {| stream := stream this; isCaptured := b;
     video_srcObject := video_srcObject this;
     video_onloadedmetadata := video_onloadedmetadata this;
     video_hidden := video_hidden this;
     capturedImage_src := capturedImage_src this;
     capturedImage_hidden := capturedImage_hidden this;
     buttons := buttons this;
     startCameraBtn_disabled := startCameraBtn_disabled this;
     cameraStatus := cameraStatus this |}.

(** [this.video.srcObject = s], and whether [onloadedmetadata] is set. *)
Definition set_video (s : option MediaStream) (handler : bool) (this : CameraApp)
  : CameraApp :=
  {| stream := stream this; isCaptured := isCaptured this;
     video_srcObject := s;
     video_onloadedmetadata := handler;
     video_hidden := video_hidden this;
     capturedImage_src := capturedImage_src this;
     capturedImage_hidden := capturedImage_hidden this;
     buttons := buttons this;
     startCameraBtn_disabled := startCameraBtn_disabled this;
     cameraStatus := cameraStatus this |}.

(** The [hidden] class of the video and of the captured image. *)
Definition set_hidden (video image : bool) (this : CameraApp) : CameraApp :=
  {| stream := stream this; isCaptured := isCaptured this;
     video_srcObject := video_srcObject this;
     video_onloadedmetadata := video_onloadedmetadata this;
     video_hidden := video;
     capturedImage_src := capturedImage_src this;
     capturedImage_hidden := image;
     buttons := buttons this;
     startCameraBtn_disabled := startCameraBtn_disabled this;
     cameraStatus := cameraStatus this |}.

Definition set_capturedImage_src (d : option jsstring) (this : CameraApp)
  : CameraApp :=
  {| stream := stream this; isCaptured := isCaptured this;
     video_srcObject := video_srcObject this;
     video_onloadedmetadata := video_onloadedmetadata this;
     video_hidden := video_hidden this;
     capturedImage_src := d;
     capturedImage_hidden := capturedImage_hidden this;
     buttons := buttons this;
     startCameraBtn_disabled := startCameraBtn_disabled this;
     cameraStatus := cameraStatus this |}.

Definition set_buttons (c : controls) (this : CameraApp) : CameraApp :=
  {| stream := stream this; isCaptured := isCaptured this;
     video_srcObject := video_srcObject this;
     video_onloadedmetadata := video_onloadedmetadata this;
     video_hidden := video_hidden this;
     capturedImage_src := capturedImage_src this;
     capturedImage_hidden := capturedImage_hidden this;
     buttons := c;
     startCameraBtn_disabled := startCameraBtn_disabled this;
     cameraStatus := cameraStatus this |}.

Definition set_startCameraBtn_disabled (b : bool) (this : CameraApp) : CameraApp :=
  {| stream := stream this; isCaptured := isCaptured this;
     video_srcObject := video_srcObject this;
     video_onloadedmetadata := video_onloadedmetadata this;
     video_hidden := video_hidden this;
     capturedImage_src := capturedImage_src this;
     capturedImage_hidden := capturedImage_hidden this;
     buttons := buttons this;
     startCameraBtn_disabled := b;
     cameraStatus := cameraStatus this |}.

Definition set_cameraStatus (s : jsstring * jsstring) (this : CameraApp) : CameraApp :=
  {| stream := stream this; isCaptured := isCaptured this;
     video_srcObject := video_srcObject this;
     video_onloadedmetadata := video_onloadedmetadata this;
     video_hidden := video_hidden this;
     capturedImage_src := capturedImage_src this;
     capturedImage_hidden := capturedImage_hidden this;
     buttons := buttons this;
     startCameraBtn_disabled := startCameraBtn_disabled this;
     cameraStatus := s |}.

(** *** The methods that stay inside the camera *)

Definition updateStatus (message type : jsstring) : act CameraApp unit :=
  modify (set_cameraStatus (message, type)).

Definition showStartControls : act CameraApp unit :=
  modify (set_buttons {| startCameraBtn_hidden := false;
                         capturePhotoBtn_hidden := true;
                         retakePhotoBtn_hidden := true |}).

Definition showCaptureControls : act CameraApp unit :=
  modify (set_buttons {| startCameraBtn_hidden := true;
                         capturePhotoBtn_hidden := false;
                         retakePhotoBtn_hidden := true |}).

Definition showRetakeControls : act CameraApp unit :=
  modify (set_buttons {| startCameraBtn_hidden := true;
                         capturePhotoBtn_hidden := true;
                         retakePhotoBtn_hidden := false |}).

(** [checkCameraSupport()], [supported] telling whether
    [navigator.mediaDevices.getUserMedia] exists. *)
Definition checkCameraSupport (supported : bool) : act CameraApp bool :=
  if negb supported
  then
    updateStatus (lit "Camera not supported in this browser") (lit "error") >>
    modify (set_startCameraBtn_disabled true) >>
    ret false
  else ret true.

(** What [getUserMedia] answers: a stream, or a rejection with the name of
    its error. *)
Inductive getUserMedia_outcome : Type :=
| Granted (s : MediaStream)
| Refused (name : jsstring).

Definition startCamera (o : getUserMedia_outcome) : act CameraApp unit :=
  updateStatus (lit "Requesting camera access...") (lit "info") >>
  emit GetUserMedia >>
  match o with
  | Granted s =>
      modify (set_stream (Some s)) >>
      modify (set_video (Some s) true)
  | Refused name =>
      emit (ConsoleError (lit "Camera access error:") name) >>
      let errorMessage := lit "Failed to access camera" in
      let errorMessage :=
        if bool_decide (name = lit "NotAllowedError")
        then lit "Camera access denied. Please allow camera access and try again."
        else if bool_decide (name = lit "NotFoundError")
        then lit "No camera found on this device."
        else if bool_decide (name = lit "NotReadableError")
        then lit "Camera is already in use by another application."
        else errorMessage in
      updateStatus errorMessage (lit "error")
  end.

(** The handler that [startCamera] installs on the video. *)
Definition onloadedmetadata : act CameraApp unit :=
  updateStatus (lit "Camera ready - Position yourself and click Capture Photo")
               (lit "info") >>
  showCaptureControls.

(** [stream.getTracks().forEach(track => track.stop())] *)
Definition stop_tracks (s : MediaStream) : act CameraApp unit :=
  fold_left (fun m track => m >> emit (TrackStop (stream_id s) track))
            (tracks s) (ret tt).

Definition resetCamera : act CameraApp unit :=
  let* this := gets id in
  (* Stop camera stream *)
  (match stream this with
   | Some s => stop_tracks s >> modify (set_stream None)
   | None => ret tt
   end) >>
  (* Reset UI *)
  modify (set_hidden false true) >>
  modify (set_isCaptured false) >>
  showStartControls >>
  updateStatus (lit "Click " ++ [34] ++ lit "Start Camera" ++ [34] ++ lit " to begin")
               (lit "info") >>
  (* Clear video source *)
  modify (fun this => set_video None (video_onloadedmetadata this) this).

(** Cleanup method *)
Definition destroy : act CameraApp unit := resetCamera.

(** ** The page: both controllers *)

(** [window.smartFormApp] and [window.cameraApp]; either is absent when its
    script did not run. *)
Record page : Type := {
  smartFormApp : option SmartFormApp;
  cameraApp : option CameraApp
}.

(** Run a method on [window.smartFormApp], if there is one:
    [if (window.smartFormApp) { window.smartFormApp.m() }]. *)
Definition on_smartFormApp (m : act SmartFormApp unit) : act page unit :=
  fun w =>
    match smartFormApp w with
    | Some this =>
        let '(this', e, r) := m this in
        ({| smartFormApp := Some this'; cameraApp := cameraApp w |}, e, r)
    | None => (w, [], Normal tt)
    end.

Definition on_cameraApp (m : act CameraApp unit) : act page unit :=
  fun w =>
    match cameraApp w with
    | Some this =>
        let '(this', e, r) := m this in
        ({| smartFormApp := smartFormApp w; cameraApp := Some this' |}, e, r)
    | None => (w, [], Normal tt)
    end.

(** [capturePhoto()]. [frame] is what drawing the video on the canvas and
    [canvas.toDataURL('image/jpeg', 0.8)] complete with. *)
Definition capturePhoto (frame : completion jsstring) : act page unit :=
  try_catch
    (let* imageData := complete frame in
     (* Show captured image *)
     on_cameraApp
       (modify (set_capturedImage_src (Some imageData)) >>
        modify (fun this => set_hidden true false this) >>
        (* Update UI *)
        modify (set_isCaptured true) >>
        showRetakeControls >>
        updateStatus (lit "Photo captured successfully!") (lit "info")) >>
     (* Notify main app *)
     on_smartFormApp
       (emit (ImageCaptured (Some imageData)) >>
        onImageCaptured (Some imageData)))
    (fun error =>
       emit (ConsoleError (lit "Photo capture error:") error) >>
       on_cameraApp (updateStatus (lit "Failed to capture photo") (lit "error"))).

Definition retakePhoto : act page unit :=
  on_cameraApp
    ((* Hide captured image, show video *)
     modify (set_hidden false true) >>
     (* Reset state *)
     modify (set_isCaptured false) >>
     showCaptureControls >>
     updateStatus (lit "Position yourself and click Capture Photo") (lit "info")) >>
  (* Notify main app *)
  on_smartFormApp (emit (ImageCaptured None) >> onImageCaptured None).

(** [handleFormReset()]. [form.reset()] gives every control its default
    value; the [error] class and the text of the error elements are
    cleared; the camera is reset when there is one. *)
Definition handleFormReset : act page unit :=
  on_smartFormApp
    (modify (fun this => set_form (map (fun f => set_value (defaultValue f) f) (form this)) this) >>
     modify (set_capturedImageData None) >>
     (* Clear all error states *)
     modify (fun this => set_form (map (set_error false) (form this)) this) >>
     modify (fun this => set_errorElements ((fun _ => []) <$> errorElements this) this) >>
     (* Reset submit button *)
     modify (set_submitBtn_disabled true)) >>
  (* Reset camera if camera module is available *)
  on_cameraApp resetCamera.

Definition handleNewSubmission : act page unit :=
  handleFormReset >>
  on_smartFormApp closeModal.

(** *** Events and their listeners *)

Inductive event : Type :=
| Input (i : nat) (v : jsstring)     (* the user changes control [i] to [v] *)
| Blur (i : nat)                     (* control [i] loses the focus *)
| Submit (h : host)                  (* the form is submitted *)
| ClickReset
| ClickNewSubmission
| ClickCloseModal
| ClickStartCamera (o : getUserMedia_outcome)
| LoadedMetadata                     (* the video has its metadata *)
| ClickCapturePhoto (frame : completion jsstring)
| ClickRetakePhoto
| BeforeUnload.

(** The listeners that [setupFormValidation] puts on the required
    controls. *)
Definition blur_listener (i : nat) : act SmartFormApp unit :=
  let* _ := validateField i in ret tt.

Definition input_listener (i : nat) : act SmartFormApp unit :=
  let* field := gets (fun this => form this !! i) in
  (if match field with Some f => error f | None => false end
   then let* _ := validateField i in ret tt
   else ret tt) >>
  let* _ := checkFormValidity in ret tt.

(** Is control [i] one of [querySelectorAll('[required]')]? *)
Definition is_required (i : nat) (this : SmartFormApp) : bool :=
  match form this !! i with
  | Some f => required f
  | None => false
  end.

(** The page reacts to an event: the browser changes the value on input,
    then the listener of the event runs, if any. *)
Definition listener (ev : event) : act page unit :=
  match ev with
  | Input i v =>
      on_smartFormApp
        (modify (fun this => set_form (alter (set_value v) i (form this)) this) >>
         let* req := gets (is_required i) in
         if req then input_listener i else ret tt)
  | Blur i =>
      on_smartFormApp
        (let* req := gets (is_required i) in
         if req then blur_listener i else ret tt)
  | Submit h => on_smartFormApp (handleFormSubmit h)
  | ClickReset => handleFormReset
  | ClickNewSubmission => handleNewSubmission
  | ClickCloseModal => on_smartFormApp closeModal
  | ClickStartCamera o => on_cameraApp (startCamera o)
  | LoadedMetadata =>
      on_cameraApp
        (let* this := gets id in
         if video_onloadedmetadata this && bool_decide (is_Some (video_srcObject this))
         then onloadedmetadata else ret tt)
  | ClickCapturePhoto frame => capturePhoto frame
  | ClickRetakePhoto => retakePhoto
  | BeforeUnload => on_cameraApp destroy
  end.

(** A run of the page: the state after the events, and all effects. *)
Fixpoint run (evs : list event) (w : page) : page * list effect :=
  match evs with
  | [] => (w, [])
  | ev :: evs' =>
      let '(w1, e1, _) := listener ev w in
      let '(w2, e2) := run evs' w1 in
      (w2, e1 ++ e2)
  end.

(** *** Loading the page *)

(** A control as the markup declares it. *)
Record control : Type := {
  control_name : jsstring;
  control_type : jsstring;
  control_required : bool;
  control_value : jsstring
}.

(** What the class needs of the document; the markup is not part of the
    two scripts. *)
Record document : Type := {
  dataForm : list control;
  error_elements : gmap jsstring jsstring;
  submitForm_disabled : bool;
  loadingOverlay_is_hidden : bool;
  successModal_is_hidden : bool;
  videoElement_is_hidden : bool;
  capturedImage_is_hidden : bool;
  camera_buttons : controls;
  startCamera_disabled : bool;
  cameraStatus_text : jsstring;
  getUserMedia_supported : bool
}.

(** A control when the page has loaded: no script has touched its classes. *)
Definition load_control (c : control) : field :=
  {| name := control_name c; type := control_type c;
     required := control_required c;
     defaultValue := control_value c; value := control_value c;
     error := false |}.

(** [new SmartFormApp()] *)
Definition new_SmartFormApp (d : document) : SmartFormApp :=
  {| form := map load_control (dataForm d);
     errorElements := error_elements d;
     submitBtn_disabled := submitForm_disabled d;
     loadingOverlay_hidden := loadingOverlay_is_hidden d;
     successModal_hidden := successModal_is_hidden d;
     capturedImageData := None |}.

(** [new CameraApp()]: the constructor and [init()]. *)
Definition new_CameraApp (d : document) : CameraApp :=
  let this :=
    {| stream := None; isCaptured := false;
       video_srcObject := None; video_onloadedmetadata := false;
       video_hidden := videoElement_is_hidden d;
       capturedImage_src := None;
       capturedImage_hidden := capturedImage_is_hidden d;
       buttons := camera_buttons d;
       startCameraBtn_disabled := startCamera_disabled d;
       cameraStatus := (cameraStatus_text d, lit "info") |} in
  state_of (checkCameraSupport (getUserMedia_supported d) this).

(** The page after [DOMContentLoaded]. *)
Definition DOMContentLoaded (d : document) : page :=
  {| smartFormApp := Some (new_SmartFormApp d);
     cameraApp := Some (new_CameraApp d) |}.

(** The pages that events can lead to. *)
Definition reachable (d : document) (w : page) : Prop :=
  exists evs, fst (run evs (DOMContentLoaded d)) = w.

(** ** The wording of the specification *)

(** A character that is neither white space nor [@]. *)
Definition plain_char (c : N) : Prop := is_space c = false /\ c <> N_of_ascii "@"%char.

(** The shape [local@domain.tld] of the specification: one or more plain
    characters, [@], one or more plain characters, a dot, one or more plain
    characters. *)
Definition email_shape (s : jsstring) : Prop :=
  exists local domain tld : jsstring,
    s = local ++ [N_of_ascii "@"%char] ++ domain ++ [N_of_ascii "."%char] ++ tld
    /\ local <> [] /\ domain <> [] /\ tld <> []
    /\ Forall plain_char local /\ Forall plain_char domain /\ Forall plain_char tld.

(** A field is valid under the validation rules when the checks of
    [validateField] leave [isValid] true. *)
Definition valid_field (f : field) : Prop := fst (validateField_checks f) = true.

(** What [checkFormValidity] looks at instead: the value is not blank and
    the control does not carry the [error] class. *)
Definition clean_field (f : field) : Prop :=
  trim (value f) <> [] /\ error f = false.

(** An image artifact is present. *)
Definition image_present (this : SmartFormApp) : Prop :=
  truthy_image (capturedImageData this) = true.

(** The characters that the specification permits in a phone number, as it
    words them: digits, spaces, hyphens, parentheses and plus signs. *)
Definition worded_phone_char (c : N) : Prop :=
  is_digit c = true \/ c = N_of_ascii " "%char \/ c = N_of_ascii "-"%char
  \/ c = N_of_ascii "("%char \/ c = N_of_ascii ")"%char
  \/ c = N_of_ascii "+"%char.

(** The same with every white-space character in the place of the space. *)
Definition permitted_phone_char (c : N) : Prop :=
  is_digit c = true \/ is_space c = true \/ c = N_of_ascii "-"%char
  \/ c = N_of_ascii "("%char \/ c = N_of_ascii ")"%char
  \/ c = N_of_ascii "+"%char.

(** At least ten digits remain when the non-digits are stripped. *)
Definition ten_digits (s : jsstring) : Prop :=
  (10 <= length (List.filter is_digit s))%nat.

(** Validation marks the control at position [i] valid: [validateField]
    returns [true] and the control is left without the [error] class. *)
Definition marks_valid (i : nat) (this : SmartFormApp) : Prop :=
  let r := validateField i this in
  completion_of r = Normal true
  /\ error <$> form (state_of r) !! i = Some false.

(** Validation marks the control at position [i] invalid with a message:
    [validateField] returns [false], the control carries the [error] class
    and its error element, if the document has one, shows the message. *)
Definition marks_invalid (i : nat) (message : jsstring) (this : SmartFormApp)
  : Prop :=
  let r := validateField i this in
  completion_of r = Normal false
  /\ error <$> form (state_of r) !! i = Some true
  /\ forall f, form this !! i = Some f ->
       is_Some (errorElements this !! errorElement_id f) ->
       errorElements (state_of r) !! errorElement_id f = Some message.

(** Two states of the form controller that differ at most in what is on
    show (the loading overlay, the success modal). *)
Definition same_form (this this' : SmartFormApp) : Prop :=
  form this' = form this
  /\ errorElements this' = errorElements this
  /\ submitBtn_disabled this' = submitBtn_disabled this
  /\ capturedImageData this' = capturedImageData this.

(** A method that leaves the controls, the error elements, the submit
    button and the image alone. *)
Definition preserves {A} (m : act SmartFormApp A) : Prop :=
  forall this, same_form this (state_of (m this)).

(** The [error] class tells the truth: a control that carries it is a
    required control whose value fails the checks of [validateField]. *)
Definition truthful_marks (this : SmartFormApp) : Prop :=
  Forall (fun f => error f = true -> required f = true /\ ~ valid_field f)
         (form this).

(** The submit button is enabled whenever [checkFormValidity] would enable
    it. *)
Definition enabled_when_clean (this : SmartFormApp) : Prop :=
  Forall clean_field (requiredFields this) -> image_present this ->
  submitBtn_disabled this = false.

Definition form_invariant (w : page) : Prop :=
  forall this, smartFormApp w = Some this ->
    truthful_marks this /\ enabled_when_clean this.

(** The calls of [track.stop()] that release the stream a camera holds:
    one for each of its tracks. *)
Definition released (this : CameraApp) : list effect :=
  match stream this with
  | Some s => map (TrackStop (stream_id s)) (tracks s)
  | None => []
  end.

(** The requests among the effects. *)
Definition is_fetch (e : effect) : bool :=
  match e with
  | Fetch _ => true
  | _ => false
  end.

(** The record that a submission of the form sends: what [getFormData]
    returns. *)
Definition submitted (h : host) (this : SmartFormApp) : gmap jsstring jsval :=
  match completion_of (getFormData h this) with
  | Normal data => data
  | Throw _ => ∅
  end.

(** The endpoint answered the request with a 2xx status and a body that
    parsed to [v]. *)
Definition answered (h : host) (req : request) (v : jsval) : Prop :=
  exists r, network h req = Resolved r /\ ok r = true /\ json r = Normal v.

(** The remote call failed: [fetch] rejected, or the status is not 2xx, or
    the body did not parse. *)
Definition failed (h : host) (req : request) : Prop :=
  (exists m, network h req = Rejected m)
  \/ (exists r, network h req = Resolved r /\ ok r = false)
  \/ (exists r m, network h req = Resolved r /\ ok r = true /\ json r = Throw m).

(** The message of the error that the refusal of the endpoint ends in:
    the text of [response.message || 'Submission failed'], or the text of
    the [TypeError] when that value has no primitive. *)
Definition refusal_text (h : host) (v : jsval) : jsstring :=
  let message := field_of v (lit "message") in
  match to_string h Error_argument
          (if truthy message then message else JStr (lit "Submission failed"))
  with
  | Normal text => text
  | Throw text => text
  end.

(** The details of a success cannot be shown: [data] is missing, or its
    [submissionId] or its [timestamp] has no primitive value. *)
Definition unshowable (data : jsval) : Prop :=
  nullish data = true
  \/ convertible (field_of data (lit "submissionId")) = false
  \/ convertible (field_of data (lit "timestamp")) = false.

(** The message of the [TypeError] that [showSuccess(data)] then ends in. *)
Definition details_error (h : host) (data : jsval) : option jsstring :=
  let submissionId := field_of data (lit "submissionId") in
  let timestamp := field_of data (lit "timestamp") in
  if nullish data
  then Some (TypeError_message h (Reading data (lit "submissionId")))
  else if negb (convertible submissionId)
  then Some (TypeError_message h (Converting Template_submissionId submissionId))
  else if negb (convertible timestamp)
  then Some (TypeError_message h (Converting Date_argument timestamp))
  else None.

(** The events whose listener ends with a pass of [checkFormValidity]: an
    input on a required control, a submission, and the two notifications
    of the camera. *)
Definition recomputes (ev : event) (this : SmartFormApp) : Prop :=
  match ev with
  | Input i _ => is_required i this = true
  | Submit _ => True
  | ClickCapturePhoto (Normal _) => True
  | ClickRetakePhoto => True
  | _ => False
  end.

(** The submit button is enabled exactly when every required control is
    clean and an image is present. *)
Definition button_tracks_clean (this : SmartFormApp) : Prop :=
  submitBtn_disabled this = false
  <-> Forall clean_field (requiredFields this) /\ image_present this.

(** The submit button is enabled only with a photo and with every required
    control filled in. *)
Definition enabled_sound (this : SmartFormApp) : Prop :=
  submitBtn_disabled this = false ->
  image_present this
  /\ Forall (fun f => trim (value f) <> []) (requiredFields this).

(** A method of the page that keeps a property of the page. *)
Definition keeps (P : page -> Prop) {A} (m : act page A) : Prop :=
  forall w, P w -> P (state_of (m w)).

(** The page has no form controller. *)
Definition form_absent (w : page) : Prop := smartFormApp w = None.

(** The start button of the camera, if there is one, is disabled. *)
Definition start_disabled (w : page) : Prop :=
  forall cam, cameraApp w = Some cam -> startCameraBtn_disabled cam = true.

(** The capture state of the camera of the page. *)
Definition page_captureState (w : page) : option CaptureState :=
  cameraApp w ≫= captureState.

(** The calls of [track.stop()] and the calls of the callback among the
    effects. *)
Definition is_track_stop (e : effect) : bool :=
  match e with
  | TrackStop _ _ => true
  | _ => false
  end.

Definition is_notification (e : effect) : bool :=
  match e with
  | ImageCaptured _ => true
  | _ => false
  end.

(** What [form.reset()] and the clearing of the error states make of a
    control. *)
Definition reset_field (f : field) : field :=
  set_error false (set_value (defaultValue f) f).

(** ** Small pages to try the methods on *)

(** A control with an empty default value and no [error] class. *)
Definition a_field (n t : string) (req : bool) (v : jsstring) : field :=
  {| name := lit n; type := lit t; required := req;
     defaultValue := []; value := v; error := false |}.

(** A form controller over some controls, each with an empty error
    element, the submit button disabled and nothing on show. *)
Definition an_app (l : list field) (image : option jsstring) : SmartFormApp :=
  {| form := l;
     errorElements := list_to_map (map (fun f => (errorElement_id f, [])) l);
     submitBtn_disabled := true;
     loadingOverlay_hidden := true;
     successModal_hidden := true;
     capturedImageData := image |}.

(** A host whose clock reads the first instant of 2024, whose network
    answers every request with [o] and whose engine words its errors as V8
    does. (No example holds a number beyond 2^53.) *)
Definition a_host (o : fetch_outcome) : host :=
  {| toISOString_now := lit "2024-01-01T00:00:00.000Z";
     Date_now := 1704067200000;
     network := fun _ => o;
     Number_toString := fun _ => lit "1e+21";
     TypeError_message := fun e =>
       match e with
       | Reading _ _ => lit "Cannot read properties of undefined"
       | Converting _ _ => lit "Cannot convert object to primitive value"
       end |}.

(** A document whose form has one required email control. *)
Definition a_document : document :=
  {| dataForm := [{| control_name := lit "email"; control_type := lit "email";
                     control_required := true; control_value := [] |}];
     error_elements := {[ lit "emailError" := [] ]};
     submitForm_disabled := true;
     loadingOverlay_is_hidden := true;
     successModal_is_hidden := true;
     videoElement_is_hidden := false;
     capturedImage_is_hidden := true;
     camera_buttons := {| startCameraBtn_hidden := false;
                          capturePhotoBtn_hidden := true;
                          retakePhotoBtn_hidden := true |};
     startCamera_disabled := false;
     cameraStatus_text := [];
     getUserMedia_supported := true |}.

Definition a_photo : jsstring := lit "data:image/jpeg;base64,/9j/4AAQ".

(** The user types a well-formed address and takes a photo. *)
Definition page_ready : page :=
  fst (run [Input 0 (lit "a@b.co"); ClickCapturePhoto (Normal a_photo)]
           (DOMContentLoaded a_document)).

(** The user types [abc] into the email control, does not leave it, and
    takes a photo. *)
Definition page_typed_abc : page :=
  fst (run [Input 0 (lit "abc"); ClickCapturePhoto (Normal a_photo)]
           (DOMContentLoaded a_document)).

(** A document whose form has, after the email control, a control that is
    named [timestamp]. *)
Definition a_document_with_timestamp : document :=
  {| dataForm := [{| control_name := lit "email"; control_type := lit "email";
                     control_required := true; control_value := lit "a@b.co" |};
                  {| control_name := lit "timestamp"; control_type := lit "text";
                     control_required := false;
                     control_value := lit "yesterday" |}];
     error_elements := {[ lit "emailError" := [] ]};
     submitForm_disabled := true;
     loadingOverlay_is_hidden := true;
     successModal_is_hidden := true;
     videoElement_is_hidden := false;
     capturedImage_is_hidden := true;
     camera_buttons := {| startCameraBtn_hidden := false;
                          capturePhotoBtn_hidden := true;
                          retakePhotoBtn_hidden := true |};
     startCamera_disabled := false;
     cameraStatus_text := [];
     getUserMedia_supported := true |}.

(** The user of that document takes a photo. *)
Definition page_with_timestamp : page :=
  fst (run [ClickCapturePhoto (Normal a_photo)]
           (DOMContentLoaded a_document_with_timestamp)).

(** Three answers of the endpoint: a server error whose body is not JSON,
    a refusal with a message, and a success without its [data]. *)
Definition server_error : fetch_outcome :=
  Resolved {| status := 500; json := Throw (lit "Unexpected token <") |}.

Definition refusal : fetch_outcome :=
  Resolved {| status := 200;
              json := Normal (JObj (<[lit "success" := JBool false]>
                                   (<[lit "message" := JStr (lit "Sheet is full")]>
                                    ∅))) |}.

Definition bare_success : fetch_outcome :=
  Resolved {| status := 200;
              json := Normal (JObj (<[lit "success" := JBool true]> ∅)) |}.

(** Two more: a success whose [submissionId] is an object with a property
    [toString], and a refusal whose message is the empty array. *)
Definition unprintable_id : jsval :=
  JObj (<[lit "toString" := JNum 0]> ∅).

Definition unprintable_body : jsval :=
  JObj (<[lit "success" := JBool true]>
       (<[lit "data" := JObj (<[lit "submissionId" := unprintable_id]> ∅)]> ∅)).

Definition unprintable_success : fetch_outcome :=
  Resolved {| status := 200; json := Normal unprintable_body |}.

Definition empty_refusal : fetch_outcome :=
  Resolved {| status := 200;
              json := Normal (JObj (<[lit "success" := JBool false]>
                                   (<[lit "message" := JArr []]> ∅))) |}.

(** A stream with one video track; the user starts the camera, the video
    loads and a photo is taken. *)
Definition a_stream : MediaStream := {| stream_id := 1; tracks := [7%nat] |}.

Definition page_captured : page :=
  fst (run [ClickStartCamera (Granted a_stream); LoadedMetadata;
            ClickCapturePhoto (Normal a_photo)]
           (DOMContentLoaded a_document)).

(** The user types [abc] into the email control and leaves it. *)
Definition page_blurred_abc : page :=
  fst (run [Input 0 (lit "abc"); Blur 0] (DOMContentLoaded a_document)).

(** A second stream. *)
Definition another_stream : MediaStream := {| stream_id := 2; tracks := [8%nat; 9%nat] |}.

(** A page without a form controller, and a page without a camera. *)
Definition page_without_form : page :=
  {| smartFormApp := None; cameraApp := Some (new_CameraApp a_document) |}.

Definition page_without_camera : page :=
  {| smartFormApp := Some (new_SmartFormApp a_document); cameraApp := None |}.

(** The same document in a browser without [getUserMedia]; the user
    clicks the start button all the same, then resets the form. *)
Definition a_document_unsupported : document :=
  {| dataForm := dataForm a_document;
     error_elements := error_elements a_document;
     submitForm_disabled := true;
     loadingOverlay_is_hidden := true;
     successModal_is_hidden := true;
     videoElement_is_hidden := false;
     capturedImage_is_hidden := true;
     camera_buttons := camera_buttons a_document;
     startCamera_disabled := false;
     cameraStatus_text := [];
     getUserMedia_supported := false |}.

Definition page_unsupported_clicked : page :=
  fst (run [ClickStartCamera (Refused (lit "TypeError")); ClickReset]
           (DOMContentLoaded a_document_unsupported)).

(** The camera of a page that has one. *)
Definition the_camera (w : page) : CameraApp :=
  default (new_CameraApp a_document) (cameraApp w).

(** The form controller of a page that has one. *)
Definition the_form (w : page) : SmartFormApp :=
  default (new_SmartFormApp a_document) (smartFormApp w).

(** * Lemmas *)

(** ** Regular expressions: the matcher decides the language *)

Lemma lang_cat_inv r1 r2 s :
  lang (Cat r1 r2) s -> exists s1 s2, s = s1 ++ s2 /\ lang r1 s1 /\ lang r2 s2.
Proof. inversion 1; subst; eauto. Qed.

Lemma lang_alt_inv r1 r2 s : lang (Alt r1 r2) s -> lang r1 s \/ lang r2 s.
Proof. inversion 1; subst; auto. Qed.

Lemma lang_class_inv p s : lang (Class p) s -> exists c, s = [c] /\ p c = true.
Proof. inversion 1; subst; eauto. Qed.

Lemma lang_eps_inv s : lang Eps s -> s = [].
Proof. by inversion 1. Qed.

Lemma lang_void_inv s : ~ lang Void s.
Proof. inversion 1. Qed.

(** A non-empty word of a star starts with a non-empty word of its body. *)
Lemma lang_star_cons_inv r c s :
  lang (Star r) (c :: s) ->
  exists s1 s2, s = s1 ++ s2 /\ lang r (c :: s1) /\ lang (Star r) s2.
Proof.
  intros H. remember (Star r) as r' eqn:Er. remember (c :: s) as w eqn:Ew.
  revert c s Ew. induction H; intros c' s' Ew; try discriminate.
  injection Er as ->.
  destruct s1 as [|x s1].
  - simpl in Ew. apply IHlang2; auto.
  - simpl in Ew. injection Ew as -> <-. eauto.
Qed.

Lemma nullable_lang r : nullable r = true <-> lang r [].
Proof.
  induction r; simpl.
  - split; [discriminate | intros H; destruct (lang_void_inv _ H)].
  - split; [constructor | reflexivity].
  - split; [discriminate |].
    intros H. apply lang_class_inv in H as (c & E & _). discriminate.
  - rewrite andb_true_iff, IHr1, IHr2. split.
    + intros [H1 H2]. change (@nil N) with (@nil N ++ []). by constructor.
    + intros H. apply lang_cat_inv in H as (s1 & s2 & E & H1 & H2).
      symmetry in E. apply app_eq_nil in E as [-> ->]. auto.
  - rewrite orb_true_iff, IHr1, IHr2. split.
    + intros [H | H]; [by apply lang_alt_l | by apply lang_alt_r].
    + apply lang_alt_inv.
  - split; [constructor | reflexivity].
Qed.

Lemma deriv_lang c r : forall s, lang (deriv c r) s <-> lang r (c :: s).
Proof.
  induction r; intros s; simpl.
  - split; intros H; destruct (lang_void_inv _ H).
  - split; intros H; [destruct (lang_void_inv _ H) | by apply lang_eps_inv in H].
  - destruct (p c) eqn:Ep; split; intros H.
    + apply lang_eps_inv in H as ->. by constructor.
    + apply lang_class_inv in H as (x & E & _). injection E as _ ->. constructor.
    + destruct (lang_void_inv _ H).
    + apply lang_class_inv in H as (x & E & Hx). injection E as <- _. congruence.
  - assert (Hcat : forall s, lang (Cat (deriv c r1) r2) s <->
                        exists s1 s2, s = s1 ++ s2 /\ lang r1 (c :: s1) /\ lang r2 s2).
    { intros w. split.
      - intros H. apply lang_cat_inv in H as (s1 & s2 & E & H1 & H2).
        exists s1, s2. rewrite <- IHr1. auto.
      - intros (s1 & s2 & -> & H1 & H2). constructor; [by apply IHr1 | done]. }
    destruct (nullable r1) eqn:En.
    + split.
      * intros H. apply lang_alt_inv in H as [H | H].
        -- apply Hcat in H as (s1 & s2 & -> & H1 & H2).
           change (c :: s1 ++ s2) with ((c :: s1) ++ s2). by constructor.
        -- change (c :: s) with ([] ++ c :: s).
           constructor; [by apply nullable_lang | by apply IHr2].
      * intros H. apply lang_cat_inv in H as (s1 & s2 & E & H1 & H2).
        destruct s1 as [|x s1]; simpl in E.
        -- subst s2. apply lang_alt_r. by apply IHr2.
        -- injection E as <- ->. apply lang_alt_l, Hcat. eauto.
    + rewrite Hcat. split.
      * intros (s1 & s2 & -> & H1 & H2).
        change (c :: s1 ++ s2) with ((c :: s1) ++ s2). by constructor.
      * intros H. apply lang_cat_inv in H as (s1 & s2 & E & H1 & H2).
        destruct s1 as [|x s1]; simpl in E.
        -- apply nullable_lang in H1. congruence.
        -- injection E as <- ->. eauto.
  - split; intros H.
    + apply lang_alt_inv in H as [H | H];
        [apply lang_alt_l, IHr1 | apply lang_alt_r, IHr2]; done.
    + apply lang_alt_inv in H as [H | H];
        [apply lang_alt_l, IHr1 | apply lang_alt_r, IHr2]; done.
  - split; intros H.
    + apply lang_cat_inv in H as (s1 & s2 & -> & H1 & H2).
      change (c :: s1 ++ s2) with ((c :: s1) ++ s2).
      constructor; [by apply IHr | done].
    + apply lang_star_cons_inv in H as (s1 & s2 & -> & H1 & H2).
      constructor; [by apply IHr | done].
Qed.

Lemma matches_lang r s : matches r s = true <-> lang r s.
Proof.
  revert r. induction s as [|c s IH]; intros r; simpl.
  - apply nullable_lang.
  - rewrite IH. apply deriv_lang.
Qed.

Lemma lang_star_class p s :
  lang (Star (Class p)) s <-> Forall (fun c => p c = true) s.
Proof.
  induction s as [|c s IH].
  - split; constructor.
  - split; intros H.
    + apply lang_star_cons_inv in H as (s1 & s2 & -> & H1 & H2).
      apply lang_class_inv in H1 as (x & E & Hx). injection E as <- ->.
      constructor; [done | by apply IH].
    + inversion H as [|? ? Hc Hs]; subst.
      change (c :: s) with ([c] ++ s).
      constructor; [by constructor | by apply IH].
Qed.

Lemma lang_plus_class p s :
  lang (Plus (Class p)) s <-> s <> [] /\ Forall (fun c => p c = true) s.
Proof.
  unfold Plus. split.
  - intros H. apply lang_cat_inv in H as (s1 & s2 & -> & H1 & H2).
    apply lang_class_inv in H1 as (x & -> & Hx).
    split; [done |]. constructor; [done | by apply lang_star_class].
  - intros [Hne H]. destruct H as [|c s Hc Hs]; [done |].
    change (c :: s) with ([c] ++ s).
    constructor; [by constructor | by apply lang_star_class].
Qed.

Lemma lang_chr a s : lang (Chr a) s <-> s = [N_of_ascii a].
Proof.
  unfold Chr. split.
  - intros H. apply lang_class_inv in H as (x & -> & Hx).
    apply N.eqb_eq in Hx. by subst.
  - intros ->. constructor. apply N.eqb_refl.
Qed.

Lemma not_space_at_plain c : not_space_at c = true <-> plain_char c.
Proof.
  unfold not_space_at, plain_char.
  rewrite andb_true_iff, !negb_true_iff, N.eqb_neq. tauto.
Qed.

Lemma Forall_plain s :
  Forall (fun c => not_space_at c = true) s <-> Forall plain_char s.
Proof. apply Forall_iff. intros c. apply not_space_at_plain. Qed.

(** The regular expression of the source accepts exactly the shape that the
    specification words. *)
Lemma emailRegex_shape s : test_anchored emailRegex s = true <-> email_shape s.
Proof.
  unfold test_anchored. rewrite matches_lang. unfold emailRegex, email_shape.
  split.
  - intros H.
    apply lang_cat_inv in H as (l & s1 & -> & Hl & H).
    apply lang_cat_inv in H as (at_ & s2 & -> & Hat & H).
    apply lang_cat_inv in H as (d & s3 & -> & Hd & H).
    apply lang_cat_inv in H as (dot & t & -> & Hdot & Ht).
    apply lang_chr in Hat as ->. apply lang_chr in Hdot as ->.
    apply lang_plus_class in Hl as [? Hl], Hd as [? Hd], Ht as [? Ht].
    exists l, d, t. rewrite <- !Forall_plain. auto 10.
  - intros (l & d & t & -> & ? & ? & ? & Hl & Hd & Ht).
    rewrite <- Forall_plain in Hl, Hd, Ht.
    repeat (constructor; [first [by apply lang_plus_class | by apply lang_chr] |]).
    by apply lang_plus_class.
Qed.

(** ** [trim] *)

Lemma trimStart_nil s : trimStart s = [] <-> forallb is_space s = true.
Proof.
  induction s as [|c s IH]; simpl; [done |].
  destruct (is_space c); simpl; [done |]. split; discriminate.
Qed.

Lemma trimStart_head s c t : trimStart s = c :: t -> is_space c = false.
Proof.
  induction s as [|x s IH]; simpl; [discriminate |].
  destruct (is_space x) eqn:Ex; [done |]. intros [= -> _]. done.
Qed.

Lemma forallb_rev_space s : forallb is_space (rev s) = forallb is_space s.
Proof.
  induction s as [|c s IH]; simpl; [done |].
  rewrite forallb_app, IH. simpl. rewrite andb_true_r. apply andb_comm.
Qed.

(** A string is blank (its [trim] is empty, so [!s.trim()] holds) exactly
    when it is empty or made of white space only. *)
Lemma trim_nil s : trim s = [] <-> forallb is_space s = true.
Proof.
  unfold trim, trimEnd. rewrite <- trimStart_nil.
  split.
  - intros H. apply (f_equal (@rev N)) in H. rewrite rev_involutive in H.
    simpl in H. apply trimStart_nil in H. rewrite forallb_rev_space in H.
    destruct (trimStart s) as [|c t] eqn:E; [done |].
    apply trimStart_head in E. simpl in H. by rewrite E in H.
  - by intros ->.
Qed.

Lemma blank_truthy s :
  negb (truthy_string (trim s)) = forallb is_space s.
Proof.
  destruct (forallb is_space s) eqn:E.
  - apply trim_nil in E. by rewrite E.
  - destruct (trim s) eqn:Et; [| done].
    apply trim_nil in Et. congruence.
Qed.

Lemma truthy_string_ne s : truthy_string s = true <-> s <> [].
Proof. by destruct s. Qed.

(** ** [validateField] *)

Lemma alter_error_twice b i (l : list field) :
  alter (set_error b) i (alter (set_error false) i l) = alter (set_error b) i l.
Proof.
  rewrite list_alter_alter_eq. apply list_alter_ext; [| done]. by intros [] _.
Qed.

(** What a call of [validateField] on an existing control does. *)
Lemma validateField_run i this f :
  form this !! i = Some f ->
  let r := validateField i this in
  let v := fst (validateField_checks f) in
  completion_of r = Normal v
  /\ effects_of r = []
  /\ form (state_of r) = alter (set_error (negb v)) i (form this)
  /\ (is_Some (errorElements this !! errorElement_id f) ->
      errorElements (state_of r) !! errorElement_id f
      = Some (if v then [] else snd (validateField_checks f)))
  /\ submitBtn_disabled (state_of r) = submitBtn_disabled this
  /\ capturedImageData (state_of r) = capturedImageData this
  /\ loadingOverlay_hidden (state_of r) = loadingOverlay_hidden this
  /\ successModal_hidden (state_of r) = successModal_hidden this.
Proof.
  intros H. unfold validateField, bind, gets. rewrite H.
  destruct (validateField_checks f) as [v m].
  destruct v; cbn; destruct (errorElements this !! errorElement_id f) eqn:E; cbn;
    rewrite ?lookup_insert_eq; cbn; rewrite ?E; cbn;
    rewrite ?alter_error_twice, ?lookup_insert_eq;
    repeat split; try done; by intros [? ?].
Qed.

Lemma marks_valid_iff i this f :
  form this !! i = Some f ->
  marks_valid i this <-> fst (validateField_checks f) = true.
Proof.
  intros H. unfold marks_valid.
  destruct (validateField_run i this f H) as (Hc & _ & Hf & _).
  cbv zeta in *. rewrite Hc, Hf, list_lookup_alter_eq, H. simpl.
  destruct (fst (validateField_checks f)); simpl; split; try done.
  - by intros [[=] _].
Qed.

Lemma marks_invalid_iff i this f message :
  form this !! i = Some f ->
  fst (validateField_checks f) = false ->
  snd (validateField_checks f) = message ->
  marks_invalid i message this.
Proof.
  intros H Hv Hm. unfold marks_invalid.
  destruct (validateField_run i this f H) as (Hc & _ & Hf & He & _).
  cbv zeta in *. rewrite Hc, Hf, list_lookup_alter_eq, H, Hv. simpl.
  repeat split. intros f' [= <-] Hsome. rewrite (He Hsome), Hv. by rewrite Hm.
Qed.

(** A control is marked valid or invalid, never both. *)
Lemma marks_invalid_not_valid i this message :
  marks_invalid i message this -> ~ marks_valid i this.
Proof. intros [H _] [H' _]. congruence. Qed.

(** *** The three checks, case by case *)

Lemma is_digit_not_space c : is_digit c = true -> is_space c = false.
Proof.
  unfold is_digit, is_space. rewrite andb_true_iff, !N.leb_le. intros [H1 H2].
  repeat match goal with
         | |- context [N.leb ?a ?b] => destruct (N.leb_spec a b); try lia
         | |- context [N.eqb ?a ?b] => destruct (N.eqb_spec a b); try lia
         end.
  all: reflexivity.
Qed.

Lemma blank_no_digits s :
  forallb is_space s = true -> List.filter is_digit s = [].
Proof.
  induction s as [|c s IH]; simpl; [done |].
  rewrite andb_true_iff. intros [Hc Hs].
  destruct (is_digit c) eqn:Ed.
  - apply is_digit_not_space in Ed. congruence.
  - auto.
Qed.

Lemma email_shape_not_blank s : email_shape s -> forallb is_space s = false.
Proof.
  intros (l & d & t & -> & Hl & _ & _ & Fl & _).
  destruct Fl as [|c l [Hc _] _]; [done |]. simpl. by rewrite Hc.
Qed.

Lemma ten_digits_not_blank s : ten_digits s -> forallb is_space s = false.
Proof.
  unfold ten_digits. intros H.
  destruct (forallb is_space s) eqn:E; [| done].
  rewrite (blank_no_digits _ E) in H. simpl in H. lia.
Qed.

Lemma lit_email_tel : lit "email" <> lit "tel".
Proof. discriminate. Qed.

(** An email field with a non-empty value. *)
Lemma checks_email f :
  type f = lit "email" -> value f <> [] ->
  validateField_checks f =
    if test_anchored emailRegex (value f) then (true, [])
    else (false, lit "Please enter a valid email address").
Proof.
  intros Ht Hv. unfold validateField_checks. rewrite Ht, blank_truthy.
  rewrite (bool_decide_eq_true_2 _ eq_refl).
  rewrite (bool_decide_eq_false_2 _ lit_email_tel).
  apply truthy_string_ne in Hv. rewrite Hv. simpl.
  destruct (test_anchored emailRegex (value f)) eqn:E; simpl.
  - apply emailRegex_shape, email_shape_not_blank in E. rewrite E.
    by rewrite andb_false_r.
  - by destruct (required f && forallb is_space (value f)).
Qed.

(** A phone field with a non-empty value. *)
Lemma checks_tel f :
  type f = lit "tel" -> value f <> [] ->
  validateField_checks f =
    if test_anchored phoneRegex (value f)
       && (10 <=? length (replace_nondigits (value f)))%nat
    then (true, [])
    else (false, lit "Please enter a valid phone number").
Proof.
  intros Ht Hv. unfold validateField_checks. rewrite Ht, blank_truthy.
  rewrite (bool_decide_eq_true_2 (lit "tel" = lit "tel") eq_refl).
  rewrite (bool_decide_eq_false_2 (lit "tel" = lit "email")) by discriminate.
  apply truthy_string_ne in Hv. rewrite Hv.
  rewrite Nat.ltb_antisym, <- negb_andb.
  destruct (test_anchored phoneRegex (value f)
            && (10 <=? length (replace_nondigits (value f)))%nat) eqn:E.
  - apply andb_true_iff in E as [_ E]. apply Nat.leb_le in E.
    apply ten_digits_not_blank in E. rewrite E. by rewrite andb_false_r.
  - by destruct (required f && forallb is_space (value f)).
Qed.

(** A field that is neither an email nor a phone field, or whose value is
    empty: only the required check applies. *)
Lemma checks_required_only f :
  value f = [] \/ (type f <> lit "email" /\ type f <> lit "tel") ->
  validateField_checks f =
    if required f && forallb is_space (value f)
    then (false, lit "This field is required") else (true, []).
Proof.
  intros H. unfold validateField_checks. rewrite blank_truthy.
  assert (bool_decide (type f = lit "email") && truthy_string (value f) = false
          /\ bool_decide (type f = lit "tel") && truthy_string (value f) = false)
    as [-> ->].
  { destruct H as [-> | [H1 H2]].
    - by rewrite !andb_false_r.
    - by rewrite !bool_decide_eq_false_2. }
  by destruct (required f && forallb is_space (value f)).
Qed.

Lemma phone_char_permitted c : phone_char c = true <-> permitted_phone_char c.
Proof.
  unfold phone_char, permitted_phone_char.
  rewrite !orb_true_iff, !N.eqb_eq. tauto.
Qed.

Lemma phoneRegex_shape s :
  test_anchored phoneRegex s = true <-> s <> [] /\ Forall permitted_phone_char s.
Proof.
  unfold test_anchored, phoneRegex. rewrite matches_lang, lang_plus_class.
  apply and_iff_compat_l, Forall_iff. intros c. apply phone_char_permitted.
Qed.

(** ** Claims about validation *)

(** C5. For every non-empty value, validation marks an email-typed field
    valid if and only if the value has the shape: one or more characters
    that are neither white space nor [@], then [@], then one or more such
    characters, then a dot, then one or more such characters; otherwise the
    field is marked invalid with the email message. In particular [a@b.co]
    is valid and [a.b.com] is invalid. *)
Theorem C5_email_valid_iff_shape this i f :
  form this !! i = Some f -> type f = lit "email" -> value f <> [] ->
  (marks_valid i this <-> email_shape (value f))
  /\ (~ email_shape (value f) ->
      marks_invalid i (lit "Please enter a valid email address") this)
  /\ (value f = lit "a@b.co" -> marks_valid i this)
  /\ (value f = lit "a.b.com" -> ~ marks_valid i this).
Proof.
  intros Hi Ht Hv.
  pose proof (checks_email f Ht Hv) as Hc.
  pose proof (emailRegex_shape (value f)) as Hs.
  assert (Hiff : marks_valid i this <-> email_shape (value f)).
  { rewrite (marks_valid_iff i this f Hi), Hc, <- Hs.
    by destruct (test_anchored emailRegex (value f)). }
  split; [exact Hiff |]. split; [| split].
  - intros Hn. apply (marks_invalid_iff i this f _ Hi).
    + rewrite Hc. destruct (test_anchored emailRegex (value f)); [| done].
      destruct Hn. by apply Hs.
    + rewrite Hc. destruct (test_anchored emailRegex (value f)); [| done].
      destruct Hn. by apply Hs.
  - intros E. apply Hiff, Hs. by rewrite E.
  - intros E H. apply Hiff, Hs in H. by rewrite E in H.
Qed.

Lemma C5_email_valid_iff_shape_witness :
  marks_valid 0 (an_app [a_field "email" "email" true (lit "a@b.co")] None).
Proof.
  apply (C5_email_valid_iff_shape
           (an_app [a_field "email" "email" true (lit "a@b.co")] None) 0
           (a_field "email" "email" true (lit "a@b.co"))).
  - reflexivity.
  - reflexivity.
  - discriminate.
  - reflexivity.
Defined.

(** C6, as the code has it. For every non-empty value, validation marks a
    phone-typed field valid if and only if the value contains only digits,
    white-space characters (the class [\s]: spaces, but also tabs, line
    breaks, no-break spaces and the like), hyphens, parentheses and plus
    signs, and at least ten digits remain after stripping the non-digits;
    otherwise the field is marked invalid with the phone message.
    [(555) 123-4567] is valid, [12345] and [abc-def-ghij] are invalid. *)
Theorem C6_phone_valid_iff this i f :
  form this !! i = Some f -> type f = lit "tel" -> value f <> [] ->
  (marks_valid i this <->
     Forall permitted_phone_char (value f) /\ ten_digits (value f))
  /\ (~ (Forall permitted_phone_char (value f) /\ ten_digits (value f)) ->
      marks_invalid i (lit "Please enter a valid phone number") this)
  /\ (value f = lit "(555) 123-4567" -> marks_valid i this)
  /\ (value f = lit "12345" -> ~ marks_valid i this)
  /\ (value f = lit "abc-def-ghij" -> ~ marks_valid i this).
Proof.
  intros Hi Ht Hv.
  pose proof (checks_tel f Ht Hv) as Hc.
  assert (Hb : test_anchored phoneRegex (value f)
               && (10 <=? length (replace_nondigits (value f)))%nat = true
               <-> Forall permitted_phone_char (value f) /\ ten_digits (value f)).
  { rewrite andb_true_iff, phoneRegex_shape, Nat.leb_le. unfold ten_digits.
    unfold replace_nondigits. tauto. }
  assert (Hiff : marks_valid i this <->
                 Forall permitted_phone_char (value f) /\ ten_digits (value f)).
  { rewrite (marks_valid_iff i this f Hi), Hc, <- Hb.
    by destruct (test_anchored phoneRegex (value f)
                 && (10 <=? length (replace_nondigits (value f)))%nat). }
  split; [exact Hiff |]. split; [| split; [| split]].
  - intros Hn. apply (marks_invalid_iff i this f _ Hi); rewrite Hc;
      (destruct (test_anchored phoneRegex (value f)
                 && (10 <=? length (replace_nondigits (value f)))%nat);
       [destruct Hn; by apply Hb | done]).
  - intros E. apply Hiff, Hb. by rewrite E.
  - intros E H. apply Hiff, Hb in H. by rewrite E in H.
  - intros E H. apply Hiff, Hb in H. by rewrite E in H.
Qed.

Lemma C6_phone_valid_iff_witness :
  marks_valid 0 (an_app [a_field "phone" "tel" true (lit "(555) 123-4567")] None).
Proof.
  apply (C6_phone_valid_iff
           (an_app [a_field "phone" "tel" true (lit "(555) 123-4567")] None) 0
           (a_field "phone" "tel" true (lit "(555) 123-4567"))).
  - reflexivity.
  - reflexivity.
  - discriminate.
  - reflexivity.
Defined.

(** C6 as the specification words it fails on a value with a tab between
    the groups of digits: the field is marked valid, although a tab is
    none of digit, space, hyphen, parenthesis and plus sign. *)
Lemma C6_tab_counterexample :
  let v := lit "555" ++ [9] ++ lit "123" ++ [9] ++ lit "4567" in
  let this := an_app [a_field "phone" "tel" true v] None in
  ~ (marks_valid 0 this <-> Forall worded_phone_char v /\ ten_digits v).
Proof.
  intros v this [H _].
  assert (Hv : marks_valid 0 this).
  { apply (marks_valid_iff 0 this (a_field "phone" "tel" true v)); reflexivity. }
  apply H in Hv as [Hw _].
  assert (Hin : In 9 v) by (vm_compute; tauto).
  apply (proj1 (List.Forall_forall _ _) Hw) in Hin as [Hd | Hw'].
  { discriminate Hd. }
  clear Hw. rename Hw' into Hw.
  repeat (destruct Hw as [Hw | Hw]; [discriminate Hw |]). discriminate Hw.
Qed.

(** C3, as the code has it. For every required field whose value is empty
    or consists only of white space, validation marks the field invalid.
    The message is "This field is required" when the value is empty or the
    field is neither email- nor phone-typed. When the required check and a
    format check both fail, which is the case of a non-empty white-space
    value in an email- or phone-typed field, the message of the format
    check is the one shown: a later check overwrites the message of an
    earlier one. *)
Theorem C3_blank_required_field this i f :
  form this !! i = Some f -> required f = true ->
  forallb is_space (value f) = true ->
  (value f = [] \/ (type f <> lit "email" /\ type f <> lit "tel") ->
   marks_invalid i (lit "This field is required") this)
  /\ (value f <> [] -> type f = lit "email" ->
      marks_invalid i (lit "Please enter a valid email address") this)
  /\ (value f <> [] -> type f = lit "tel" ->
      marks_invalid i (lit "Please enter a valid phone number") this).
Proof.
  intros Hi Hr Hb. split; [| split].
  - intros H. apply (marks_invalid_iff i this f _ Hi);
      rewrite (checks_required_only f H), Hr, Hb; reflexivity.
  - intros Hv Ht.
    assert (E : test_anchored emailRegex (value f) = false).
    { destruct (test_anchored emailRegex (value f)) eqn:E; [| done].
      apply emailRegex_shape, email_shape_not_blank in E. congruence. }
    apply (marks_invalid_iff i this f _ Hi);
      rewrite (checks_email f Ht Hv), E; reflexivity.
  - intros Hv Ht.
    assert (E : (10 <=? length (replace_nondigits (value f)))%nat = false).
    { unfold replace_nondigits. by rewrite (blank_no_digits _ Hb). }
    apply (marks_invalid_iff i this f _ Hi);
      rewrite (checks_tel f Ht Hv), E, andb_false_r; reflexivity.
Qed.

Lemma C3_blank_required_field_witness :
  marks_invalid 0 (lit "This field is required")
    (an_app [a_field "fullName" "text" true (lit "   ")] None).
Proof.
  apply (C3_blank_required_field
           (an_app [a_field "fullName" "text" true (lit "   ")] None) 0
           (a_field "fullName" "text" true (lit "   "))).
  - reflexivity.
  - reflexivity.
  - reflexivity.
  - right. split; discriminate.
Defined.

(** C3 as the specification words it fails on a required phone field that
    holds one space: the required check and the phone check both fail, and
    the message shown is not "This field is required". *)
Lemma C3_precedence_counterexample :
  let this := an_app [a_field "phone" "tel" true (lit " ")] None in
  forallb is_space (lit " ") = true
  /\ marks_invalid 0 (lit "Please enter a valid phone number") this
  /\ ~ marks_invalid 0 (lit "This field is required") this.
Proof.
  intros this. split; [reflexivity |].
  assert (H : marks_invalid 0 (lit "Please enter a valid phone number") this).
  { apply (marks_invalid_iff 0 this (a_field "phone" "tel" true (lit " ")));
      reflexivity. }
  split; [exact H |].
  intros (_ & _ & H').
  destruct H as (_ & _ & H).
  specialize (H _ eq_refl). specialize (H' _ eq_refl).
  assert (Hs : is_Some (errorElements this !! errorElement_id
                          (a_field "phone" "tel" true (lit " ")))).
  { eexists. vm_compute. reflexivity. }
  rewrite (H Hs) in H'. specialize (H' Hs). discriminate H'.
Qed.

(** ** [checkFormValidity] *)

Lemma fold_allValid (l : list field) (b : bool) :
  fold_left
    (fun allValid field =>
       if negb (truthy_string (trim (value field))) || error field
       then false else allValid) l b
  = b && forallb (fun f => negb (forallb is_space (value f) || error f)) l.
Proof.
  revert b. induction l as [|f l IH]; intros b; simpl.
  - by rewrite andb_true_r.
  - rewrite IH, blank_truthy.
    destruct (forallb is_space (value f) || error f); simpl; [| done].
    by rewrite andb_false_r.
Qed.

Lemma clean_field_bool f :
  negb (forallb is_space (value f) || error f) = true <-> clean_field f.
Proof.
  unfold clean_field. rewrite negb_true_iff, orb_false_iff, trim_nil.
  destruct (forallb is_space (value f)); split; intros [? ?]; split; congruence.
Qed.

(** A pass of [checkFormValidity]: it only writes the submit button. *)
Lemma checkFormValidity_run this :
  exists allValid,
    checkFormValidity this
    = (set_submitBtn_disabled (negb allValid) this, [], Normal allValid)
    /\ (allValid = true <->
        Forall clean_field (requiredFields this) /\ image_present this).
Proof.
  unfold checkFormValidity, bind, gets, modify, ret. cbn.
  rewrite fold_allValid. cbn.
  eexists. split; [reflexivity |].
  unfold image_present.
  destruct (truthy_image (capturedImageData this)); cbn.
  - rewrite forallb_forall, List.Forall_forall.
    split.
    + intros H. split; [| done]. intros f Hf. by apply clean_field_bool, H.
    + intros [H _] f Hf. by apply clean_field_bool, H.
  - split; [done | by intros [_ ?]].
Qed.

(** ** Methods that only change what is on show *)

Lemma same_form_refl this : same_form this this.
Proof. by repeat split. Qed.

Lemma same_form_trans a b c : same_form a b -> same_form b c -> same_form a c.
Proof.
  intros (?&?&?&?) (?&?&?&?). repeat split; congruence.
Qed.

Lemma preserves_ret {A} (a : A) : preserves (ret a).
Proof. intros s. apply same_form_refl. Qed.

Lemma preserves_throw {A} m : preserves (@throw _ A m).
Proof. intros s. apply same_form_refl. Qed.

Lemma preserves_emit e : preserves (emit e).
Proof. intros s. apply same_form_refl. Qed.

Lemma preserves_gets {A} (f : SmartFormApp -> A) : preserves (gets f).
Proof. intros s. apply same_form_refl. Qed.

Lemma preserves_complete {A} (c : completion A) : preserves (complete c).
Proof. intros s. apply same_form_refl. Qed.

Lemma preserves_modify f :
  (forall s, same_form s (f s)) -> preserves (modify f).
Proof. intros H s. apply H. Qed.

Lemma preserves_bind {A B} (m : act SmartFormApp A) (k : A -> act SmartFormApp B) :
  preserves m -> (forall a, preserves (k a)) -> preserves (bind m k).
Proof.
  intros Hm Hk s. unfold bind. specialize (Hm s).
  destruct (m s) as [[s1 e1] [a | msg]]; cbn in *; [| done].
  specialize (Hk a s1). destruct (k a s1) as [[s2 e2] r2]; cbn in *.
  by apply same_form_trans with s1.
Qed.

Lemma preserves_try_catch {A} (m : act SmartFormApp A) handler :
  preserves m -> (forall e, preserves (handler e)) ->
  preserves (try_catch m handler).
Proof.
  intros Hm Hk s. unfold try_catch. specialize (Hm s).
  destruct (m s) as [[s1 e1] [a | msg]]; cbn in *; [done |].
  specialize (Hk msg s1). destruct (handler msg s1) as [[s2 e2] r2]; cbn in *.
  by apply same_form_trans with s1.
Qed.

Lemma preserves_try_finally {A} (m : act SmartFormApp A) fin :
  preserves m -> preserves fin -> preserves (try_finally m fin).
Proof.
  intros Hm Hf s. unfold try_finally. specialize (Hm s).
  destruct (m s) as [[s1 e1] r]; cbn in *.
  specialize (Hf s1). destruct (fin s1) as [[s2 e2] [[] | msg]]; cbn in *;
    by apply same_form_trans with s1.
Qed.

Lemma preserves_if {A} (b : bool) (m1 m2 : act SmartFormApp A) :
  preserves m1 -> preserves m2 -> preserves (if b then m1 else m2).
Proof. by destruct b. Qed.

(** Methods built from such pieces are framed piece by piece. *)
Ltac frame :=
  repeat first
    [ apply preserves_ret | apply preserves_throw | apply preserves_emit
    | apply preserves_gets | apply preserves_complete
    | apply preserves_modify; intros ?; by repeat split
    | apply preserves_bind; [| intros ?]
    | apply preserves_try_catch; [| intros ?]
    | apply preserves_try_finally
    | match goal with
      | |- preserves (if ?b then _ else _) => destruct b
      | |- preserves (match ?x with _ => _ end) => destruct x
      end ].

Lemma preserves_showLoading b : preserves (showLoading b).
Proof. unfold showLoading. frame. Qed.

Lemma preserves_showError m : preserves (showError m).
Proof. unfold showError. frame. Qed.

Lemma preserves_showSuccess h d : preserves (showSuccess h d).
Proof. unfold showSuccess. frame. Qed.

Lemma preserves_closeModal : preserves closeModal.
Proof. unfold closeModal. frame. Qed.

Lemma preserves_getFormData h : preserves (getFormData h).
Proof. unfold getFormData. frame. Qed.

Lemma preserves_submitData h data : preserves (submitData h data).
Proof. unfold submitData. frame. Qed.

Lemma preserves_handleFormSubmit_try h : preserves (handleFormSubmit_try h).
Proof.
  unfold handleFormSubmit_try, report_response, report_error.
  repeat first
    [ apply preserves_showLoading | apply preserves_showError
    | apply preserves_showSuccess | apply preserves_getFormData
    | apply preserves_submitData | progress frame ].
Qed.

(** ** The page keeps the form consistent *)

Lemma handleFormSubmit_run h this :
  exists allValid,
    checkFormValidity this
    = (set_submitBtn_disabled (negb allValid) this, [], Normal allValid)
    /\ (allValid = true <->
        Forall clean_field (requiredFields this) /\ image_present this)
    /\ handleFormSubmit h this =
       if allValid
       then
         let '(s, e, r) :=
           handleFormSubmit_try h (set_submitBtn_disabled false this) in
         (s, PreventDefault :: e, r)
       else
         (set_submitBtn_disabled true this,
          [PreventDefault;
           ErrorNotification
             (lit "Please complete all required fields and capture a photo")],
          Normal tt).
Proof.
  destruct (checkFormValidity_run this) as (v & E & Hv).
  exists v. split; [done |]. split; [done |].
  unfold handleFormSubmit, bind at 1 2, emit. rewrite E.
  destruct v; cbn.
  - by destruct (handleFormSubmit_try h (set_submitBtn_disabled false this))
      as [[s e] r].
  - reflexivity.
Qed.

Lemma on_cameraApp_form m w :
  smartFormApp (state_of (on_cameraApp m w)) = smartFormApp w.
Proof.
  unfold on_cameraApp. destruct (cameraApp w) as [c |]; [| done].
  by destruct (m c) as [[? ?] ?].
Qed.

Lemma on_smartFormApp_form m w this :
  smartFormApp w = Some this ->
  smartFormApp (state_of (on_smartFormApp m w)) = Some (state_of (m this)).
Proof.
  intros H. unfold on_smartFormApp. rewrite H.
  by destruct (m this) as [[? ?] ?].
Qed.

Lemma then_on_cameraApp_form (m : act page unit) c w :
  smartFormApp (state_of ((m >> on_cameraApp c) w)) = smartFormApp (state_of (m w)).
Proof.
  unfold bind. destruct (m w) as [[s e] [a | msg]]; cbn; [| done].
  pose proof (on_cameraApp_form c s) as H.
  by destruct (on_cameraApp c s) as [[? ?] ?].
Qed.

(** After a pass of [checkFormValidity] the button is as the pass says. *)
Lemma checkFormValidity_enabled this :
  let this' := state_of (checkFormValidity this) in
  (submitBtn_disabled this' = false <->
   Forall clean_field (requiredFields this') /\ image_present this')
  /\ form this' = form this
  /\ errorElements this' = errorElements this
  /\ capturedImageData this' = capturedImageData this.
Proof.
  destruct (checkFormValidity_run this) as (v & E & Hv). rewrite E. cbn.
  split; [| done]. split.
  - intros H. apply Hv. by destruct v.
  - intros H. apply Hv in H. by subst.
Qed.

Lemma enabled_after_check this :
  enabled_when_clean (state_of (checkFormValidity this)).
Proof.
  destruct (checkFormValidity_enabled this) as (H & _). cbv zeta in H.
  intros ? ?. by apply H.
Qed.

Lemma truthful_after_check this :
  truthful_marks this -> truthful_marks (state_of (checkFormValidity this)).
Proof.
  destruct (checkFormValidity_enabled this) as (_ & H & _). cbv zeta in H.
  unfold truthful_marks. by rewrite H.
Qed.

Lemma same_form_invariant this this' :
  same_form this this' ->
  truthful_marks this /\ enabled_when_clean this ->
  truthful_marks this' /\ enabled_when_clean this'.
Proof.
  intros (Hf & _ & Hb & Hi) [H1 H2].
  unfold truthful_marks, enabled_when_clean, requiredFields, image_present in *.
  rewrite Hf, Hb, Hi. done.
Qed.

Lemma inv_submit h w :
  form_invariant w -> form_invariant (state_of (listener (Submit h) w)).
Proof.
  intros Hw this'. cbn.
  destruct (smartFormApp w) as [this |] eqn:E.
  - rewrite (on_smartFormApp_form _ _ _ E). intros [= <-].
    destruct (Hw this E) as [H1 H2].
    destruct (handleFormSubmit_run h this) as (v & Ec & Hv & ->).
    assert (Hchk : truthful_marks (set_submitBtn_disabled (negb v) this)
                   /\ enabled_when_clean (set_submitBtn_disabled (negb v) this)).
    { pose proof (truthful_after_check this H1) as T.
      pose proof (enabled_after_check this) as N. rewrite Ec in T, N. done. }
    destruct v; cbn in *; [| done].
    pose proof (preserves_handleFormSubmit_try h (set_submitBtn_disabled false this)) as P.
    destruct (handleFormSubmit_try h (set_submitBtn_disabled false this)) as [[s e] r].
    cbn in *. by apply (same_form_invariant _ _ P).
  - unfold on_smartFormApp. rewrite E. cbn. congruence.
Qed.

Lemma Forall_required (P : field -> Prop) (l : list field) :
  Forall P (List.filter required l)
  <-> Forall (fun f => required f = true -> P f) l.
Proof.
  induction l as [|f l IH]; simpl.
  - split; constructor.
  - destruct (required f) eqn:E.
    + rewrite !List.Forall_cons_iff, IH. tauto.
    + rewrite List.Forall_cons_iff, IH. split; [| tauto].
      intros H. split; [congruence | done].
Qed.

Lemma checks_set_error b f :
  validateField_checks (set_error b f) = validateField_checks f.
Proof. reflexivity. Qed.

(** [validateField] never throws and leaves no effect. *)
Lemma validateField_total i this :
  exists v, validateField i this = (state_of (validateField i this), [], Normal v).
Proof.
  destruct (form this !! i) as [f |] eqn:E.
  - destruct (validateField_run i this f E) as (Hc & He & _). cbv zeta in *.
    destruct (validateField i this) as [[s e] r]. cbn in *. subst. eauto.
  - unfold validateField, bind, gets. rewrite E. cbn. eauto.
Qed.

Lemma valid_clean f :
  required f = true -> valid_field f -> trim (value f) <> [].
Proof.
  unfold valid_field, validateField_checks. intros Hr H Ht.
  rewrite Hr, Ht in H. cbv [truthy_string negb andb] in H.
  repeat match type of H with
         | context [if ?b then _ else _] => destruct b
         end; discriminate H.
Qed.

(** Validation on blur keeps the page consistent. *)
Lemma blur_invariant i this f :
  form this !! i = Some f -> required f = true ->
  truthful_marks this /\ enabled_when_clean this ->
  truthful_marks (state_of (validateField i this))
  /\ enabled_when_clean (state_of (validateField i this)).
Proof.
  intros Hi Hr [H1 H2].
  destruct (validateField_run i this f Hi) as (_ & _ & Hf & _ & Hb & Him & _).
  cbv zeta in *. set (this' := state_of (validateField i this)) in *.
  split.
  - unfold truthful_marks. rewrite Hf. apply Forall_alter; [done |].
    intros x Hx _. rewrite Hi in Hx. injection Hx as <-. cbn.
    intros Hv. apply negb_true_iff in Hv. split; [done |].
    unfold valid_field. rewrite checks_set_error. congruence.
  - unfold enabled_when_clean, image_present. rewrite Hb, Him.
    unfold requiredFields in *.
    intros Hc. apply H2. apply Forall_required.
    apply Forall_required in Hc. rewrite Hf in Hc.
    apply (Forall_alter_inv _ _ _ _ Hc).
    intros x Hx Hcx Hrx. rewrite Hi in Hx. injection Hx as <-.
    destruct (Hcx Hrx) as [Ht He]. cbn in Ht, He.
    apply negb_false_iff in He. split; [done |].
    destruct (error f) eqn:Ee; [| done].
    destruct (Forall_lookup_1 _ _ _ _ H1 Hi Ee) as [_ Hn]. by destruct Hn.
Qed.

Arguments validateField i this : simpl never.
Arguments checkFormValidity this : simpl never.

(** *** Running a sequence *)

Lemma bind_modify {St B} (f : St -> St) (k : unit -> act St B) s :
  bind (modify f) k s = k tt (f s).
Proof. unfold bind, modify. by destruct (k tt (f s)) as [[? ?] ?]. Qed.

Lemma bind_gets {St A B} (f : St -> A) (k : A -> act St B) s :
  bind (gets f) k s = k (f s) s.
Proof. unfold bind, gets. by destruct (k (f s) s) as [[? ?] ?]. Qed.

Lemma bind_ret {St A B} (a : A) (k : A -> act St B) s :
  bind (ret a) k s = k a s.
Proof. unfold bind, ret. by destruct (k a s) as [[? ?] ?]. Qed.

Lemma bind_emit {St B} (e : effect) (k : unit -> act St B) s :
  bind (emit e) k s = let '(s2, e2, r2) := k tt s in (s2, e :: e2, r2).
Proof. reflexivity. Qed.

Lemma bind_normal {St A B} (m : act St A) (k : A -> act St B) s s1 e1 a :
  m s = (s1, e1, Normal a) ->
  bind m k s = let '(s2, e2, r2) := k a s1 in (s2, e1 ++ e2, r2).
Proof. unfold bind. by intros ->. Qed.

Lemma bind_throw {St A B} (m : act St A) (k : A -> act St B) s s1 e1 msg :
  m s = (s1, e1, Throw msg) -> bind m k s = (s1, e1, Throw msg).
Proof. unfold bind. by intros ->. Qed.

Lemma blur_state i this :
  state_of ((let* req := gets (is_required i) in
             if req then blur_listener i else ret tt) this)
  = if is_required i this then state_of (validateField i this) else this.
Proof.
  rewrite bind_gets. destruct (is_required i this); [| done].
  unfold blur_listener.
  destruct (validateField_total i this) as (v & E).
  by rewrite (bind_normal _ _ _ _ _ _ E).
Qed.

Lemma inv_blur i w :
  form_invariant w -> form_invariant (state_of (listener (Blur i) w)).
Proof.
  intros Hw this'. cbn.
  destruct (smartFormApp w) as [this |] eqn:E.
  - rewrite (on_smartFormApp_form _ _ _ E). intros [= <-].
    pose proof (Hw this E) as H. rewrite blur_state.
    unfold is_required.
    destruct (form this !! i) as [f |] eqn:Ef; [| done].
    destruct (required f) eqn:Er; [| done].
    by apply (blur_invariant i this f).
  - unfold on_smartFormApp. rewrite E. cbn. congruence.
Qed.

Lemma input_listener_state i this :
  state_of (input_listener i this)
  = state_of
      (checkFormValidity
         (if match form this !! i with Some f => error f | None => false end
          then state_of (validateField i this) else this)).
Proof.
  unfold input_listener. rewrite bind_gets.
  destruct (match form this !! i with Some f => error f | None => false end).
  - destruct (validateField_total i this) as (b & E).
    assert (E1 : (let* _ := validateField i in ret tt) this
                 = (state_of (validateField i this), [], Normal tt))
      by (by rewrite (bind_normal _ _ _ _ _ _ E)).
    rewrite (bind_normal _ _ _ _ _ _ E1).
    destruct (checkFormValidity_run (state_of (validateField i this)))
      as (a & Ea & _).
    by rewrite (bind_normal _ _ _ _ _ _ Ea), Ea.
  - rewrite bind_ret.
    destruct (checkFormValidity_run this) as (a & Ea & _).
    by rewrite (bind_normal _ _ _ _ _ _ Ea), Ea.
Qed.

Lemma input_state i v this :
  let this1 := set_form (alter (set_value v) i (form this)) this in
  state_of ((modify (fun this => set_form (alter (set_value v) i (form this)) this) >>
             let* req := gets (is_required i) in
             if req then input_listener i else ret tt) this)
  = if is_required i this1
    then state_of
           (checkFormValidity
              (if match form this1 !! i with Some f => error f | None => false end
               then state_of (validateField i this1) else this1))
    else this1.
Proof.
  intros this1. rewrite bind_modify, bind_gets. fold this1.
  destruct (is_required i this1); [| done].
  apply input_listener_state.
Qed.

Lemma inv_input i v w :
  form_invariant w -> form_invariant (state_of (listener (Input i v) w)).
Proof.
  intros Hw this'. cbn.
  destruct (smartFormApp w) as [this |] eqn:E.
  - rewrite (on_smartFormApp_form _ _ _ E). intros [= <-].
    destruct (Hw this E) as [H1 H2]. rewrite input_state. cbv zeta.
    set (this1 := set_form (alter (set_value v) i (form this)) this).
    unfold is_required.
    destruct (form this1 !! i) as [f1 |] eqn:Ef1.
    + assert (exists f, form this !! i = Some f /\ f1 = set_value v f) as (f & Ef & ->).
      { unfold this1 in Ef1. cbn in Ef1. rewrite list_lookup_alter_eq in Ef1.
        destruct (form this !! i) as [f |]; [| done]. injection Ef1 as <-. eauto. }
      cbn [required set_value error].
      destruct (required f) eqn:Er.
      * split; [| apply enabled_after_check]. apply truthful_after_check.
        destruct (error f) eqn:Ee.
        -- destruct (validateField_run i this1 _ Ef1) as (_ & _ & Hf & _).
           cbv zeta in Hf. unfold truthful_marks. rewrite Hf.
           unfold this1. cbn [form set_form]. rewrite list_alter_alter_eq.
           apply Forall_alter; [done |].
           intros x Hx _. rewrite Ef in Hx. injection Hx as <-. cbn.
           intros Hv. apply negb_true_iff in Hv. split; [done |].
           unfold valid_field. rewrite checks_set_error. congruence.
        -- unfold truthful_marks, this1. cbn [form set_form].
           apply Forall_alter; [done |].
           intros x Hx _. rewrite Ef in Hx. injection Hx as <-. cbn. congruence.
      * split.
        -- unfold truthful_marks, this1. cbn [form set_form].
           apply Forall_alter; [done |].
           intros x Hx Px. rewrite Ef in Hx. injection Hx as <-. cbn.
           intros Hv. destruct (Px Hv). congruence.
        -- unfold enabled_when_clean, image_present, requiredFields in *. cbn.
           intros Hc. apply H2. apply Forall_required.
           apply Forall_required in Hc.
           apply (Forall_alter_inv _ _ _ _ Hc).
           intros x Hx _ Hrx. rewrite Ef in Hx. injection Hx as <-. congruence.
    + assert (this1 = this) as ->; [| done].
      unfold this1 in *. cbn in Ef1. rewrite list_lookup_alter_eq in Ef1.
      destruct (form this !! i) as [f |] eqn:Ef; [done |].
      assert (alter (set_value v) i (form this) = form this) as ->.
      { apply list_eq. intros j. destruct (decide (i = j)) as [<- |].
        - by rewrite list_lookup_alter_eq, Ef.
        - by rewrite list_lookup_alter_ne. }
      by destruct this.
  - unfold on_smartFormApp. rewrite E. cbn. congruence.
Qed.

Lemma on_smartFormApp_none m w :
  smartFormApp w = None -> state_of (on_smartFormApp m w) = w.
Proof. intros H. unfold on_smartFormApp. by rewrite H. Qed.

(** What [handleFormReset] leaves in the form controller. *)
Lemma handleFormReset_form w this :
  smartFormApp w = Some this ->
  exists this',
    smartFormApp (state_of (handleFormReset w)) = Some this'
    /\ form this' = map (fun f => set_error false (set_value (defaultValue f) f)) (form this)
    /\ capturedImageData this' = None
    /\ submitBtn_disabled this' = true
    /\ loadingOverlay_hidden this' = loadingOverlay_hidden this
    /\ successModal_hidden this' = successModal_hidden this.
Proof.
  intros E. unfold handleFormReset. rewrite then_on_cameraApp_form.
  rewrite (on_smartFormApp_form _ _ _ E).
  rewrite !bind_modify. cbn. eexists. split; [reflexivity |]. cbn.
  rewrite map_map. done.
Qed.

Lemma reset_invariant this' l :
  form this' = map (fun f => set_error false (set_value (defaultValue f) f)) l ->
  capturedImageData this' = None ->
  truthful_marks this' /\ enabled_when_clean this'.
Proof.
  intros Hf Hi. split.
  - unfold truthful_marks. rewrite Hf. apply List.Forall_map.
    apply List.Forall_forall. intros f _. cbn. done.
  - unfold enabled_when_clean, image_present. rewrite Hi. cbn. done.
Qed.

Lemma inv_reset w :
  form_invariant w -> form_invariant (state_of (listener ClickReset w)).
Proof.
  intros Hw this'. cbn.
  destruct (smartFormApp w) as [this |] eqn:E.
  - destruct (handleFormReset_form w this E) as (t & -> & Hf & Hi & _).
    intros [= <-]. by apply (reset_invariant t (form this)).
  - unfold handleFormReset. rewrite then_on_cameraApp_form.
    rewrite on_smartFormApp_none by done. congruence.
Qed.

Lemma state_of_bind_normal {St A B} (m : act St A) (k : A -> act St B) s a :
  completion_of (m s) = Normal a ->
  state_of (bind m k s) = state_of (k a (state_of (m s))).
Proof.
  unfold bind. destruct (m s) as [[s1 e1] r]. cbn. intros ->.
  by destruct (k a s1) as [[? ?] ?].
Qed.

Lemma form_invariant_ext w w' :
  smartFormApp w' = smartFormApp w -> form_invariant w -> form_invariant w'.
Proof. unfold form_invariant. by intros ->. Qed.

Lemma form_invariant_same m w :
  preserves m -> form_invariant w -> form_invariant (state_of (on_smartFormApp m w)).
Proof.
  intros Hm Hw this'.
  destruct (smartFormApp w) as [this |] eqn:E.
  - rewrite (on_smartFormApp_form _ _ _ E). intros [= <-].
    apply (same_form_invariant this); [apply Hm | by apply Hw].
  - rewrite on_smartFormApp_none by done. congruence.
Qed.

Lemma inv_new_submission w :
  form_invariant w -> form_invariant (state_of (listener ClickNewSubmission w)).
Proof.
  intros Hw. pose proof (inv_reset w Hw) as H. cbn in *.
  unfold handleNewSubmission, bind.
  destruct (handleFormReset w) as [[w1 e1] [[] | msg]]; cbn in *; [| done].
  pose proof (form_invariant_same closeModal w1 preserves_closeModal H) as H'.
  by destruct (on_smartFormApp closeModal w1) as [[? ?] ?].
Qed.

(** The callback of the camera keeps the page consistent. *)
Lemma onImageCaptured_state d this :
  state_of (onImageCaptured d this)
  = state_of (checkFormValidity (set_capturedImageData d this)).
Proof.
  unfold onImageCaptured. rewrite bind_modify.
  destruct (checkFormValidity_run (set_capturedImageData d this)) as (a & Ea & _).
  by rewrite (bind_normal _ _ _ _ _ _ Ea), Ea.
Qed.

Lemma notify_invariant d w :
  form_invariant w ->
  form_invariant
    (state_of (on_smartFormApp (emit (ImageCaptured d) >> onImageCaptured d) w)).
Proof.
  intros Hw this'.
  destruct (smartFormApp w) as [this |] eqn:E.
  - rewrite (on_smartFormApp_form _ _ _ E). intros [= <-].
    rewrite bind_emit.
    pose proof (onImageCaptured_state d this) as Hs.
    destruct (onImageCaptured d this) as [[s e] r]. cbn in *. subst s.
    destruct (Hw this E) as [H1 _].
    split; [| apply enabled_after_check]. by apply truthful_after_check.
  - rewrite on_smartFormApp_none by done. congruence.
Qed.

Lemma camera_then_notify_invariant (c : act CameraApp unit) d w :
  form_invariant w ->
  form_invariant
    (state_of ((on_cameraApp c >>
                on_smartFormApp (emit (ImageCaptured d) >> onImageCaptured d)) w)).
Proof.
  intros Hw. unfold bind at 1.
  pose proof (on_cameraApp_form c w) as Hc.
  destruct (on_cameraApp c w) as [[w1 e1] [[] | msg]]; cbn in Hc.
  - assert (H1 : form_invariant w1) by by apply (form_invariant_ext w).
    pose proof (notify_invariant d w1 H1) as H2.
    by destruct (on_smartFormApp _ w1) as [[? ?] ?].
  - by apply (form_invariant_ext w).
Qed.

Lemma inv_retake w :
  form_invariant w -> form_invariant (state_of (listener ClickRetakePhoto w)).
Proof. intros Hw. cbn. unfold retakePhoto. by apply camera_then_notify_invariant. Qed.

Lemma bind_complete_normal {St A B} (a : A) (k : A -> act St B) s :
  bind (complete (Normal a)) k s = k a s.
Proof. unfold bind, complete. by destruct (k a s) as [[? ?] ?]. Qed.

Lemma bind_complete_throw {St A B} msg (k : A -> act St B) s :
  bind (complete (Throw msg)) k s = (s, [], Throw msg).
Proof. reflexivity. Qed.

Lemma try_catch_state {St A} (m : act St A) handler s :
  state_of (try_catch m handler s)
  = match completion_of (m s) with
    | Normal _ => state_of (m s)
    | Throw msg => state_of (handler msg (state_of (m s)))
    end.
Proof.
  unfold try_catch. destruct (m s) as [[s1 e1] [a | msg]]; cbn; [done |].
  by destruct (handler msg s1) as [[? ?] ?].
Qed.

Lemma capture_failure_form what msg w :
  smartFormApp
    (state_of ((emit (ConsoleError what msg) >>
                on_cameraApp (updateStatus (lit "Failed to capture photo")
                                           (lit "error"))) w))
  = smartFormApp w.
Proof.
  rewrite bind_emit.
  pose proof (on_cameraApp_form
                (updateStatus (lit "Failed to capture photo") (lit "error")) w) as Hc.
  by destruct (on_cameraApp _ w) as [[w2 e2] r2].
Qed.

Lemma inv_capture frame w :
  form_invariant w -> form_invariant (state_of (listener (ClickCapturePhoto frame) w)).
Proof.
  intros Hw. cbn. unfold capturePhoto. rewrite try_catch_state.
  destruct frame as [imageData | msg].
  - rewrite bind_complete_normal.
    pose proof (camera_then_notify_invariant
                  (modify (set_capturedImage_src (Some imageData)) >>
                   modify (fun this => set_hidden true false this) >>
                   modify (set_isCaptured true) >>
                   showRetakeControls >>
                   updateStatus (lit "Photo captured successfully!") (lit "info"))
                  (Some imageData) w Hw) as H.
    match goal with
    | |- context [completion_of ?x] => destruct (completion_of x)
    end; [done |].
    eapply form_invariant_ext; [apply capture_failure_form | done].
  - rewrite bind_complete_throw. cbn [completion_of state_of fst snd].
    eapply form_invariant_ext; [apply capture_failure_form | done].
Qed.

(** Every listener keeps the page consistent. *)
Lemma listener_invariant ev w :
  form_invariant w -> form_invariant (state_of (listener ev w)).
Proof.
  intros Hw. destruct ev.
  - by apply inv_input.
  - by apply inv_blur.
  - by apply inv_submit.
  - by apply inv_reset.
  - by apply inv_new_submission.
  - by apply (form_invariant_same closeModal w preserves_closeModal).
  - apply (form_invariant_ext w); [apply on_cameraApp_form | done].
  - apply (form_invariant_ext w); [apply on_cameraApp_form | done].
  - by apply inv_capture.
  - by apply inv_retake.
  - apply (form_invariant_ext w); [apply on_cameraApp_form | done].
Qed.

Lemma run_invariant evs : forall w,
  form_invariant w -> form_invariant (fst (run evs w)).
Proof.
  induction evs as [|ev evs IH]; intros w Hw; cbn; [done |].
  pose proof (listener_invariant ev w Hw) as H1.
  destruct (listener ev w) as [[w1 e1] r]. cbn in H1.
  specialize (IH w1 H1). by destruct (run evs w1).
Qed.

Lemma DOMContentLoaded_invariant d : form_invariant (DOMContentLoaded d).
Proof.
  intros this [= <-]. split.
  - unfold truthful_marks. cbn. apply List.Forall_map.
    apply List.Forall_forall. by intros c _.
  - intros _ H. discriminate H.
Qed.

Lemma reachable_invariant d w : reachable d w -> form_invariant w.
Proof.
  intros [evs <-]. apply run_invariant, DOMContentLoaded_invariant.
Qed.

(** ** Claims about submit-readiness *)

Lemma same_form_tracks this this' :
  same_form this this' -> button_tracks_clean this -> button_tracks_clean this'.
Proof.
  intros (Hf & _ & Hb & Hi).
  unfold button_tracks_clean, requiredFields, image_present.
  by rewrite Hf, Hb, Hi.
Qed.

Lemma checked_tracks this : button_tracks_clean (state_of (checkFormValidity this)).
Proof. apply checkFormValidity_enabled. Qed.

(** A camera method made of assignments completes normally. *)
Lemma camera_then_notify_form (c : act CameraApp unit) d w this :
  (forall s, completion_of (c s) = Normal tt) ->
  smartFormApp w = Some this ->
  smartFormApp
    (state_of ((on_cameraApp c >>
                on_smartFormApp (emit (ImageCaptured d) >> onImageCaptured d)) w))
  = Some (state_of (checkFormValidity (set_capturedImageData d this))).
Proof.
  intros Hc E.
  assert (Hn : completion_of (on_cameraApp c w) = Normal tt).
  { unfold on_cameraApp. destruct (cameraApp w) as [cam |]; [| done].
    specialize (Hc cam). by destruct (c cam) as [[? ?] ?]. }
  rewrite (state_of_bind_normal _ _ _ _ Hn).
  rewrite (on_smartFormApp_form _ _ this).
  - rewrite bind_emit, <- onImageCaptured_state.
    by destruct (onImageCaptured d this) as [[? ?] ?].
  - by rewrite on_cameraApp_form.
Qed.

Lemma recompute_tracks ev w this this' :
  smartFormApp w = Some this -> recomputes ev this ->
  smartFormApp (state_of (listener ev w)) = Some this' ->
  button_tracks_clean this'.
Proof.
  intros E Hev. destruct ev as [i v | | h | | | | | | [imageData | ] | |];
    cbn in Hev; try done; cbn.
  - rewrite (on_smartFormApp_form _ _ _ E), input_state. cbv zeta.
    assert (is_required i (set_form (alter (set_value v) i (form this)) this) = true)
      as ->.
    { unfold is_required in *. cbn. rewrite list_lookup_alter_eq.
      by destruct (form this !! i). }
    clear Hev.
    intros [= <-]. apply checked_tracks.
  - rewrite (on_smartFormApp_form _ _ _ E). intros [= <-].
    destruct (handleFormSubmit_run h this) as (a & Ea & _ & ->).
    pose proof (checked_tracks this) as Hc. rewrite Ea in Hc.
    destruct a; cbn in *; [| done].
    pose proof (preserves_handleFormSubmit_try h (set_submitBtn_disabled false this)) as P.
    destruct (handleFormSubmit_try h (set_submitBtn_disabled false this)) as [[s e] r].
    by apply (same_form_tracks _ _ P).
  - unfold capturePhoto. rewrite try_catch_state, bind_complete_normal.
    assert (Hn : forall s : CameraApp,
               completion_of
                 ((modify (set_capturedImage_src (Some imageData)) >>
                   modify (fun this => set_hidden true false this) >>
                   modify (set_isCaptured true) >>
                   showRetakeControls >>
                   updateStatus (lit "Photo captured successfully!") (lit "info")) s)
               = Normal tt) by done.
    pose proof (camera_then_notify_form _ (Some imageData) w this Hn E) as Hs.
    match goal with
    | |- context [completion_of ?x] => destruct (completion_of x)
    end.
    + rewrite Hs. intros [= <-]. apply checked_tracks.
    + rewrite capture_failure_form, Hs. intros [= <-]. apply checked_tracks.
  - unfold retakePhoto.
    rewrite (camera_then_notify_form _ None w this); [| done | done].
    intros [= <-]. apply checked_tracks.
Qed.

Lemma valid_truthful_clean this :
  truthful_marks this ->
  Forall valid_field (requiredFields this) ->
  Forall clean_field (requiredFields this).
Proof.
  unfold truthful_marks, requiredFields. intros Ht Hv.
  apply Forall_required. apply Forall_required in Hv.
  rewrite List.Forall_forall in *. intros f Hf Hr. split.
  - by apply valid_clean, Hv.
  - destruct (error f) eqn:Ee; [| done].
    destruct (Ht f Hf Ee) as [_ Hn]. destruct Hn. by apply Hv.
Qed.

(** C1, as the code has it. After every pass of [checkFormValidity], which
    ends the listener of every input on a required control, of every
    notification of the camera and of every submission, the submit
    affordance is enabled if and only if every required field has a value
    that is not blank and does not carry the error mark, AND an image
    artifact is present; so either condition alone leaves it disabled. At
    every point of the lifecycle, every required field being valid under
    the validation rules together with a present image implies that the
    affordance is enabled. (The converse fails: a value that is not blank
    and has not been marked by validation counts, whatever the rules say
    of it.) *)
Theorem C1_submit_enabled d w this :
  reachable d w -> smartFormApp w = Some this ->
  (Forall valid_field (requiredFields this) /\ image_present this ->
   submitBtn_disabled this = false)
  /\ button_tracks_clean (state_of (checkFormValidity this))
  /\ (forall ev this',
        recomputes ev this ->
        smartFormApp (state_of (listener ev w)) = Some this' ->
        button_tracks_clean this').
Proof.
  intros Hr E. destruct (reachable_invariant d w Hr this E) as [Ht He].
  split; [| split].
  - intros [Hv Hi]. apply He; [| done]. by apply valid_truthful_clean.
  - apply checked_tracks.
  - intros ev this' Hev. by apply (recompute_tracks ev w this).
Qed.

Lemma C1_submit_enabled_witness : submitBtn_disabled (the_form page_ready) = false.
Proof.
  refine (proj1 (C1_submit_enabled a_document page_ready (the_form page_ready)
                   _ _) _).
  - exists [Input 0 (lit "a@b.co"); ClickCapturePhoto (Normal a_photo)].
    reflexivity.
  - vm_compute. reflexivity.
  - split.
    + assert (Hf : requiredFields (the_form page_ready)
                   = [{| name := lit "email"; type := lit "email";
                         required := true; defaultValue := [];
                         value := lit "a@b.co"; error := false |}])
        by (vm_compute; reflexivity).
      rewrite Hf. constructor; [| constructor]. vm_compute. reflexivity.
    + vm_compute. reflexivity.
Defined.

(** C1 as the specification words it fails on the page where [abc] was
    typed into the required email control and a photo was taken: the submit
    button is enabled although the field is invalid under the validation
    rules. *)
Lemma C1_unvalidated_counterexample :
  reachable a_document page_typed_abc
  /\ smartFormApp page_typed_abc = Some (the_form page_typed_abc)
  /\ ~ (submitBtn_disabled (the_form page_typed_abc) = false
        <-> Forall valid_field (requiredFields (the_form page_typed_abc))
            /\ image_present (the_form page_typed_abc)).
Proof.
  split; [| split].
  - exists [Input 0 (lit "abc"); ClickCapturePhoto (Normal a_photo)]. reflexivity.
  - vm_compute. reflexivity.
  - intros [H _].
    assert (Hb : submitBtn_disabled (the_form page_typed_abc) = false)
      by (vm_compute; reflexivity).
    apply H in Hb as [Hv _].
    assert (Hf : requiredFields (the_form page_typed_abc)
                 = [{| name := lit "email"; type := lit "email"; required := true;
                       defaultValue := []; value := lit "abc"; error := false |}])
      by (vm_compute; reflexivity).
    rewrite Hf in Hv. inversion Hv as [| ? ? Hv1 _]. vm_compute in Hv1.
    discriminate Hv1.
Qed.

(** After the blur of that control the field carries the error mark, and
    the button is still enabled: blur does not run [checkFormValidity]. *)
Lemma blur_leaves_button_enabled :
  let w := state_of (listener (Blur 0) page_typed_abc) in
  error <$> form (the_form w) !! 0%nat = Some true
  /\ submitBtn_disabled (the_form w) = false.
Proof. vm_compute. split; reflexivity. Qed.

(** C7, as the code has it. On a submit action, if some required field
    has a blank value or carries the error mark, or no image artifact is
    present, the flow reports the blocking error and returns: no request
    is made and [showLoading] is not called. *)
Theorem C7_invalid_submit_aborts h this :
  Exists (fun f => ~ clean_field f) (requiredFields this) \/ ~ image_present this ->
  let r := handleFormSubmit h this in
  effects_of r
  = [PreventDefault;
     ErrorNotification
       (lit "Please complete all required fields and capture a photo")]
  /\ completion_of r = Normal tt
  /\ (forall req, ~ In (Fetch req) (effects_of r))
  /\ (forall show, ~ In (Loading show) (effects_of r))
  /\ loadingOverlay_hidden (state_of r) = loadingOverlay_hidden this.
Proof.
  intros H.
  destruct (handleFormSubmit_run h this) as (a & _ & Ha & ->).
  destruct a.
  - destruct (proj1 Ha eq_refl) as [Hc Hi]. destruct H as [H | H]; [| done].
    apply List.Exists_exists in H as (f & Hf & Hn).
    destruct Hn. by apply (proj1 (List.Forall_forall _ _) Hc).
  - cbn. repeat split; try done.
    + intros req [Hr | [Hr | []]]; discriminate Hr.
    + intros show [Hr | [Hr | []]]; discriminate Hr.
Qed.

Lemma C7_invalid_submit_aborts_witness :
  effects_of
    (handleFormSubmit (a_host (Rejected []))
       (an_app [a_field "fullName" "text" true (lit "Ann")] None))
  = [PreventDefault;
     ErrorNotification
       (lit "Please complete all required fields and capture a photo")].
Proof.
  refine (proj1 (C7_invalid_submit_aborts (a_host (Rejected []))
                   (an_app [a_field "fullName" "text" true (lit "Ann")] None) _)).
  right. vm_compute. discriminate.
Defined.

(** C7 as the specification words it fails on the page where [abc] was
    typed into the required email control and a photo was taken: a required
    field is invalid under the validation rules, so global validity is
    false, and the submission is not aborted. No blocking error is
    reported, the loading indicator is shown and the request is made. *)
Lemma C7_unmarked_counterexample :
  let this := the_form page_typed_abc in
  let r := handleFormSubmit (a_host server_error) this in
  reachable a_document page_typed_abc
  /\ smartFormApp page_typed_abc = Some this
  /\ Exists (fun f => ~ valid_field f) (requiredFields this)
  /\ In (Loading true) (effects_of r)
  /\ (exists req, In (Fetch req) (effects_of r))
  /\ forall m, ~ In (ErrorNotification m) (effects_of r).
Proof.
  intros this r. split; [| split; [| split; [| split; [| split]]]].
  - exists [Input 0 (lit "abc"); ClickCapturePhoto (Normal a_photo)]. reflexivity.
  - vm_compute. reflexivity.
  - assert (Hf : requiredFields this
                 = [{| name := lit "email"; type := lit "email"; required := true;
                       defaultValue := []; value := lit "abc"; error := false |}])
      by (vm_compute; reflexivity).
    rewrite Hf. constructor. vm_compute. discriminate.
  - vm_compute. tauto.
  - exists (submit_request (submitted (a_host server_error) this)).
    vm_compute. tauto.
  - intros m H. vm_compute in H.
    repeat (destruct H as [H | H]; [discriminate H |]). done.
Qed.

(** ** The submission *)

Arguments getFormData h this : simpl never.
Arguments to_string h c v : simpl never.

Lemma try_catch_normal {St A} (m : act St A) handler s s1 e1 a :
  m s = (s1, e1, Normal a) -> try_catch m handler s = (s1, e1, Normal a).
Proof. unfold try_catch. by intros ->. Qed.

Lemma try_catch_throw {St A} (m : act St A) handler s s1 e1 msg :
  m s = (s1, e1, Throw msg) ->
  try_catch m handler s
  = let '(s2, e2, r2) := handler msg s1 in (s2, e1 ++ e2, r2).
Proof. unfold try_catch. by intros ->. Qed.

Lemma answered_or_failed h req : (exists v, answered h req v) \/ failed h req.
Proof.
  unfold answered, failed. destruct (network h req) as [m | r] eqn:E.
  - right. left. eauto.
  - destruct (ok r) eqn:Eo; [| right; right; left; eauto].
    destruct (json r) as [v | m] eqn:Ej; [left; eauto | right; right; right; eauto].
Qed.

Lemma answered_not_failed h req v : answered h req v -> ~ failed h req.
Proof.
  intros (r & En & Eo & Ej) [(m & E) | [(r' & E & Eo') | (r' & m & E & _ & Ej')]];
    rewrite En in E; [discriminate E | |]; injection E as <-; congruence.
Qed.

Lemma getFormData_run h this :
  exists data,
    getFormData h this = (this, [], Normal data)
    /\ data !! lit "imageData" = Some (image_value (capturedImageData this))
    /\ data !! lit "timestamp" = Some (JStr (toISOString_now h)).
Proof.
  unfold getFormData. rewrite bind_gets. cbn. eexists. split; [reflexivity |].
  split.
  - apply lookup_insert_eq.
  - rewrite lookup_insert_ne by discriminate. apply lookup_insert_eq.
Qed.

(** [submitData] when the endpoint answers with a body that parses. *)
Lemma submitData_answered h data this v :
  answered h (submit_request data) v ->
  submitData h data this = (this, [Fetch (submit_request data)], Normal v).
Proof.
  intros (r & En & Eo & Ej). unfold submitData.
  apply try_catch_normal. rewrite bind_emit, En, bind_complete_normal, Eo. cbn.
  by rewrite Ej.
Qed.

(** [submitData] on each of the failures: the simulated success. *)
Lemma submitData_failed h data this :
  failed h (submit_request data) ->
  submitData h data this
  = (this,
     [Fetch (submit_request data);
      ConsoleLog (lit "Simulating successful submission...")],
     Normal (simulated_response h data)).
Proof.
  intros H. unfold submitData.
  assert (exists m,
    (emit (Fetch (submit_request data)) >>
     let* response :=
       complete match network h (submit_request data) with
                | Resolved r => Normal r
                | Rejected message => Throw message
                end in
     if negb (ok response)
     then throw (lit "HTTP error! status: " ++ string_of_Z (status response))
     else complete (json response)) this
    = (this, [Fetch (submit_request data)], Throw m)) as (m & E).
  { rewrite bind_emit.
    destruct H as [(m & ->) | [(r & -> & Eo) | (r & m & -> & Eo & Ej)]].
    - eexists. reflexivity.
    - rewrite bind_complete_normal, Eo. eexists. reflexivity.
    - rewrite bind_complete_normal, Eo, Ej. eexists. reflexivity. }
  rewrite (try_catch_throw _ _ _ _ _ _ E). reflexivity.
Qed.

(** [submitData] never throws: it returns a response on every path, leaves
    the form controller as it is, and makes one request. *)
Lemma submitData_total h data this :
  exists response,
    completion_of (submitData h data this) = Normal response
    /\ state_of (submitData h data this) = this
    /\ List.filter is_fetch (effects_of (submitData h data this))
       = [Fetch (submit_request data)].
Proof.
  destruct (answered_or_failed h (submit_request data)) as [(v & H) | H].
  - rewrite (submitData_answered _ _ _ _ H). eauto.
  - rewrite (submitData_failed _ _ _ H). eauto.
Qed.

(** The whole [try] statement, once the response of [submitData] is known. *)
Lemma handleFormSubmit_try_run h this data e1 response :
  let this1 := set_loadingOverlay_hidden false this in
  getFormData h this1 = (this1, [], Normal data) ->
  submitData h data this1 = (this1, e1, Normal response) ->
  handleFormSubmit_try h this
  = let '(s, e, r) := try_catch (report_response h response) report_error this1 in
    (set_loadingOverlay_hidden true s, Loading true :: e1 ++ e ++ [Loading false], r).
Proof.
  intros this1 Hd Hs. unfold handleFormSubmit_try, try_finally.
  assert (Hl : showLoading true this = (this1, [Loading true], Normal tt)) by done.
  unfold try_catch at 1.
  rewrite (bind_normal _ _ _ _ _ _ Hl), (bind_normal _ _ _ _ _ _ Hd),
    (bind_normal _ _ _ _ _ _ Hs).
  unfold try_catch.
  destruct (report_response h response this1) as [[s2 e2] [[] | msg]]; cbn.
  - by rewrite app_assoc.
  - destruct (report_error msg s2) as [[s3 e3] r3] eqn:E3. cbn.
    by rewrite <- !app_assoc.
Qed.

Lemma getFormData_submitted h this :
  getFormData h this = (this, [], Normal (submitted h this)).
Proof.
  unfold submitted. destruct (getFormData_run h this) as (data & E & _).
  by rewrite E.
Qed.

Lemma submitted_same_form h this this' :
  form this' = form this ->
  capturedImageData this' = capturedImageData this ->
  submitted h this' = submitted h this.
Proof.
  intros Hf Hi. unfold submitted, getFormData.
  rewrite !bind_gets. cbn. by rewrite Hf, Hi.
Qed.

Lemma submitted_reserved h this :
  submitted h this !! lit "imageData" = Some (image_value (capturedImageData this))
  /\ submitted h this !! lit "timestamp" = Some (JStr (toISOString_now h)).
Proof.
  destruct (getFormData_run h this) as (data & E & H).
  unfold submitted. by rewrite E.
Qed.

(** [showSuccess(data)], case by case. *)
Lemma showSuccess_run h data s :
  showSuccess h data s =
  match details_error h data with
  | Some message => (s, [], Throw message)
  | None =>
      (set_successModal_hidden false s,
       [SubmissionDetails (field_of data (lit "submissionId"))
                          (field_of data (lit "timestamp"))],
       Normal tt)
  end.
Proof.
  unfold showSuccess, details_error, get, to_string, to_primitive.
  destruct (nullish data); [done |].
  rewrite bind_complete_normal.
  destruct (convertible (field_of data (lit "submissionId"))); [| done].
  rewrite !bind_complete_normal.
  destruct (convertible (field_of data (lit "timestamp"))); [| done].
  by rewrite bind_complete_normal.
Qed.

Lemma details_error_unshowable h data :
  is_Some (details_error h data) <-> unshowable data.
Proof.
  unfold details_error, unshowable.
  destruct (nullish data); [split; eauto |].
  destruct (convertible (field_of data (lit "submissionId")));
    [| split; eauto].
  destruct (convertible (field_of data (lit "timestamp"))); cbn.
  - split; [by intros [? ?] | by intros [? | [? | ?]]].
  - split; eauto.
Qed.

(** The response is reported in one of three ways. *)
Lemma report_response_run h v s :
  report_response h v s =
  if nullish v
  then (s, [], Throw (TypeError_message h (Reading v (lit "success"))))
  else if truthy (field_of v (lit "success"))
  then showSuccess h (field_of v (lit "data")) s
  else (s, [], Throw (refusal_text h v)).
Proof.
  unfold report_response, refusal_text, get.
  destruct (nullish v) eqn:En; [done |].
  rewrite bind_complete_normal.
  destruct (truthy (field_of v (lit "success"))).
  - by rewrite bind_complete_normal.
  - rewrite bind_complete_normal. cbv zeta.
    destruct (to_string h Error_argument _) as [text | text] eqn:E.
    + by rewrite bind_complete_normal.
    + by rewrite bind_complete_throw.
Qed.

Lemma report_error_run msg s :
  report_error msg s
  = (s,
     [ConsoleError (lit "Submission error:") msg;
      ErrorNotification
        (or_string msg (lit "An error occurred during submission"))],
     Normal tt).
Proof. reflexivity. Qed.

(** A submission that passes the gate of [checkFormValidity]. *)
Lemma handleFormSubmit_passed h this e1 response :
  Forall clean_field (requiredFields this) /\ image_present this ->
  let this1 := set_loadingOverlay_hidden false (set_submitBtn_disabled false this) in
  submitData h (submitted h this) this1 = (this1, e1, Normal response) ->
  handleFormSubmit h this
  = let '(s, e, r) := try_catch (report_response h response) report_error this1 in
    (set_loadingOverlay_hidden true s,
     PreventDefault :: Loading true :: e1 ++ e ++ [Loading false], r).
Proof.
  intros Hg this1 Hs.
  destruct (handleFormSubmit_run h this) as (a & _ & Ha & ->).
  apply Ha in Hg as ->.
  assert (Hd : submitted h this1 = submitted h this).
  { by apply submitted_same_form. }
  pose proof (getFormData_submitted h this1) as Hgd. rewrite Hd in Hgd.
  rewrite (handleFormSubmit_try_run h _ _ _ _ Hgd Hs). fold this1.
  by destruct (try_catch (report_response h response) report_error this1)
    as [[? ?] ?].
Qed.

Lemma simulated_fields h data :
  nullish (simulated_response h data) = false
  /\ field_of (simulated_response h data) (lit "success") = JBool true
  /\ nullish (field_of (simulated_response h data) (lit "data")) = false
  /\ field_of (field_of (simulated_response h data) (lit "data")) (lit "submissionId")
     = JStr (lit "SUB_" ++ string_of_Z (Date_now h))
  /\ field_of (field_of (simulated_response h data) (lit "data")) (lit "timestamp")
     = default JUndefined (data !! lit "timestamp").
Proof.
  unfold simulated_response. cbn - [lit string_of_Z].
  rewrite lookup_insert_eq. cbn - [lit string_of_Z].
  rewrite lookup_insert_ne by discriminate. rewrite lookup_insert_eq.
  cbn - [lit string_of_Z]. rewrite lookup_insert_eq.
  rewrite lookup_insert_ne by discriminate. rewrite lookup_insert_eq.
  done.
Qed.

(** A submission whose remote call fails: the simulated success is shown
    as a success, and no error is notified. *)
Lemma handleFormSubmit_failed h this :
  Forall clean_field (requiredFields this) /\ image_present this ->
  failed h (submit_request (submitted h this)) ->
  handleFormSubmit h this
  = (set_loadingOverlay_hidden true
       (set_successModal_hidden false
          (set_loadingOverlay_hidden false (set_submitBtn_disabled false this))),
     [PreventDefault; Loading true;
      Fetch (submit_request (submitted h this));
      ConsoleLog (lit "Simulating successful submission...");
      SubmissionDetails (JStr (lit "SUB_" ++ string_of_Z (Date_now h)))
                        (JStr (toISOString_now h));
      Loading false],
     Normal tt).
Proof.
  intros Hg Hf.
  rewrite (handleFormSubmit_passed h this _ _ Hg (submitData_failed _ _ _ Hf)).
  unfold try_catch. rewrite report_response_run, showSuccess_run.
  unfold details_error.
  destruct (simulated_fields h (submitted h this)) as (-> & -> & -> & -> & ->).
  destruct (submitted_reserved h this) as [_ ->]. reflexivity.
Qed.

(** A submission that the endpoint answers with a body that parses. *)
Lemma handleFormSubmit_answered h this v :
  Forall clean_field (requiredFields this) /\ image_present this ->
  answered h (submit_request (submitted h this)) v ->
  let this1 := set_loadingOverlay_hidden false (set_submitBtn_disabled false this) in
  let shown s e :=
    (set_loadingOverlay_hidden true s,
     PreventDefault :: Loading true :: Fetch (submit_request (submitted h this))
       :: e ++ [Loading false],
     Normal tt) in
  let notified msg :=
    shown this1
      [ConsoleError (lit "Submission error:") msg;
       ErrorNotification (or_string msg (lit "An error occurred during submission"))] in
  handleFormSubmit h this =
  if nullish v then notified (TypeError_message h (Reading v (lit "success")))
  else if truthy (field_of v (lit "success"))
  then
    let data := field_of v (lit "data") in
    match details_error h data with
    | Some message => notified message
    | None =>
        shown (set_successModal_hidden false this1)
          [SubmissionDetails (field_of data (lit "submissionId"))
                             (field_of data (lit "timestamp"))]
    end
  else notified (refusal_text h v).
Proof.
  intros Hg Ha this1 shown notified.
  rewrite (handleFormSubmit_passed h this _ _ Hg (submitData_answered _ _ _ _ Ha)).
  unfold try_catch. rewrite report_response_run, showSuccess_run. fold this1.
  destruct (nullish v); [done |].
  destruct (truthy (field_of v (lit "success"))); [| done].
  cbv zeta. by destruct (details_error h (field_of v (lit "data"))).
Qed.

(** ** Claims about the submission *)

Lemma page_ready_passes :
  Forall clean_field (requiredFields (the_form page_ready))
  /\ image_present (the_form page_ready).
Proof.
  split; [| by vm_compute].
  assert (Hf : requiredFields (the_form page_ready)
               = [{| name := lit "email"; type := lit "email"; required := true;
                     defaultValue := []; value := lit "a@b.co"; error := false |}])
    by (vm_compute; reflexivity).
  rewrite Hf. constructor; [| constructor]. split; [by vm_compute | done].
Qed.

(** C2, as the code has it. When a submission is attempted and the remote
    call fails, the flow does one of two things, never both. If the request
    fails outright (the fetch rejects, the status is not 2xx, or the body
    does not parse), no error is notified: a locally generated success
    record is shown as the outcome, whose submissionId is the prefix [SUB_]
    followed by the current epoch time and whose timestamp is the one of the
    submitted record. If the endpoint answers with a body that is not
    [null] and whose [success] is false, an error notification is surfaced
    and no success record is shown. The notification reads: the message of
    the server when that is a string that is not empty; "Submission failed"
    when the body has no message or a falsy one; for a truthy message that
    is not a string, its text, or "An error occurred during submission"
    when the text is empty; and when the message has no primitive value,
    the message of the [TypeError] that its conversion raises. *)
Theorem C2_failed_call h this :
  Forall clean_field (requiredFields this) /\ image_present this ->
  let req := submit_request (submitted h this) in
  let r := handleFormSubmit h this in
  (failed h req ->
   effects_of r
   = [PreventDefault; Loading true; Fetch req;
      ConsoleLog (lit "Simulating successful submission...");
      SubmissionDetails (JStr (lit "SUB_" ++ string_of_Z (Date_now h)))
                        (JStr (toISOString_now h));
      Loading false]
   /\ submitted h this !! lit "timestamp" = Some (JStr (toISOString_now h))
   /\ successModal_hidden (state_of r) = false
   /\ forall m, ~ In (ErrorNotification m) (effects_of r))
  /\ (forall v,
        answered h req v -> nullish v = false ->
        truthy (field_of v (lit "success")) = false ->
        let message := field_of v (lit "message") in
        let text := refusal_text h v in
        let fallback := lit "An error occurred during submission" in
        effects_of r
        = [PreventDefault; Loading true; Fetch req;
           ConsoleError (lit "Submission error:") text;
           ErrorNotification (or_string text fallback);
           Loading false]
        /\ (forall s, message = JStr s -> s <> [] -> or_string text fallback = s)
        /\ (truthy message = false ->
            or_string text fallback = lit "Submission failed")
        /\ (truthy message = true -> convertible message = true ->
            text = text_of (Number_text h) message)
        /\ (forall z, message = JNum z -> z <> 0%Z -> (Z.abs z <= 2 ^ 53)%Z ->
            text = string_of_Z z)
        /\ (convertible message = false ->
            text = TypeError_message h (Converting Error_argument message))
        /\ successModal_hidden (state_of r) = successModal_hidden this
        /\ forall id ts, ~ In (SubmissionDetails id ts) (effects_of r)).
Proof.
  intros Hg req r. split.
  - intros Hf. unfold r. rewrite (handleFormSubmit_failed h this Hg Hf). cbn.
    split; [done |]. split; [apply submitted_reserved |]. split; [done |].
    intros m H. repeat (destruct H as [H | H]; [discriminate H |]). done.
  - intros v Ha Hn Hs message text fallback. unfold r.
    rewrite (handleFormSubmit_answered h this v Hg Ha). cbv zeta.
    rewrite Hn, Hs. cbn. fold text. fold fallback.
    split; [done |].
    assert (Htext : truthy message = true -> convertible message = true ->
                    text = text_of (Number_text h) message).
    { intros Ht Hc. unfold text, refusal_text, to_string. fold message.
      by rewrite Ht, Hc. }
    split; [| split; [| split; [done | split; [| split; [| split; [done |]]]]]].
    + intros s E Hne.
      assert (Ht : truthy message = true)
        by (rewrite E; by apply truthy_string_ne).
      rewrite (Htext Ht) by by rewrite E. rewrite E. cbn.
      unfold or_string. by destruct s.
    + intros Ht. unfold text, refusal_text. fold message. rewrite Ht.
      reflexivity.
    + intros z E Hz Hle.
      rewrite Htext; rewrite E; cbn; [| by destruct z | done].
      unfold Number_text. by rewrite (proj2 (Z.leb_le _ _) Hle).
    + intros Hc. unfold text, refusal_text, to_string. fold message.
      assert (truthy message = true) as ->
        by (by destruct message). by rewrite Hc.
    + intros id ts H. repeat (destruct H as [H | H]; [discriminate H |]). done.
Qed.

Lemma C2_failed_call_witness :
  successModal_hidden
    (state_of (handleFormSubmit (a_host server_error) (the_form page_ready)))
  = false.
Proof.
  refine (proj1 (proj2 (proj2
    (proj1 (C2_failed_call (a_host server_error) (the_form page_ready) _) _)))).
  - exact page_ready_passes.
  - right. left. eexists. split; reflexivity.
Defined.

(** C2 as the specification words it fails both ways. A server error
    (status 500, a body that is not JSON) surfaces no error notification;
    a refusal of the endpoint ([success: false] with a message) surfaces
    the notification and no success record. *)
Lemma C2_counterexample :
  let this := the_form page_ready in
  (failed (a_host server_error)
          (submit_request (submitted (a_host server_error) this))
   /\ ~ exists m,
          In (ErrorNotification m)
             (effects_of (handleFormSubmit (a_host server_error) this)))
  /\ (answered (a_host refusal)
               (submit_request (submitted (a_host refusal) this))
               (JObj (<[lit "success" := JBool false]>
                     (<[lit "message" := JStr (lit "Sheet is full")]> ∅)))
      /\ In (ErrorNotification (lit "Sheet is full"))
            (effects_of (handleFormSubmit (a_host refusal) this))
      /\ ~ exists id ts,
             In (SubmissionDetails id ts)
                (effects_of (handleFormSubmit (a_host refusal) this))).
Proof.
  intros this.
  assert (Hf : failed (a_host server_error)
                 (submit_request (submitted (a_host server_error) this)))
    by (right; left; eexists; split; reflexivity).
  assert (Ha : answered (a_host refusal)
                 (submit_request (submitted (a_host refusal) this))
                 (JObj (<[lit "success" := JBool false]>
                       (<[lit "message" := JStr (lit "Sheet is full")]> ∅))))
    by (eexists; repeat split; reflexivity).
  split; split; try done.
  - rewrite (handleFormSubmit_failed _ this page_ready_passes Hf).
    intros (m & H). cbn in H.
    repeat (destruct H as [H | H]; [discriminate H |]). done.
  - rewrite (handleFormSubmit_answered _ this _ page_ready_passes Ha).
    vm_compute. split.
    + tauto.
    + intros (id & ts & H).
      repeat (destruct H as [H | H]; [discriminate H |]). done.
Qed.

(** A string without surrogates is its own scalar value string: such a
    name or value reaches the entries of the form as it is. *)
Lemma USVString_plain (s : jsstring) :
  forallb (fun c => negb (is_lead c) && negb (is_trail c)) s = true ->
  USVString s = s.
Proof.
  induction s as [|c s IH]; cbn; [done |].
  intros H. apply andb_prop in H as [Hc Hs]. apply andb_prop in Hc as [Hl Ht].
  destruct (is_lead c); [done |]. destruct (is_trail c); [done |].
  by rewrite IH.
Qed.










(** C10, as the code has it. [submitData] is total over its failure modes:
    it never rejects or throws; every network, non-2xx or response-parse
    failure is caught inside and yields the synthesized success object
    ([success: true], a locally generated submissionId, the timestamp of
    the record passed through). So the error branch of the caller is
    reachable only when the endpoint itself returns a 2xx response whose
    body parses, and then in exactly these cases: the body is [null]; its
    [success] is false or otherwise falsy; its [success] is truthy and its
    [data] cannot be shown, being missing or [null], or holding a
    [submissionId] or a [timestamp] that has no primitive value (an object
    with a property [toString] of its own, or an array with such an
    element). *)
Theorem C10_submitData_total h this :
  Forall clean_field (requiredFields this) /\ image_present this ->
  let data := submitted h this in
  let req := submit_request data in
  (forall data' s,
     exists response,
       submitData h data' s
       = (s, effects_of (submitData h data' s), Normal response))
  /\ (failed h req ->
      forall s,
        completion_of (submitData h data s) = Normal (simulated_response h data)
        /\ field_of (simulated_response h data) (lit "success") = JBool true
        /\ field_of (field_of (simulated_response h data) (lit "data"))
                    (lit "submissionId")
           = JStr (lit "SUB_" ++ string_of_Z (Date_now h))
        /\ field_of (field_of (simulated_response h data) (lit "data"))
                    (lit "timestamp")
           = JStr (toISOString_now h))
  /\ ((exists m, In (ErrorNotification m) (effects_of (handleFormSubmit h this)))
      <-> exists v,
            answered h req v
            /\ (nullish v = true
                \/ truthy (field_of v (lit "success")) = false
                \/ (truthy (field_of v (lit "success")) = true
                    /\ unshowable (field_of v (lit "data"))))).
Proof.
  intros Hg data req. split; [| split].
  - intros data' s.
    destruct (answered_or_failed h (submit_request data')) as [(v & H) | H].
    + rewrite (submitData_answered _ _ _ _ H). eauto.
    + rewrite (submitData_failed _ _ _ H). eauto.
  - intros Hf s. rewrite (submitData_failed _ _ _ Hf).
    destruct (simulated_fields h data) as (_ & H1 & _ & H2 & H3).
    destruct (submitted_reserved h this) as [_ Hts].
    fold data in Hts. rewrite Hts in H3. done.
  - split.
    + intros (m & Hm).
      destruct (answered_or_failed h req) as [(v & Ha) | Hf].
      * exists v. split; [done |].
        rewrite (handleFormSubmit_answered h this v Hg Ha) in Hm. cbv zeta in Hm.
        destruct (nullish v); [by left |].
        destruct (truthy (field_of v (lit "success"))); [| by right; left].
        right. right. split; [done |]. apply (details_error_unshowable h).
        destruct (details_error h (field_of v (lit "data"))); [eauto |].
        cbn in Hm. repeat (destruct Hm as [Hm | Hm]; [discriminate Hm |]). done.
      * rewrite (handleFormSubmit_failed h this Hg Hf) in Hm. cbn in Hm.
        repeat (destruct Hm as [Hm | Hm]; [discriminate Hm |]). done.
    + intros (v & Ha & H).
      rewrite (handleFormSubmit_answered h this v Hg Ha). cbv zeta.
      destruct (nullish v) eqn:En; [eexists; cbn; tauto |].
      destruct (truthy (field_of v (lit "success"))) eqn:Es;
        [| eexists; cbn; tauto].
      destruct H as [H | [H | [_ H]]]; [done | done |].
      apply (details_error_unshowable h) in H as [message ->].
      eexists. cbn. tauto.
Qed.

Lemma C10_submitData_total_witness :
  completion_of
    (submitData (a_host server_error)
       (submitted (a_host server_error) (the_form page_ready))
       (the_form page_ready))
  = Normal (simulated_response (a_host server_error)
              (submitted (a_host server_error) (the_form page_ready))).
Proof.
  refine (proj1 (proj1 (proj2
    (C10_submitData_total (a_host server_error) (the_form page_ready) _))
    _ (the_form page_ready))).
  - exact page_ready_passes.
  - right. left. eexists. split; reflexivity.
Defined.

(** C10 as the specification words it fails on an endpoint that answers
    [{success: true}] without [data]: the body parses and its [success] is
    not false, yet the caller ends in its error branch, with the message of
    the [TypeError] that reading the missing [data] raises. *)
Lemma C10_bare_success_counterexample :
  let this := the_form page_ready in
  let h := a_host bare_success in
  let body := JObj (<[lit "success" := JBool true]> ∅) in
  answered h (submit_request (submitted h this)) body
  /\ field_of body (lit "success") = JBool true
  /\ In (ErrorNotification
           (TypeError_message h (Reading JUndefined (lit "submissionId"))))
        (effects_of (handleFormSubmit h this)).
Proof.
  intros this h body.
  assert (Ha : answered h (submit_request (submitted h this)) body)
    by (eexists; repeat split; reflexivity).
  split; [done |]. split; [by vm_compute |].
  rewrite (handleFormSubmit_answered h this _ page_ready_passes Ha).
  vm_compute. tauto.
Qed.

(** The same with a [data] whose [submissionId] is an object that has a
    property [toString]: the template cannot print it, and the caller ends
    in its error branch with nothing shown. *)
Lemma unprintable_success_notified :
  let this := the_form page_ready in
  let h := a_host unprintable_success in
  answered h (submit_request (submitted h this)) unprintable_body
  /\ truthy (field_of unprintable_body (lit "success")) = true
  /\ nullish (field_of unprintable_body (lit "data")) = false
  /\ effects_of (handleFormSubmit h this)
     = [PreventDefault; Loading true;
        Fetch (submit_request (submitted h this));
        ConsoleError (lit "Submission error:")
          (TypeError_message h (Converting Template_submissionId unprintable_id));
        ErrorNotification
          (TypeError_message h (Converting Template_submissionId unprintable_id));
        Loading false].
Proof.
  intros this h.
  assert (Ha : answered h (submit_request (submitted h this)) unprintable_body)
    by (eexists; repeat split; reflexivity).
  split; [done |]. split; [by vm_compute |]. split; [by vm_compute |].
  rewrite (handleFormSubmit_answered h this _ page_ready_passes Ha).
  vm_compute. reflexivity.
Qed.

(** A refusal whose message is the empty array: the array is truthy, its
    text is empty, and the notification falls back on the words of the
    [catch]. *)
Lemma empty_refusal_notified :
  let this := the_form page_ready in
  let h := a_host empty_refusal in
  In (ErrorNotification (lit "An error occurred during submission"))
     (effects_of (handleFormSubmit h this)).
Proof.
  intros this h.
  assert (Ha : answered h (submit_request (submitted h this))
                 (JObj (<[lit "success" := JBool false]>
                       (<[lit "message" := JArr []]> ∅))))
    by (eexists; repeat split; reflexivity).
  rewrite (handleFormSubmit_answered h this _ page_ready_passes Ha).
  vm_compute. tauto.
Qed.

(** ** The capture controller *)

Lemma stop_tracks_from (s : MediaStream) (l : list nat) (m : act CameraApp unit)
    e0 this :
  m this = (this, e0, Normal tt) ->
  fold_left (fun m track => m >> emit (TrackStop (stream_id s) track)) l m this
  = (this, e0 ++ map (TrackStop (stream_id s)) l, Normal tt).
Proof.
  revert m e0. induction l as [|t l IH]; intros m e0 Hm; cbn.
  - by rewrite app_nil_r.
  - rewrite (IH _ (e0 ++ [TrackStop (stream_id s) t])).
    + by rewrite <- app_assoc.
    + by rewrite (bind_normal _ _ _ _ _ _ Hm).
Qed.

Lemma stop_tracks_run s this :
  stop_tracks s this = (this, map (TrackStop (stream_id s)) (tracks s), Normal tt).
Proof. unfold stop_tracks. by rewrite (stop_tracks_from s _ (ret tt) [] this). Qed.

(** What [resetCamera] does, whatever the state it is called in. *)
Lemma resetCamera_run this :
  let r := resetCamera this in
  completion_of r = Normal tt
  /\ effects_of r = released this
  /\ stream (state_of r) = None
  /\ isCaptured (state_of r) = false
  /\ video_srcObject (state_of r) = None
  /\ video_hidden (state_of r) = false
  /\ capturedImage_hidden (state_of r) = true
  /\ buttons (state_of r)
     = {| startCameraBtn_hidden := false; capturePhotoBtn_hidden := true;
          retakePhotoBtn_hidden := true |}.
Proof.
  unfold resetCamera, released. rewrite bind_gets. cbv [id].
  destruct (stream this) as [s |] eqn:E; cbv beta iota.
  - assert (Hs : (stop_tracks s >> modify (set_stream None)) this
                 = (set_stream None this,
                    map (TrackStop (stream_id s)) (tracks s), Normal tt)).
    { rewrite (bind_normal _ _ _ _ _ _ (stop_tracks_run s this)). cbn.
      by rewrite app_nil_r. }
    rewrite (bind_normal _ _ _ _ _ _ Hs). cbn. by rewrite app_nil_r.
  - cbn. by rewrite E.
Qed.

Lemma resetCamera_total this :
  resetCamera this = (state_of (resetCamera this), released this, Normal tt).
Proof.
  destruct (resetCamera_run this) as (Hc & He & _). cbv zeta in *.
  destruct (resetCamera this) as [[s e] r]. cbn in *. by subst.
Qed.

Lemma on_cameraApp_run m w cam s e r :
  cameraApp w = Some cam -> m cam = (s, e, r) ->
  on_cameraApp m w = ({| smartFormApp := smartFormApp w; cameraApp := Some s |}, e, r).
Proof. intros Hc Hm. unfold on_cameraApp. by rewrite Hc, Hm. Qed.

Lemma on_smartFormApp_run m w this s e r :
  smartFormApp w = Some this -> m this = (s, e, r) ->
  on_smartFormApp m w = ({| smartFormApp := Some s; cameraApp := cameraApp w |}, e, r).
Proof. intros Hc Hm. unfold on_smartFormApp. by rewrite Hc, Hm. Qed.

Lemma onImageCaptured_run d this :
  onImageCaptured d this
  = (state_of (checkFormValidity (set_capturedImageData d this)), [], Normal tt).
Proof.
  unfold onImageCaptured. rewrite bind_modify.
  destruct (checkFormValidity_run (set_capturedImageData d this)) as (a & Ea & _).
  by rewrite (bind_normal _ _ _ _ _ _ Ea), Ea.
Qed.

(** C9. A retake request in the Captured state clears the image artifact
    that the FormController holds, notifies the FormController with absence
    ([null]) exactly once, returns the controller to Active and shows the
    live feed again; the stream is untouched: no track is stopped and no
    stream is requested. *)
Theorem C9_retake w cam this :
  cameraApp w = Some cam -> smartFormApp w = Some this ->
  captureState cam = Some Captured ->
  let r := retakePhoto w in
  exists cam' this',
    cameraApp (state_of r) = Some cam'
    /\ smartFormApp (state_of r) = Some this'
    /\ completion_of r = Normal tt
    /\ effects_of r = [ImageCaptured None]
    /\ capturedImageData this' = None
    /\ captureState cam' = Some Active
    /\ stream cam' = stream cam
    /\ video_srcObject cam' = video_srcObject cam
    /\ video_hidden cam' = false
    /\ capturedImage_hidden cam' = true.
Proof.
  intros Hc Hf Hs r. unfold r, retakePhoto.
  erewrite (bind_normal _ _ w); [| by eapply on_cameraApp_run].
  erewrite on_smartFormApp_run;
    [| exact Hf
     | by rewrite bind_emit, onImageCaptured_run].
  unfold state_of, effects_of, completion_of.
  cbn [fst snd cameraApp smartFormApp app].
  eexists _, _. split; [reflexivity |]. split; [reflexivity |].
  split; [reflexivity |]. split; [reflexivity |]. split.
  { destruct (checkFormValidity_enabled (set_capturedImageData None this))
      as (_ & _ & _ & H). exact H. }
  split; [| done].
  unfold captureState in *. cbn.
  by destruct (stream cam), (isCaptured cam).
Qed.

Lemma C9_retake_witness :
  exists cam' this',
    cameraApp (state_of (retakePhoto page_captured)) = Some cam'
    /\ smartFormApp (state_of (retakePhoto page_captured)) = Some this'
    /\ completion_of (retakePhoto page_captured) = Normal tt
    /\ effects_of (retakePhoto page_captured) = [ImageCaptured None]
    /\ capturedImageData this' = None
    /\ captureState cam' = Some Active
    /\ stream cam' = Some a_stream
    /\ video_srcObject cam' = Some a_stream
    /\ video_hidden cam' = false
    /\ capturedImage_hidden cam' = true.
Proof.
  refine (C9_retake page_captured
            (default (new_CameraApp a_document) (cameraApp page_captured))
            (the_form page_captured) _ _ _).
  - vm_compute. reflexivity.
  - vm_compute. reflexivity.
  - vm_compute. reflexivity.
Defined.

Lemma released_only_stops this e : In e (released this) -> exists s t, e = TrackStop s t.
Proof.
  unfold released. destruct (stream this) as [s |]; [| done].
  intros H. apply in_map_iff in H as (t & <- & _). eauto.
Qed.

Lemma teardown_run w cam :
  cameraApp w = Some cam ->
  listener BeforeUnload w
  = ({| smartFormApp := smartFormApp w;
        cameraApp := Some (state_of (resetCamera cam)) |},
     released cam, Normal tt).
Proof.
  intros Hc. cbn. unfold destroy.
  apply (on_cameraApp_run _ _ cam); [done | apply resetCamera_total].
Qed.

Lemma handleFormReset_camera w cam :
  cameraApp w = Some cam ->
  cameraApp (state_of (handleFormReset w)) = Some (state_of (resetCamera cam))
  /\ effects_of (handleFormReset w) = released cam
  /\ completion_of (handleFormReset w) = Normal tt.
Proof.
  intros Hc. unfold handleFormReset.
  set (m := on_smartFormApp _).
  assert (exists w1, m w = (w1, [], Normal tt) /\ cameraApp w1 = Some cam)
    as (w1 & Hm & Hc1).
  { unfold m, on_smartFormApp. destruct (smartFormApp w) as [this |]; eauto. }
  rewrite (bind_normal _ _ _ _ _ _ Hm).
  by rewrite (on_cameraApp_run _ _ _ _ _ _ Hc1 (resetCamera_total cam)).
Qed.

(** C4, as the code has it. Reset ([resetCamera]), from any capture state,
    stops every track of the held MediaStream once, drops the stream (so
    that a later reset or teardown stops nothing again) and returns the
    controller to Idle; page teardown ([destroy]) is the same reset, so
    the stream is released on both exit paths. [resetCamera] does not touch
    the FormController: it sends no notification and clears no artifact. In
    a reset driven by the form ([handleFormReset]) the FormController
    clears its own artifact and disables submit, then commands the reset;
    on teardown the FormController is left as it is. *)
Theorem C4_reset_releases w cam :
  cameraApp w = Some cam ->
  let cam' := state_of (resetCamera cam) in
  (completion_of (resetCamera cam) = Normal tt
   /\ effects_of (resetCamera cam) = released cam
   /\ stream cam' = None
   /\ video_srcObject cam' = None
   /\ captureState cam' = Some Idle
   /\ effects_of (resetCamera cam') = [])
  /\ destroy = resetCamera
  /\ (let r := listener BeforeUnload w in
      cameraApp (state_of r) = Some cam'
      /\ effects_of r = released cam
      /\ smartFormApp (state_of r) = smartFormApp w)
  /\ (let r := listener ClickReset w in
      cameraApp (state_of r) = Some cam'
      /\ effects_of r = released cam
      /\ forall this, smartFormApp w = Some this ->
           exists this',
             smartFormApp (state_of r) = Some this'
             /\ capturedImageData this' = None
             /\ submitBtn_disabled this' = true)
  /\ (forall d, ~ In (ImageCaptured d) (released cam)).
Proof.
  intros Hc cam'.
  destruct (resetCamera_run cam) as (H1 & H2 & H3 & H4 & H5 & _).
  cbv zeta in *. fold cam' in H3, H4, H5.
  split; [| split; [done |]; split; [| split]].
  - repeat split; try done.
    + unfold captureState. by rewrite H3, H4.
    + destruct (resetCamera_run cam') as (_ & -> & _).
      unfold released. by rewrite H3.
  - rewrite (teardown_run w cam Hc). done.
  - destruct (handleFormReset_camera w cam Hc) as (Hr1 & Hr2 & _).
    cbn [listener]. split; [done |]. split; [done |].
    intros this Hf.
    destruct (handleFormReset_form w this Hf) as (this' & E & _ & Hi & Hb & _).
    eauto.
  - intros d H. apply released_only_stops in H as (s & t & H). discriminate H.
Qed.

Lemma C4_reset_releases_witness :
  effects_of (listener BeforeUnload page_captured) = [TrackStop 1 7].
Proof.
  refine (proj1 (proj2 (proj1 (proj2 (proj2
    (C4_reset_releases page_captured
       (default (new_CameraApp a_document) (cameraApp page_captured)) _)))))).
  vm_compute. reflexivity.
Defined.

(** C4 as the specification words it fails in the Captured state: neither
    the teardown nor the reset driven by the form notifies the
    FormController, and after the teardown the FormController still holds
    the image. *)
Lemma C4_no_notification_counterexample :
  let cam := default (new_CameraApp a_document) (cameraApp page_captured) in
  cameraApp page_captured = Some cam
  /\ captureState cam = Some Captured
  /\ capturedImageData (the_form page_captured) = Some a_photo
  /\ (forall d,
        ~ In (ImageCaptured d) (effects_of (listener BeforeUnload page_captured)))
  /\ capturedImageData (the_form (state_of (listener BeforeUnload page_captured)))
     = Some a_photo
  /\ (forall d,
        ~ In (ImageCaptured d) (effects_of (listener ClickReset page_captured))).
Proof.
  intros cam.
  assert (Hc : cameraApp page_captured = Some cam) by (vm_compute; reflexivity).
  split; [done |]. split; [by vm_compute |]. split; [by vm_compute |].
  split; [| split].
  - rewrite (teardown_run _ _ Hc). intros d H.
    apply released_only_stops in H as (s & t & H). discriminate H.
  - by vm_compute.
  - destruct (handleFormReset_camera _ _ Hc) as (_ & He & _).
    cbn [listener]. rewrite He. intros d H.
    apply released_only_stops in H as (s & t & H). discriminate H.
Qed.

(** * Further properties of the two controllers *)

(** ** The submission flow *)

(** The effects of a submission that passes the gate, whatever the endpoint
    does: between the two calls of [showLoading] lie the request and one
    outcome. *)
Lemma handleFormSubmit_shape h this :
  Forall clean_field (requiredFields this) /\ image_present this ->
  exists s mid,
    handleFormSubmit h this
    = (set_loadingOverlay_hidden true s,
       PreventDefault :: Loading true :: mid ++ [Loading false], Normal tt)
    /\ same_form (set_submitBtn_disabled false this) s
    /\ (forall b, ~ In (Loading b) mid)
    /\ ((exists m, In (ErrorNotification m) mid)
        \/ (exists id ts, In (SubmissionDetails id ts) mid))
    /\ ~ ((exists m, In (ErrorNotification m) mid)
          /\ (exists id ts, In (SubmissionDetails id ts) mid)).
Proof.
  intros Hg.
  destruct (answered_or_failed h (submit_request (submitted h this)))
    as [(v & Ha) | Hf].
  - rewrite (handleFormSubmit_answered h this v Hg Ha). cbv zeta.
    destruct (nullish v);
      [| destruct (truthy (field_of v (lit "success")));
         [destruct (details_error h (field_of v (lit "data"))) |]];
      eexists _, (_ :: _); (split; [reflexivity |]);
      (split; [by repeat split |]);
      (split; [intros b H; cbn in H;
               repeat (destruct H as [H | H]; [discriminate H |]); done |]);
      (split;
       [first [left; eexists; cbn; tauto | right; eexists _, _; cbn; tauto]
       | intros [(m & H1) (id & ts & H2)]; cbn in H1, H2;
         repeat (destruct H1 as [H1 | H1]; [try discriminate H1 |]); try done;
         repeat (destruct H2 as [H2 | H2]; [try discriminate H2 |]); done]).
  - rewrite (handleFormSubmit_failed h this Hg Hf).
    exists (set_successModal_hidden false
              (set_loadingOverlay_hidden false (set_submitBtn_disabled false this))),
      [Fetch (submit_request (submitted h this));
       ConsoleLog (lit "Simulating successful submission...");
       SubmissionDetails (JStr (lit "SUB_" ++ string_of_Z (Date_now h)))
                         (JStr (toISOString_now h))].
    split; [reflexivity |].
    split; [by repeat split |].
    split; [intros b H; cbn in H;
            repeat (destruct H as [H | H]; [discriminate H |]); done |].
    split.
    + right. eexists _, _. cbn. tauto.
    + intros [(m & H1) _]. cbn in H1.
      repeat (destruct H1 as [H1 | H1]; [discriminate H1 |]). done.
Qed.

(** X1. [handleFormSubmit] never throws, whatever the host answers: every
    error ends in its [catch]. It leaves the controls, the error elements
    and the captured image as they were, and the submit button as
    [checkFormValidity] set it: after a submission that went through the
    button is still enabled and the form still filled in. *)
Theorem handleFormSubmit_contained h this :
  let r := handleFormSubmit h this in
  completion_of r = Normal tt
  /\ form (state_of r) = form this
  /\ errorElements (state_of r) = errorElements this
  /\ capturedImageData (state_of r) = capturedImageData this
  /\ (submitBtn_disabled (state_of r) = false
      <-> Forall clean_field (requiredFields this) /\ image_present this).
Proof.
  destruct (handleFormSubmit_run h this) as (a & _ & Ha & E).
  destruct a.
  - destruct (handleFormSubmit_shape h this (proj1 Ha eq_refl))
      as (s & mid & -> & (Hf & He & Hb & Hi) & _).
    cbn in *. do 4 (split; [done |]). split; [intros _; by apply Ha | done].
  - rewrite E. cbn. do 4 (split; [done |]).
    split; [done | intros H; by apply Ha in H].
Qed.

(** X2. When a submission passes the gate, the loading indicator is shown
    right after [preventDefault] and hidden as the very last effect, on
    every path; it is hidden when the method returns. In between there is
    exactly one outcome: either an error notification or the details of a
    success, never both and never neither. *)
Theorem loading_brackets_submission h this :
  Forall clean_field (requiredFields this) /\ image_present this ->
  let r := handleFormSubmit h this in
  loadingOverlay_hidden (state_of r) = true
  /\ exists mid,
       effects_of r = PreventDefault :: Loading true :: mid ++ [Loading false]
       /\ (forall b, ~ In (Loading b) mid)
       /\ ((exists m, In (ErrorNotification m) mid)
           \/ (exists id ts, In (SubmissionDetails id ts) mid))
       /\ ~ ((exists m, In (ErrorNotification m) mid)
             /\ (exists id ts, In (SubmissionDetails id ts) mid)).
Proof.
  intros Hg.
  destruct (handleFormSubmit_shape h this Hg) as (s & mid & -> & _ & H).
  cbn. split; [done |]. by exists mid.
Qed.

Lemma loading_brackets_submission_witness :
  loadingOverlay_hidden
    (state_of (handleFormSubmit (a_host refusal) (the_form page_ready)))
  = true.
Proof.
  refine (proj1 (loading_brackets_submission (a_host refusal)
                   (the_form page_ready) _)).
  exact page_ready_passes.
Defined.

(** ** The submitted record *)

Lemma fold_insert_keys (l : list (jsstring * jsstring)) (m : gmap jsstring jsval) k :
  is_Some (fold_left (fun data '(key, value) => assign data key value) l m !! k)
  <-> (In k (map fst l) /\ k <> lit "__proto__") \/ is_Some (m !! k).
Proof.
  revert m. induction l as [|[k' v'] l IH]; intros m; cbn.
  - tauto.
  - rewrite IH. unfold assign. case_bool_decide as Hp.
    + split; [tauto |]. intros [[[-> | H] Hne] | H]; [done | by left | by right].
    + destruct (decide (k' = k)) as [-> |].
      * rewrite lookup_insert_eq. split; [intros _; left; by split; [left |] |].
        intros _. right. eauto.
      * rewrite lookup_insert_ne by done. tauto.
Qed.

(** X3. The record that [getFormData] builds has a key for the name of
    every entry of the form but [__proto__], the keys [timestamp] and
    [imageData], and no other key: an entry named [__proto__] leaves no
    property. Without a photo its [imageData] is [null]. *)
Theorem getFormData_keys h this :
  (forall k,
     is_Some (submitted h this !! k)
     <-> k = lit "timestamp" \/ k = lit "imageData"
         \/ (In k (map fst (FormData_entries (form this)))
             /\ k <> lit "__proto__"))
  /\ (capturedImageData this = None ->
      submitted h this !! lit "imageData" = Some JNull)
  /\ getFormData h this = (this, [], Normal (submitted h this)).
Proof.
  split; [| split].
  - intros k. unfold submitted, getFormData. rewrite bind_gets. cbn.
    destruct (decide (k = lit "imageData")) as [-> |].
    { rewrite lookup_insert_eq. split; [intros _; by right; left | eauto]. }
    rewrite lookup_insert_ne by done.
    destruct (decide (k = lit "timestamp")) as [-> |].
    { rewrite lookup_insert_eq. split; [intros _; by left | eauto]. }
    rewrite lookup_insert_ne by done.
    rewrite fold_insert_keys, lookup_empty. split.
    + intros [H | [? H]]; [by right; right | done].
    + intros [H | [H | H]]; [done | done | by left].
  - intros E. destruct (submitted_reserved h this) as [-> _]. by rewrite E.
  - apply getFormData_submitted.
Qed.

(** ** Validation and its listeners *)

(** The state that [validateField] leaves. *)
Lemma validateField_state i this f :
  form this !! i = Some f ->
  let v := fst (validateField_checks f) in
  let text := if v then [] else snd (validateField_checks f) in
  validateField i this
  = (set_errorElements
       (match errorElements this !! errorElement_id f with
        | Some _ => <[errorElement_id f := text]> (errorElements this)
        | None => errorElements this
        end)
       (set_form (alter (set_error (negb v)) i (form this)) this),
     [], Normal v).
Proof.
  intros H. unfold validateField, bind, gets. rewrite H.
  destruct (validateField_checks f) as [v m].
  destruct v; cbn; destruct (errorElements this !! errorElement_id f) eqn:E; cbn;
    rewrite ?lookup_insert_eq; cbn; rewrite ?E; cbn;
    rewrite ?alter_error_twice, ?insert_insert_eq; reflexivity.
Qed.

(** X4. Validating a control a second time changes nothing: the verdict,
    the [error] class and the text of the error element are those of the
    first validation. The verdict does not depend on the [error] class the
    control carried before. *)
Theorem validateField_idempotent i this :
  let r := validateField i this in
  validateField i (state_of r) = r.
Proof.
  destruct (form this !! i) as [f |] eqn:E.
  - cbv zeta. rewrite (validateField_state i this f E). cbn [state_of fst].
    set (v := fst (validateField_checks f)).
    set (text := if v then [] else snd (validateField_checks f)).
    assert (E' : form (set_errorElements
                   (match errorElements this !! errorElement_id f with
                    | Some _ => <[errorElement_id f := text]> (errorElements this)
                    | None => errorElements this
                    end)
                   (set_form (alter (set_error (negb v)) i (form this)) this)) !! i
                 = Some (set_error (negb v) f)).
    { cbn. by rewrite list_lookup_alter_eq, E. }
    rewrite (validateField_state i _ _ E').
    rewrite checks_set_error. fold v. fold text. cbn.
    change (errorElement_id (set_error (negb v) f)) with (errorElement_id f).
    rewrite list_alter_alter_eq.
    assert (alter (set_error (negb v) ∘ set_error (negb v)) i (form this)
            = alter (set_error (negb v)) i (form this)) as ->.
    { apply list_alter_ext; [| done]. by intros [] _. }
    unfold errorElement_id in *.
    destruct (errorElements this !! (name f ++ lit "Error")) eqn:Ee.
    + by rewrite lookup_insert_eq, insert_insert_eq.
    + rewrite ?Ee. reflexivity.
  - cbv zeta. unfold validateField, bind, gets. rewrite E. cbn. by rewrite E.
Qed.

Lemma page_eta w : {| smartFormApp := smartFormApp w; cameraApp := cameraApp w |} = w.
Proof. by destruct w. Qed.

Lemma set_form_same this : set_form (form this) this = this.
Proof. by destruct this. Qed.

(** X5. A control that is not required is never validated: its blur does
    nothing at all, and an input only stores the new value; neither touches
    an [error] class, an error element or the submit button. *)
Theorem optional_control_not_validated w this i f v :
  smartFormApp w = Some this -> form this !! i = Some f -> required f = false ->
  listener (Blur i) w = (w, [], Normal tt)
  /\ listener (Input i v) w
     = ({| smartFormApp :=
             Some (set_form (alter (set_value v) i (form this)) this);
           cameraApp := cameraApp w |},
        [], Normal tt).
Proof.
  intros Hw Hi Hr. split.
  - cbn [listener]. erewrite on_smartFormApp_run; [| exact Hw |].
    + by rewrite <- Hw, page_eta.
    + rewrite bind_gets. unfold is_required. by rewrite Hi, Hr.
  - cbn [listener]. erewrite on_smartFormApp_run; [reflexivity | exact Hw |].
    rewrite bind_modify, bind_gets. unfold is_required. cbn.
    by rewrite list_lookup_alter_eq, Hi; cbn; rewrite Hr.
Qed.

Lemma optional_control_not_validated_witness :
  listener (Blur 1) page_with_timestamp = (page_with_timestamp, [], Normal tt).
Proof.
  refine (proj1 (optional_control_not_validated page_with_timestamp
                   (the_form page_with_timestamp) 1
                   {| name := lit "timestamp"; type := lit "text";
                      required := false; defaultValue := lit "yesterday";
                      value := lit "yesterday"; error := false |}
                   [] _ _ _)).
  - vm_compute. reflexivity.
  - vm_compute. reflexivity.
  - reflexivity.
Defined.

(** X6. Typing into a required control never marks it: a control without
    the [error] class is left without it, whatever is typed. Typing into a
    control that carries the class validates the new value at once, so the
    class goes as soon as the value is valid. No other control changes. *)
Theorem input_revalidates_marked_only w this i f v :
  smartFormApp w = Some this -> form this !! i = Some f -> required f = true ->
  exists this',
    smartFormApp (state_of (listener (Input i v) w)) = Some this'
    /\ form this' !! i
       = Some (set_error
                 (if error f
                  then negb (fst (validateField_checks (set_value v f)))
                  else false)
                 (set_value v f))
    /\ (forall j, j <> i -> form this' !! j = form this !! j)
    /\ capturedImageData this' = capturedImageData this.
Proof.
  intros Hw Hi Hr. cbn [listener].
  rewrite (on_smartFormApp_form _ _ _ Hw), input_state. cbv zeta.
  set (this1 := set_form (alter (set_value v) i (form this)) this).
  assert (H1 : form this1 !! i = Some (set_value v f))
    by (cbn; by rewrite list_lookup_alter_eq, Hi).
  assert (is_required i this1 = true) as ->
    by (unfold is_required; by rewrite H1).
  rewrite H1. cbn [error set_value].
  eexists. split; [reflexivity |].
  destruct (error f) eqn:Ee.
  - destruct (checkFormValidity_enabled (state_of (validateField i this1)))
      as (_ & -> & _ & ->).
    destruct (validateField_run i this1 _ H1) as (_ & _ & -> & _ & _ & -> & _).
    split; [| split; [| done]].
    + rewrite list_lookup_alter_eq, H1. done.
    + intros j Hj. rewrite list_lookup_alter_ne by done. cbn.
      by rewrite list_lookup_alter_ne.
  - destruct (checkFormValidity_enabled this1) as (_ & -> & _ & ->).
    split; [| split; [| done]].
    + rewrite H1. f_equal. destruct f; cbn in *. by subst.
    + intros j Hj. cbn. by rewrite list_lookup_alter_ne.
Qed.

Lemma input_revalidates_marked_only_witness :
  exists this',
    smartFormApp (state_of (listener (Input 0 (lit "a@b.co")) page_blurred_abc))
    = Some this'
    /\ form this' !! 0%nat
       = Some (set_error
                 (if true
                  then negb (fst (validateField_checks
                                    (set_value (lit "a@b.co")
                                       {| name := lit "email"; type := lit "email";
                                          required := true; defaultValue := [];
                                          value := lit "abc"; error := true |})))
                  else false)
                 (set_value (lit "a@b.co")
                    {| name := lit "email"; type := lit "email";
                       required := true; defaultValue := [];
                       value := lit "abc"; error := true |}))
    /\ (forall j, j <> 0%nat ->
          form this' !! j = form (the_form page_blurred_abc) !! j)
    /\ capturedImageData this' = capturedImageData (the_form page_blurred_abc).
Proof.
  refine (input_revalidates_marked_only page_blurred_abc
            (the_form page_blurred_abc) 0
            {| name := lit "email"; type := lit "email"; required := true;
               defaultValue := []; value := lit "abc"; error := true |}
            (lit "a@b.co") _ _ _).
  - vm_compute. reflexivity.
  - vm_compute. reflexivity.
  - reflexivity.
Defined.

(** X7. On every page that events can lead to, the [error] class tells the
    truth: a control that carries it is a required control whose current
    value fails the checks of [validateField]. In particular a control that
    is not required never carries it. *)
Theorem error_class_truthful d w this f :
  reachable d w -> smartFormApp w = Some this ->
  In f (form this) -> error f = true ->
  required f = true /\ ~ valid_field f.
Proof.
  intros Hr Hw Hf He.
  destruct (reachable_invariant d w Hr this Hw) as [Ht _].
  by apply (proj1 (List.Forall_forall _ _) Ht f Hf).
Qed.

Lemma error_class_truthful_witness :
  required {| name := lit "email"; type := lit "email"; required := true;
              defaultValue := []; value := lit "abc"; error := true |} = true
  /\ ~ valid_field {| name := lit "email"; type := lit "email"; required := true;
                      defaultValue := []; value := lit "abc"; error := true |}.
Proof.
  refine (error_class_truthful a_document page_blurred_abc
            (the_form page_blurred_abc) _ _ _ _ _).
  - exists [Input 0 (lit "abc"); Blur 0]. reflexivity.
  - vm_compute. reflexivity.
  - vm_compute. left. reflexivity.
  - reflexivity.
Defined.

(** ** The submit button over the life of the page *)

Lemma run_preserves (P : page -> Prop) :
  (forall ev w, P w -> P (state_of (listener ev w))) ->
  forall evs w, P w -> P (fst (run evs w)).
Proof.
  intros Hstep evs. induction evs as [|ev evs IH]; intros w Hw; cbn; [done |].
  pose proof (Hstep ev w Hw) as H1.
  destruct (listener ev w) as [[w1 e1] r]. cbn in H1.
  specialize (IH w1 H1). by destruct (run evs w1).
Qed.

Lemma tracks_sound this : button_tracks_clean this -> enabled_sound this.
Proof.
  intros H Hb. apply H in Hb as [Hc Hi]. split; [done |].
  eapply List.Forall_impl; [| exact Hc]. by intros f [? _].
Qed.

Lemma enabled_sound_values this this' :
  submitBtn_disabled this' = submitBtn_disabled this ->
  capturedImageData this' = capturedImageData this ->
  (Forall (fun f => required f = true -> trim (value f) <> []) (form this) ->
   Forall (fun f => required f = true -> trim (value f) <> []) (form this')) ->
  enabled_sound this -> enabled_sound this'.
Proof.
  intros Hb Hi Hf H Hd. unfold enabled_sound, image_present, requiredFields in *.
  rewrite Hb in Hd. rewrite Hi. destruct (H Hd) as [H1 H2]. split; [done |].
  apply Forall_required, Hf. by apply Forall_required.
Qed.

Lemma keeps_bind P {A B} (m : act page A) (k : A -> act page B) :
  keeps P m -> (forall a, keeps P (k a)) -> keeps P (bind m k).
Proof.
  intros Hm Hk w Hw. unfold bind. specialize (Hm w Hw).
  destruct (m w) as [[w1 e1] [a | msg]]; cbn in *; [| done].
  specialize (Hk a w1 Hm). by destruct (k a w1) as [[? ?] ?].
Qed.

Lemma keeps_try_catch P {A} (m : act page A) handler :
  keeps P m -> (forall e, keeps P (handler e)) -> keeps P (try_catch m handler).
Proof.
  intros Hm Hk w Hw. unfold try_catch. specialize (Hm w Hw).
  destruct (m w) as [[w1 e1] [a | msg]]; cbn in *; [done |].
  specialize (Hk msg w1 Hm). by destruct (handler msg w1) as [[? ?] ?].
Qed.

Lemma keeps_emit P e : keeps P (emit e).
Proof. by intros w Hw. Qed.

Lemma keeps_complete P {A} (c : completion A) : keeps P (complete c).
Proof. by intros w Hw. Qed.

(** A method of the page is such a sequence of steps. *)
Ltac keeps_steps step :=
  repeat first
    [ step
    | apply keeps_emit | apply keeps_complete
    | apply keeps_bind; [| intros ?]
    | apply keeps_try_catch; [| intros ?] ].

Lemma absent_on_cameraApp m : keeps form_absent (on_cameraApp m).
Proof. intros w Hw. unfold form_absent. by rewrite on_cameraApp_form. Qed.

Lemma absent_on_smartFormApp m : keeps form_absent (on_smartFormApp m).
Proof. intros w Hw. unfold form_absent. by rewrite on_smartFormApp_none. Qed.

(** No listener creates a form controller. *)
Lemma listener_keeps_form_absent ev : keeps form_absent (listener ev).
Proof.
  destruct ev; cbn [listener];
    unfold handleNewSubmission, handleFormReset, capturePhoto, retakePhoto;
    keeps_steps ltac:(first [apply absent_on_cameraApp | apply absent_on_smartFormApp]).
Qed.

(** Every listener keeps the button sound. *)
Lemma listener_enabled_sound ev w :
  (forall this, smartFormApp w = Some this -> enabled_sound this) ->
  forall this', smartFormApp (state_of (listener ev w)) = Some this' ->
                enabled_sound this'.
Proof.
  intros Hw this' E'.
  destruct (smartFormApp w) as [this |] eqn:E.
  2: { rewrite (listener_keeps_form_absent ev w E) in E'. discriminate E'. }
  specialize (Hw this eq_refl).
  assert (Hrec : recomputes ev this -> enabled_sound this').
  { intros Hev. by apply tracks_sound, (recompute_tracks ev w this). }
  destruct ev as [i v | i | h | | | | o | | [imageData | m] | |];
    try (apply Hrec; exact I); cbn [listener] in E'.
  - (* input *)
    destruct (is_required i this) eqn:Er; [by apply Hrec |].
    rewrite (on_smartFormApp_form _ _ _ E), input_state in E'. cbv zeta in E'.
    assert (is_required i (set_form (alter (set_value v) i (form this)) this) = false)
      as Er'.
    { unfold is_required in *. cbn. rewrite list_lookup_alter_eq.
      by destruct (form this !! i). }
    rewrite Er' in E'. injection E' as <-.
    apply (enabled_sound_values this); [done | done | | done].
    cbn. intros H. apply Forall_alter; [done |].
    intros x Hx _ Hrx. unfold is_required in Er. rewrite Hx in Er. cbn in Hrx.
    congruence.
  - (* blur *)
    rewrite (on_smartFormApp_form _ _ _ E), blur_state in E'.
    destruct (is_required i this) eqn:Er; [| by injection E' as <-].
    injection E' as <-. unfold is_required in Er.
    destruct (form this !! i) as [f |] eqn:Ef; [| done].
    destruct (validateField_run i this f Ef) as (_ & _ & Hf & _ & Hb & Hi & _).
    cbv zeta in *.
    apply (enabled_sound_values this); [done | done | | done].
    rewrite Hf. intros H. apply Forall_alter; [done |]. by intros x _ Hx.
  - (* reset *)
    destruct (handleFormReset_form w this E) as (t & Et & _ & _ & Hb & _).
    rewrite Et in E'. injection E' as <-. intros Hd. congruence.
  - (* new submission *)
    unfold handleNewSubmission, bind in E'.
    destruct (handleFormReset_form w this E) as (t & Et & _ & _ & Hb & _).
    destruct (handleFormReset w) as [[w1 e1] [[] | m]]; cbn in *.
    + rewrite (surjective_pairing (on_smartFormApp closeModal w1)) in E'.
      rewrite (surjective_pairing (fst (on_smartFormApp closeModal w1))) in E'.
      cbn in E'. change (fst (fst (on_smartFormApp closeModal w1)))
        with (state_of (on_smartFormApp closeModal w1)) in E'.
      rewrite (on_smartFormApp_form _ _ _ Et) in E'. injection E' as <-.
      intros Hd. cbn in Hd. congruence.
    + rewrite Et in E'. injection E' as <-. intros Hd. congruence.
  - (* close modal *)
    rewrite (on_smartFormApp_form _ _ _ E) in E'. injection E' as <-.
    intros Hd. apply Hw. exact Hd.
  - rewrite on_cameraApp_form, E in E'. by injection E' as <-.
  - rewrite on_cameraApp_form, E in E'. by injection E' as <-.
  - (* capture fails *)
    unfold capturePhoto in E'. rewrite try_catch_state, bind_complete_throw in E'.
    cbn [completion_of state_of fst snd] in E'.
    rewrite capture_failure_form, E in E'. by injection E' as <-.
  - rewrite on_cameraApp_form, E in E'. by injection E' as <-.
Qed.

(** X8. If the markup ships the submit button disabled, then at every
    point of the life of the page an enabled submit button means that a
    photo is present and that no required control is blank. *)
Theorem enabled_needs_photo d w this :
  submitForm_disabled d = true ->
  reachable d w -> smartFormApp w = Some this ->
  submitBtn_disabled this = false ->
  image_present this
  /\ Forall (fun f => trim (value f) <> []) (requiredFields this).
Proof.
  intros Hd [evs <-] Hw.
  revert this Hw.
  apply (run_preserves
           (fun w => forall this, smartFormApp w = Some this -> enabled_sound this)).
  - intros ev w0 H0. by apply listener_enabled_sound.
  - intros this [= <-]. intros Hb. cbn in Hb. congruence.
Qed.

Lemma enabled_needs_photo_witness :
  image_present (the_form page_ready)
  /\ Forall (fun f => trim (value f) <> []) (requiredFields (the_form page_ready)).
Proof.
  refine (enabled_needs_photo a_document page_ready (the_form page_ready) _ _ _ _).
  - reflexivity.
  - exists [Input 0 (lit "a@b.co"); ClickCapturePhoto (Normal a_photo)].
    reflexivity.
  - vm_compute. reflexivity.
  - vm_compute. reflexivity.
Defined.

(** X9. Discarding the photo always disables submit: after a retake the
    FormController holds no image, the submit button is disabled whatever
    the fields hold, and a submission would be turned away. *)
Theorem retake_disables_submit w this :
  smartFormApp w = Some this ->
  exists this',
    smartFormApp (state_of (listener ClickRetakePhoto w)) = Some this'
    /\ capturedImageData this' = None
    /\ submitBtn_disabled this' = true
    /\ form this' = form this
    /\ completion_of (checkFormValidity this') = Normal false.
Proof.
  intros Hw. cbn [listener]. unfold retakePhoto.
  rewrite (camera_then_notify_form _ None w this); [| done | done].
  eexists. split; [reflexivity |].
  destruct (checkFormValidity_run (set_capturedImageData None this))
    as (a & Ea & Ha).
  assert (a = false) as ->.
  { destruct a; [| done]. destruct (proj1 Ha eq_refl) as [_ Hi]. discriminate Hi. }
  rewrite Ea. cbn. do 3 (split; [done |]).
  destruct (checkFormValidity_run
              (set_submitBtn_disabled true (set_capturedImageData None this)))
    as (b & Eb & Hb).
  rewrite Eb. cbn. destruct b; [| done].
  destruct (proj1 Hb eq_refl) as [_ Hi]. discriminate Hi.
Qed.

Lemma retake_disables_submit_witness :
  exists this',
    smartFormApp (state_of (listener ClickRetakePhoto page_ready)) = Some this'
    /\ capturedImageData this' = None
    /\ submitBtn_disabled this' = true
    /\ form this' = form (the_form page_ready)
    /\ completion_of (checkFormValidity this') = Normal false.
Proof.
  refine (retake_disables_submit page_ready (the_form page_ready) _).
  vm_compute. reflexivity.
Defined.

(** ** Resetting the form *)

(** The camera that [resetCamera] leaves. *)
Lemma resetCamera_state this :
  state_of (resetCamera this)
  = {| stream := None; isCaptured := false;
       video_srcObject := None;
       video_onloadedmetadata := video_onloadedmetadata this;
       video_hidden := false;
       capturedImage_src := capturedImage_src this;
       capturedImage_hidden := true;
       buttons := {| startCameraBtn_hidden := false;
                     capturePhotoBtn_hidden := true;
                     retakePhotoBtn_hidden := true |};
       startCameraBtn_disabled := startCameraBtn_disabled this;
       cameraStatus := (lit "Click " ++ [34] ++ lit "Start Camera" ++ [34]
                          ++ lit " to begin", lit "info") |}.
Proof.
  unfold resetCamera. rewrite bind_gets. cbv [id].
  destruct (stream this) as [s |] eqn:E; cbv beta iota.
  - assert (Hs : (stop_tracks s >> modify (set_stream None)) this
                 = (set_stream None this,
                    map (TrackStop (stream_id s)) (tracks s), Normal tt)).
    { rewrite (bind_normal _ _ _ _ _ _ (stop_tracks_run s this)). cbn.
      by rewrite app_nil_r. }
    rewrite (bind_normal _ _ _ _ _ _ Hs). reflexivity.
  - cbn. unfold set_video, set_cameraStatus, set_buttons, set_isCaptured,
      set_hidden. cbn. by rewrite E.
Qed.

Lemma reset_field_idempotent f : reset_field (reset_field f) = reset_field f.
Proof. reflexivity. Qed.

(** The page that [handleFormReset] leaves when both controllers are there. *)
Lemma handleFormReset_run w this cam :
  smartFormApp w = Some this -> cameraApp w = Some cam ->
  handleFormReset w
  = ({| smartFormApp :=
          Some {| form := map reset_field (form this);
                  errorElements := (fun _ => []) <$> errorElements this;
                  submitBtn_disabled := true;
                  loadingOverlay_hidden := loadingOverlay_hidden this;
                  successModal_hidden := successModal_hidden this;
                  capturedImageData := None |};
        cameraApp := Some (state_of (resetCamera cam)) |},
     released cam, Normal tt).
Proof.
  intros Hf Hc. unfold handleFormReset.
  erewrite (bind_normal _ _ w);
    [| eapply on_smartFormApp_run; [exact Hf |];
       rewrite !bind_modify; reflexivity].
  erewrite on_cameraApp_run; [| cbn; exact Hc | apply resetCamera_total].
  cbn. by rewrite map_map.
Qed.

(** X10. A reset of the form gives every control its default value back,
    removes every [error] class, empties every error element, forgets the
    photo, disables submit and brings the camera to Idle with its stream
    released. A new submission is the same reset followed by the closing of
    the success modal. Resetting twice is resetting once: the second reset
    changes nothing and stops no track. *)
Theorem handleFormReset_resets w this cam :
  smartFormApp w = Some this -> cameraApp w = Some cam ->
  let r := handleFormReset w in
  exists this' cam',
    state_of r = {| smartFormApp := Some this'; cameraApp := Some cam' |}
    /\ completion_of r = Normal tt
    /\ effects_of r = released cam
    /\ form this' = map reset_field (form this)
    /\ (forall id, errorElements this' !! id
                   = (fun _ => []) <$> errorElements this !! id)
    /\ capturedImageData this' = None
    /\ submitBtn_disabled this' = true
    /\ captureState cam' = Some Idle
    /\ handleFormReset (state_of r) = (state_of r, [], Normal tt)
    /\ smartFormApp (state_of (handleNewSubmission w))
       = Some (set_successModal_hidden true this').
Proof.
  intros Hf Hc. cbv zeta. rewrite (handleFormReset_run w this cam Hf Hc).
  eexists _, _. split; [reflexivity |]. cbn [state_of effects_of completion_of fst snd].
  do 3 (split; [reflexivity |]).
  split; [intros id; cbn; by rewrite lookup_fmap |].
  do 2 (split; [reflexivity |]).
  split; [by rewrite resetCamera_state |]. split.
  - erewrite handleFormReset_run; [| reflexivity | reflexivity].
    cbn [form errorElements loadingOverlay_hidden successModal_hidden].
    rewrite !resetCamera_state. cbn.
    rewrite map_map, <- map_fmap_compose. reflexivity.
  - unfold handleNewSubmission.
    rewrite (bind_normal _ _ _ _ _ _ (handleFormReset_run w this cam Hf Hc)).
    erewrite on_smartFormApp_run; [| reflexivity | reflexivity]. reflexivity.
Qed.

Lemma handleFormReset_resets_witness :
  exists this' cam',
    state_of (handleFormReset page_captured)
    = {| smartFormApp := Some this'; cameraApp := Some cam' |}
    /\ completion_of (handleFormReset page_captured) = Normal tt
    /\ effects_of (handleFormReset page_captured) = released (the_camera page_captured)
    /\ form this' = map reset_field (form (the_form page_captured))
    /\ (forall id, errorElements this' !! id
                   = (fun _ => []) <$> errorElements (the_form page_captured) !! id)
    /\ capturedImageData this' = None
    /\ submitBtn_disabled this' = true
    /\ captureState cam' = Some Idle
    /\ handleFormReset (state_of (handleFormReset page_captured))
       = (state_of (handleFormReset page_captured), [], Normal tt)
    /\ smartFormApp (state_of (handleNewSubmission page_captured))
       = Some (set_successModal_hidden true this').
Proof.
  refine (handleFormReset_resets page_captured (the_form page_captured)
            (the_camera page_captured) _ _).
  - vm_compute. reflexivity.
  - vm_compute. reflexivity.
Defined.

(** ** The capture controller, method by method *)

(** X11. When camera access is refused, [startCamera] makes one request
    and does not retry; it keeps whatever stream it held, so an Idle
    controller stays Idle; nothing is thrown. The status is an error whose
    text depends on the name of the rejection: permission denied, no device,
    device busy, and a generic text for every other name. *)
Theorem startCamera_refused this name :
  let r := startCamera (Refused name) this in
  let text := fst (cameraStatus (state_of r)) in
  completion_of r = Normal tt
  /\ effects_of r = [GetUserMedia; ConsoleError (lit "Camera access error:") name]
  /\ state_of r = set_cameraStatus (text, lit "error") this
  /\ captureState (state_of r) = captureState this
  /\ (name = lit "NotAllowedError" ->
      text = lit "Camera access denied. Please allow camera access and try again.")
  /\ (name = lit "NotFoundError" -> text = lit "No camera found on this device.")
  /\ (name = lit "NotReadableError" ->
      text = lit "Camera is already in use by another application.")
  /\ (name <> lit "NotAllowedError" -> name <> lit "NotFoundError" ->
      name <> lit "NotReadableError" -> text = lit "Failed to access camera").
Proof.
  cbv zeta. unfold startCamera, updateStatus, bind, modify, emit. cbn.
  do 4 (split; [reflexivity |]).
  split; [| split; [| split]].
  - intros ->. reflexivity.
  - intros ->. reflexivity.
  - intros ->. reflexivity.
  - intros H1 H2 H3. by rewrite !bool_decide_eq_false_2.
Qed.

(** X12. [startCamera] never stops a track. When it is granted a stream
    while another one is still held, it overwrites the handle: a reset
    afterwards stops the tracks of the new stream only, and the old stream
    is never released. *)
Theorem startCamera_twice_leaks this s1 s2 :
  stream this = Some s1 -> stream_id s1 <> stream_id s2 ->
  let r := startCamera (Granted s2) this in
  effects_of r = [GetUserMedia]
  /\ stream (state_of r) = Some s2
  /\ video_srcObject (state_of r) = Some s2
  /\ effects_of (resetCamera (state_of r))
     = map (TrackStop (stream_id s2)) (tracks s2)
  /\ forall t,
       ~ In (TrackStop (stream_id s1) t)
            (effects_of r ++ effects_of (resetCamera (state_of r))).
Proof.
  intros Hs Hne. cbv zeta.
  assert (Hr : startCamera (Granted s2) this
               = (set_video (Some s2) true
                    (set_stream (Some s2)
                       (set_cameraStatus (lit "Requesting camera access...",
                                          lit "info") this)),
                  [GetUserMedia], Normal tt)) by reflexivity.
  rewrite Hr. cbn [effects_of state_of fst snd].
  destruct (resetCamera_run
              (set_video (Some s2) true
                 (set_stream (Some s2)
                    (set_cameraStatus (lit "Requesting camera access...",
                                       lit "info") this)))) as (_ & He & _).
  cbv zeta in He. rewrite He. unfold released. cbn.
  do 4 (split; [reflexivity |]).
  intros t [H | H]; [discriminate H |].
  apply in_map_iff in H as (t' & H & _). injection H as H _. congruence.
Qed.

Lemma startCamera_twice_leaks_witness :
  effects_of
    (resetCamera
       (state_of (startCamera (Granted another_stream) (the_camera page_captured))))
  = map (TrackStop (stream_id another_stream)) (tracks another_stream).
Proof.
  refine (proj1 (proj2 (proj2 (proj2
    (startCamera_twice_leaks (the_camera page_captured) a_stream another_stream
       _ _))))).
  - vm_compute. reflexivity.
  - vm_compute. discriminate.
Defined.

(** What [capturePhoto] does with a frame when both controllers are there. *)
Lemma capturePhoto_run w this cam imageData :
  smartFormApp w = Some this -> cameraApp w = Some cam ->
  capturePhoto (Normal imageData) w
  = ({| smartFormApp :=
          Some (state_of (checkFormValidity
                            (set_capturedImageData (Some imageData) this)));
        cameraApp :=
          Some (set_cameraStatus (lit "Photo captured successfully!", lit "info")
                  (set_buttons {| startCameraBtn_hidden := true;
                                  capturePhotoBtn_hidden := true;
                                  retakePhotoBtn_hidden := false |}
                     (set_isCaptured true
                        (set_hidden true false
                           (set_capturedImage_src (Some imageData) cam))))) |},
     [ImageCaptured (Some imageData)], Normal tt).
Proof.
  intros Hf Hc. unfold capturePhoto. apply try_catch_normal.
  rewrite bind_complete_normal.
  erewrite (bind_normal _ _ w); [| by eapply on_cameraApp_run].
  erewrite on_smartFormApp_run;
    [| exact Hf | by rewrite bind_emit, onImageCaptured_run].
  reflexivity.
Qed.

Lemma retakePhoto_run w this cam :
  smartFormApp w = Some this -> cameraApp w = Some cam ->
  retakePhoto w
  = ({| smartFormApp :=
          Some (state_of (checkFormValidity (set_capturedImageData None this)));
        cameraApp :=
          Some (set_cameraStatus
                  (lit "Position yourself and click Capture Photo", lit "info")
                  (set_buttons {| startCameraBtn_hidden := true;
                                  capturePhotoBtn_hidden := false;
                                  retakePhotoBtn_hidden := true |}
                     (set_isCaptured false (set_hidden false true cam)))) |},
     [ImageCaptured None], Normal tt).
Proof.
  intros Hf Hc. unfold retakePhoto.
  erewrite (bind_normal _ _ w); [| by eapply on_cameraApp_run].
  erewrite on_smartFormApp_run;
    [| exact Hf | by rewrite bind_emit, onImageCaptured_run].
  reflexivity.
Qed.

(** X13. A capture stores the frame as the still, hides the live feed,
    shows the still and the retake button, and hands the frame to the
    FormController exactly once; the stream is untouched. With a stream
    held the controller is then Captured. The FormController holds the
    frame, and its submit button is enabled exactly when every required
    control is clean and the frame is not the empty string. *)
Theorem capturePhoto_captures w this cam imageData :
  smartFormApp w = Some this -> cameraApp w = Some cam ->
  let r := capturePhoto (Normal imageData) w in
  exists this' cam',
    state_of r = {| smartFormApp := Some this'; cameraApp := Some cam' |}
    /\ completion_of r = Normal tt
    /\ effects_of r = [ImageCaptured (Some imageData)]
    /\ isCaptured cam' = true
    /\ stream cam' = stream cam
    /\ (is_Some (stream cam) -> captureState cam' = Some Captured)
    /\ capturedImage_src cam' = Some imageData
    /\ video_hidden cam' = true /\ capturedImage_hidden cam' = false
    /\ retakePhotoBtn_hidden (buttons cam') = false
    /\ capturedImageData this' = Some imageData
    /\ form this' = form this
    /\ (submitBtn_disabled this' = false
        <-> Forall clean_field (requiredFields this) /\ imageData <> []).
Proof.
  intros Hf Hc. cbv zeta. rewrite (capturePhoto_run w this cam imageData Hf Hc).
  eexists _, _. split; [reflexivity |].
  cbn [completion_of effects_of fst snd].
  do 4 (split; [reflexivity |]).
  split. { intros [s Hs]. unfold captureState. cbn. by rewrite Hs. }
  do 4 (split; [reflexivity |]).
  destruct (checkFormValidity_enabled (set_capturedImageData (Some imageData) this))
    as (Hb & Hfm & _ & Hi). cbv zeta in *.
  split; [done |]. split; [done |].
  unfold button_tracks_clean, requiredFields, image_present in Hb.
  rewrite Hfm, Hi in Hb. cbn in Hb. rewrite Hb.
  by rewrite truthy_string_ne.
Qed.

Lemma capturePhoto_captures_witness :
  exists this' cam',
    state_of (capturePhoto (Normal a_photo) page_captured)
    = {| smartFormApp := Some this'; cameraApp := Some cam' |}
    /\ completion_of (capturePhoto (Normal a_photo) page_captured) = Normal tt
    /\ effects_of (capturePhoto (Normal a_photo) page_captured)
       = [ImageCaptured (Some a_photo)]
    /\ isCaptured cam' = true
    /\ stream cam' = stream (the_camera page_captured)
    /\ (is_Some (stream (the_camera page_captured)) ->
        captureState cam' = Some Captured)
    /\ capturedImage_src cam' = Some a_photo
    /\ video_hidden cam' = true /\ capturedImage_hidden cam' = false
    /\ retakePhotoBtn_hidden (buttons cam') = false
    /\ capturedImageData this' = Some a_photo
    /\ form this' = form (the_form page_captured)
    /\ (submitBtn_disabled this' = false
        <-> Forall clean_field (requiredFields (the_form page_captured))
            /\ a_photo <> []).
Proof.
  refine (capturePhoto_captures page_captured (the_form page_captured)
            (the_camera page_captured) a_photo _ _).
  - vm_compute. reflexivity.
  - vm_compute. reflexivity.
Defined.

(** X14. When taking the frame throws, [capturePhoto] catches the error:
    it completes normally, logs the error and sets an error status; the
    capture state, the stream and the still are as before, and the
    FormController is neither notified nor changed. *)
Theorem capturePhoto_failure_contained w cam message :
  cameraApp w = Some cam ->
  capturePhoto (Throw message) w
  = ({| smartFormApp := smartFormApp w;
        cameraApp :=
          Some (set_cameraStatus (lit "Failed to capture photo", lit "error") cam) |},
     [ConsoleError (lit "Photo capture error:") message], Normal tt).
Proof.
  intros Hc. unfold capturePhoto.
  erewrite try_catch_throw; [| by rewrite bind_complete_throw].
  rewrite bind_emit. erewrite on_cameraApp_run; [| exact Hc | reflexivity].
  reflexivity.
Qed.

Lemma capturePhoto_failure_contained_witness :
  capturePhoto (Throw (lit "context is null")) page_captured
  = ({| smartFormApp := smartFormApp page_captured;
        cameraApp :=
          Some (set_cameraStatus (lit "Failed to capture photo", lit "error")
                  (the_camera page_captured)) |},
     [ConsoleError (lit "Photo capture error:") (lit "context is null")],
     Normal tt).
Proof.
  refine (capturePhoto_failure_contained page_captured
            (the_camera page_captured) (lit "context is null") _).
  vm_compute. reflexivity.
Defined.

(** X15. Each controller works without the other. Without a form
    controller on the page, a capture and a retake change the camera as
    usual, notify nobody and complete normally. Without a camera, a reset
    of the form resets the form, stops nothing and completes normally. *)
Theorem controllers_tolerate_absence w1 cam w2 this imageData :
  smartFormApp w1 = None -> cameraApp w1 = Some cam ->
  smartFormApp w2 = Some this -> cameraApp w2 = None ->
  (completion_of (capturePhoto (Normal imageData) w1) = Normal tt
   /\ effects_of (capturePhoto (Normal imageData) w1) = []
   /\ (isCaptured <$> cameraApp (state_of (capturePhoto (Normal imageData) w1)))
      = Some true)
  /\ (completion_of (retakePhoto w1) = Normal tt
      /\ effects_of (retakePhoto w1) = []
      /\ (isCaptured <$> cameraApp (state_of (retakePhoto w1))) = Some false)
  /\ (completion_of (handleFormReset w2) = Normal tt
      /\ effects_of (handleFormReset w2) = []
      /\ (form <$> smartFormApp (state_of (handleFormReset w2)))
         = Some (map reset_field (form this))
      /\ cameraApp (state_of (handleFormReset w2)) = None).
Proof.
  intros Hf1 Hc1 Hf2 Hc2. split; [| split].
  - unfold capturePhoto.
    erewrite try_catch_normal;
      [| rewrite bind_complete_normal;
         erewrite (bind_normal _ _ w1); [| by eapply on_cameraApp_run];
         unfold on_smartFormApp; cbn; rewrite Hf1; reflexivity].
    by cbn.
  - unfold retakePhoto.
    erewrite (bind_normal _ _ w1); [| by eapply on_cameraApp_run].
    unfold on_smartFormApp. cbn. rewrite Hf1. by cbn.
  - unfold handleFormReset.
    erewrite (bind_normal _ _ w2);
      [| eapply on_smartFormApp_run; [exact Hf2 |];
         rewrite !bind_modify; reflexivity].
    unfold on_cameraApp. cbn. rewrite Hc2. cbn. by rewrite map_map.
Qed.

Lemma controllers_tolerate_absence_witness :
  effects_of (capturePhoto (Normal a_photo) page_without_form) = [].
Proof.
  refine (proj1 (proj2 (proj1
    (controllers_tolerate_absence page_without_form
       (new_CameraApp a_document) page_without_camera
       (new_SmartFormApp a_document) a_photo _ _ _ _)))); reflexivity.
Defined.

(** ** The capture controller over the life of the page *)

Lemma run_cons ev evs w w1 e1 r :
  listener ev w = (w1, e1, r) ->
  run (ev :: evs) w = (fst (run evs w1), e1 ++ snd (run evs w1)).
Proof. intros H. cbn [run]. rewrite H. by destruct (run evs w1). Qed.

Lemma listener_capture w this cam imageData :
  smartFormApp w = Some this -> cameraApp w = Some cam ->
  listener (ClickCapturePhoto (Normal imageData)) w
  = ({| smartFormApp :=
          Some (state_of (checkFormValidity
                            (set_capturedImageData (Some imageData) this)));
        cameraApp :=
          Some (set_cameraStatus (lit "Photo captured successfully!", lit "info")
                  (set_buttons {| startCameraBtn_hidden := true;
                                  capturePhotoBtn_hidden := true;
                                  retakePhotoBtn_hidden := false |}
                     (set_isCaptured true
                        (set_hidden true false
                           (set_capturedImage_src (Some imageData) cam))))) |},
     [ImageCaptured (Some imageData)], Normal tt).
Proof. apply capturePhoto_run. Qed.

Lemma listener_retake w this cam :
  smartFormApp w = Some this -> cameraApp w = Some cam ->
  listener ClickRetakePhoto w
  = ({| smartFormApp :=
          Some (state_of (checkFormValidity (set_capturedImageData None this)));
        cameraApp :=
          Some (set_cameraStatus
                  (lit "Position yourself and click Capture Photo", lit "info")
                  (set_buttons {| startCameraBtn_hidden := true;
                                  capturePhotoBtn_hidden := false;
                                  retakePhotoBtn_hidden := true |}
                     (set_isCaptured false (set_hidden false true cam)))) |},
     [ImageCaptured None], Normal tt).
Proof. apply retakePhoto_run. Qed.

Lemma listener_reset w this cam :
  smartFormApp w = Some this -> cameraApp w = Some cam ->
  exists this',
    listener ClickReset w
    = ({| smartFormApp := Some this';
          cameraApp := Some (state_of (resetCamera cam)) |},
       released cam, Normal tt).
Proof.
  intros Hf Hc. eexists. cbn [listener]. by apply handleFormReset_run.
Qed.

Lemma listener_start w cam s :
  cameraApp w = Some cam ->
  listener (ClickStartCamera (Granted s)) w
  = ({| smartFormApp := smartFormApp w;
        cameraApp :=
          Some (set_video (Some s) true
                  (set_stream (Some s)
                     (set_cameraStatus
                        (lit "Requesting camera access...", lit "info") cam))) |},
     [GetUserMedia], Normal tt).
Proof.
  intros Hc. cbn [listener]. by apply (on_cameraApp_run _ _ cam).
Qed.

Lemma listener_loaded w cam :
  cameraApp w = Some cam ->
  video_onloadedmetadata cam = true -> is_Some (video_srcObject cam) ->
  listener LoadedMetadata w
  = ({| smartFormApp := smartFormApp w;
        cameraApp :=
          Some (set_buttons {| startCameraBtn_hidden := true;
                               capturePhotoBtn_hidden := false;
                               retakePhotoBtn_hidden := true |}
                  (set_cameraStatus
                     (lit "Camera ready - Position yourself and click Capture Photo",
                      lit "info") cam)) |},
     [], Normal tt).
Proof.
  intros Hc Hh Hs. cbn [listener]. apply (on_cameraApp_run _ _ cam); [done |].
  rewrite bind_gets. cbv [id]. rewrite Hh, bool_decide_eq_true_2 by done.
  reflexivity.
Qed.

Lemma filter_stops s (l : list nat) :
  List.filter is_track_stop (map (TrackStop s) l) = map (TrackStop s) l
  /\ List.filter is_notification (map (TrackStop s) l) = [].
Proof. induction l as [|t l [IH1 IH2]]; [done |]. cbn. by rewrite IH1, IH2. Qed.

(** X16. The whole lifecycle on a freshly loaded page: a granted start
    leads from Idle to Active, a capture to Captured, a retake back to
    Active and a reset of the form to Idle. Over the five events the
    FormController is notified twice, with the photo and then with
    absence, and every track of the stream is stopped exactly once, by the
    reset. *)
Theorem capture_lifecycle d s imageData :
  let start := ClickStartCamera (Granted s) in
  let capture := ClickCapturePhoto (Normal imageData) in
  let w0 := DOMContentLoaded d in
  page_captureState w0 = Some Idle
  /\ page_captureState (fst (run [start] w0)) = Some Active
  /\ page_captureState (fst (run [start; LoadedMetadata; capture] w0))
     = Some Captured
  /\ page_captureState
       (fst (run [start; LoadedMetadata; capture; ClickRetakePhoto] w0))
     = Some Active
  /\ (let r := run [start; LoadedMetadata; capture; ClickRetakePhoto; ClickReset] w0 in
      page_captureState (fst r) = Some Idle
      /\ List.filter is_track_stop (snd r)
         = map (TrackStop (stream_id s)) (tracks s)
      /\ List.filter is_notification (snd r)
         = [ImageCaptured (Some imageData); ImageCaptured None]).
Proof.
  cbv zeta.
  assert (Hc0 : stream (new_CameraApp d) = None
                /\ isCaptured (new_CameraApp d) = false).
  { unfold new_CameraApp. destruct (getUserMedia_supported d); by cbn. }
  destruct Hc0 as [Hs0 Hi0].
  pose proof (listener_start (DOMContentLoaded d) _ s eq_refl) as E1.
  match type of E1 with
  | _ = (?w, _, _) =>
      pose proof (listener_loaded w _ eq_refl eq_refl (mk_is_Some _ _ eq_refl))
        as E2
  end.
  match type of E2 with
  | _ = (?w, _, _) =>
      pose proof (listener_capture w _ _ imageData eq_refl eq_refl) as E3
  end.
  match type of E3 with
  | _ = (?w, _, _) => pose proof (listener_retake w _ _ eq_refl eq_refl) as E4
  end.
  match type of E4 with
  | _ = (?w, _, _) =>
      destruct (listener_reset w _ _ eq_refl eq_refl) as (this5 & E5)
  end.
  split.
  { unfold page_captureState, captureState. cbn. by rewrite Hs0, Hi0. }
  split.
  { rewrite (run_cons _ _ _ _ _ _ E1). cbn [run fst].
    unfold page_captureState, captureState. cbn. by rewrite Hi0. }
  split.
  { rewrite (run_cons _ _ _ _ _ _ E1), (run_cons _ _ _ _ _ _ E2),
      (run_cons _ _ _ _ _ _ E3). cbn [run fst].
    unfold page_captureState, captureState. by cbn. }
  split.
  { rewrite (run_cons _ _ _ _ _ _ E1), (run_cons _ _ _ _ _ _ E2),
      (run_cons _ _ _ _ _ _ E3), (run_cons _ _ _ _ _ _ E4). cbn [run fst].
    unfold page_captureState, captureState. by cbn. }
  rewrite (run_cons _ _ _ _ _ _ E1), (run_cons _ _ _ _ _ _ E2),
    (run_cons _ _ _ _ _ _ E3), (run_cons _ _ _ _ _ _ E4),
    (run_cons _ _ _ _ _ _ E5). cbn [run fst snd].
  split; [| split].
  - unfold page_captureState. cbn [cameraApp mbind option_bind].
    by rewrite resetCamera_state.
  - unfold released. cbn. rewrite app_nil_r. apply filter_stops.
  - unfold released. cbn. rewrite app_nil_r.
    by rewrite (proj2 (filter_stops _ _)).
Qed.

(** ** The capability check *)

Lemma disabled_on_smartFormApp m : keeps start_disabled (on_smartFormApp m).
Proof.
  intros w Hw cam. unfold on_smartFormApp.
  destruct (smartFormApp w) as [this |]; [| apply Hw].
  destruct (m this) as [[? ?] ?]. apply Hw.
Qed.

Lemma disabled_on_cameraApp (m : act CameraApp unit) :
  (forall this,
     startCameraBtn_disabled (state_of (m this)) = startCameraBtn_disabled this) ->
  keeps start_disabled (on_cameraApp m).
Proof.
  intros Hm w Hw cam. unfold on_cameraApp.
  destruct (cameraApp w) as [this |] eqn:E; [| cbn; by rewrite E].
  specialize (Hm this). destruct (m this) as [[s e] r]. cbn in *.
  intros [= <-]. rewrite Hm. by apply Hw.
Qed.

(** No listener enables the start button. *)
Lemma listener_keeps_start_disabled ev : keeps start_disabled (listener ev).
Proof.
  destruct ev as [i v | i | h | | | | o | | frame | |]; cbn [listener];
    unfold handleNewSubmission, handleFormReset, capturePhoto, retakePhoto, destroy;
    keeps_steps ltac:(first
      [ apply disabled_on_smartFormApp
      | apply disabled_on_cameraApp; intros this;
        first [ by rewrite resetCamera_state
              | reflexivity
              | by destruct o
              | rewrite bind_gets;
                match goal with
                | |- context [if ?b then _ else _] => by destruct b
                end ] ]).
Qed.

(** X17. When the browser has no [getUserMedia], the page loads with the
    start button disabled and an error status, and no event ever enables
    the button again. *)
Theorem unsupported_camera_stays_disabled d evs cam :
  getUserMedia_supported d = false ->
  cameraApp (fst (run evs (DOMContentLoaded d))) = Some cam ->
  startCameraBtn_disabled cam = true
  /\ cameraStatus (new_CameraApp d)
     = (lit "Camera not supported in this browser", lit "error").
Proof.
  intros Hd Hc. split.
  - revert cam Hc. apply (run_preserves start_disabled).
    + intros ev w. apply listener_keeps_start_disabled.
    + intros cam [= <-]. unfold new_CameraApp. by rewrite Hd.
  - unfold new_CameraApp. by rewrite Hd.
Qed.

Lemma unsupported_camera_stays_disabled_witness :
  startCameraBtn_disabled (the_camera page_unsupported_clicked) = true
  /\ cameraStatus (new_CameraApp a_document_unsupported)
     = (lit "Camera not supported in this browser", lit "error").
Proof.
  refine (unsupported_camera_stays_disabled a_document_unsupported
            [ClickStartCamera (Refused (lit "TypeError")); ClickReset]
            (the_camera page_unsupported_clicked) _ _).
  - reflexivity.
  - vm_compute. reflexivity.
Defined.
